(** * Arena Brawler: a shallow embedding of the simulation core

    The development follows the JavaScript sources module by module:
    [config.js], [utils/Vector2.js], [entities/Arena.js],
    [entities/Player.js], [core/Physics.js], [core/RoundManager.js] and the
    simulation driver of [core/Game.js].

    Numbers.  JavaScript numbers are modelled as real numbers ([R]): every
    arithmetic operation is the exact one, [Math.sqrt] is [sqrt], [Math.min]
    and [Math.max] are [Rmin] and [Rmax].  Rounding, [NaN] and the infinities
    of IEEE arithmetic are outside the model; where the source uses
    [Infinity] as a sentinel it is modelled by [None].

    Objects.  Every class becomes a record, every method a function from the
    receiver's old state to its new state (plus the returned value when there
    is one).  A reference to a player object is its index in the players
    array, which is how the shared, mutated player objects are threaded
    through the round manager and the driver.  Callbacks of the round manager
    become a list of emitted events that the driver's handlers consume.

    Collaborators that only draw (particles, screen effects, DOM) are left
    out; sources of nondeterminism ([Math.random], [Date.now], the input
    devices) are explicit arguments. *)

From Stdlib Require Import Reals Lra Lia List Bool String ZArith.
Import ListNotations.
Open Scope R_scope.

(** ** JavaScript comparison and truthiness on numbers *)

Module JS.

Definition ltb (a b : R) : bool := if Rlt_dec a b then true else false.
Definition leb (a b : R) : bool := if Rle_dec a b then true else false.
Definition gtb (a b : R) : bool := ltb b a.
Definition geb (a b : R) : bool := leb b a.
Definition eqb (a b : R) : bool := if Req_dec_T a b then true else false.

(** [o || d] for a numeric field that may be undefined: a missing field
    and the number zero are both falsy. *)
Definition or_default (o : option R) (d : R) : R :=
  match o with
  | Some v => if eqb v 0 then d else v
  | None => d
  end.

(** [Math.ceil], as an integer. *)
Definition ceil (a : R) : Z := (1 - up (- a))%Z.

(** [Math.floor], as an integer. *)
Definition floor (a : R) : Z := Int_part a.

End JS.

Declare Scope js_scope.
Infix "<?" := JS.ltb (at level 70) : js_scope.
Infix "<=?" := JS.leb (at level 70) : js_scope.
Infix ">?" := JS.gtb (at level 70) : js_scope.
Infix ">=?" := JS.geb (at level 70) : js_scope.
Infix "=?" := JS.eqb (at level 70) : js_scope.
Open Scope js_scope.

(** ** config.js *)

Module CONFIG.

Definition CANVAS_WIDTH : R := 1000.
Definition CANVAS_HEIGHT : R := 700.

Module ARENA.
Definition PADDING : R := 50.
End ARENA.

Module PLAYER.
Definition RADIUS : R := 25.
Definition MASS : R := 1.
Definition MAX_SPEED : R := 6.
Definition ACCELERATION : R := 0.8.
Definition FRICTION : R := 0.92.
Definition BOUNCE_FACTOR : R := 0.8.
End PLAYER.

Module DASH.
Definition SPEED_MULTIPLIER : R := 3.
Definition DURATION : R := 150.
Definition COOLDOWN : R := 1500.
End DASH.

Module COLLISION.
Definition PUSH_FORCE : R := 1.5.
Definition DASH_PUSH_MULTIPLIER : R := 2.
End COLLISION.

Module ROUNDS.
Definition WINS_NEEDED : nat := 3.
Definition COUNTDOWN_DURATION : Z := 3.
Definition ROUND_END_DELAY : R := 2000.
Definition MATCH_END_DELAY : R := 3000.
Definition MAX_ROUND_TIME : R := 25000.
End ROUNDS.

Module PHYSICS.
Definition FIXED_TIMESTEP : R := 1000 / 60.
End PHYSICS.

Module ESCALATION.
Definition BASE_DAMAGE_MULTIPLIER : R := 1.0.
Definition MAX_DAMAGE_MULTIPLIER : R := 2.5.
Definition DAMAGE_RAMP_START : R := 8000.
Definition DAMAGE_RAMP_DURATION : R := 10000.
Definition INSTABILITY_START : R := 12000.
Definition INSTABILITY_MAX_FORCE : R := 0.3.
Definition FINAL_COUNTDOWN_START : R := 20000.
Definition FINAL_COUNTDOWN_DURATION : R := 5000.
End ESCALATION.

(** The keys of [CONFIG.MODIFIERS] other than [NONE], in the order of the
    object literal. *)
Inductive ModKey : Type :=
  | SLIPPERY | HEAVY_HITS | TINY_ARENA | FAST_SHRINK | TURBO | BOUNCY.

Definition ModKey_eqb (a b : ModKey) : bool :=
  match a, b with
  | SLIPPERY, SLIPPERY | HEAVY_HITS, HEAVY_HITS | TINY_ARENA, TINY_ARENA
  | FAST_SHRINK, FAST_SHRINK | TURBO, TURBO | BOUNCY, BOUNCY => true
  | _, _ => false
  end.

(** A modifier object.  A property the literal does not mention is
    undefined ([None]); [key] is only present on the objects built by
    [getRandomModifier]. *)
Record Modifier : Type := mkModifier {
  key : option ModKey;
  name : option string;
  friction : option R;
  pushMultiplier : option R;
  arenaScale : option R;
  shrinkSpeed : option R;
  speedMultiplier : option R;
  bounceMultiplier : option R
}.

Module MODIFIERS.
Definition NONE : Modifier :=
  mkModifier None (Some "Standard"%string) None None None None None None.

(** [CONFIG.MODIFIERS[k]] *)
Definition get (k : ModKey) : Modifier :=
  match k with
  | SLIPPERY =>
    mkModifier None (Some "Ice Arena"%string) (Some 0.98) None None None None None
  | HEAVY_HITS =>
    mkModifier None (Some "Heavy Hits"%string) None (Some 2.0) None None None None
  | TINY_ARENA =>
    mkModifier None (Some "Claustrophobic"%string) None None (Some 0.7) None None None
  | FAST_SHRINK =>
    mkModifier None (Some "Closing In"%string) None None None (Some 2.5) None None
  | TURBO =>
    mkModifier None (Some "Turbo Mode"%string) None None None None (Some 1.4) None
  | BOUNCY =>
    mkModifier None (Some "Bouncy"%string) None None None None None (Some 1.5)
  end.
End MODIFIERS.

End CONFIG.

(** ** utils/Vector2.js *)

Module Vector2.

Record t : Type := mk { x : R; y : R }.

(** [new Vector2()] *)
Definition zero : t := mk 0 0.

Definition add (v w : t) : t := mk (x v + x w) (y v + y w).

Definition subtract (v w : t) : t := mk (x v - x w) (y v - y w).

Definition multiply (v : t) (scalar : R) : t := mk (x v * scalar) (y v * scalar).

Definition magnitude (v : t) : R := sqrt (x v * x v + y v * y v).

Definition magnitudeSquared (v : t) : R := x v * x v + y v * y v.

Definition normalize (v : t) : t :=
  let mag := magnitude v in
  if mag >? 0 then mk (x v / mag) (y v / mag) else v.

Definition limit (v : t) (max : R) : t :=
  let magSq := magnitudeSquared v in
  if magSq >? max * max then multiply (normalize v) max else v.

Definition dot (v w : t) : R := x v * x w + y v * y w.

Definition distanceTo (v w : t) : R :=
  let dx := x v - x w in
  let dy := y v - y w in
  sqrt (dx * dx + dy * dy).

End Vector2.

(** ** entities/Arena.js *)

Module Arena.

Record Bounds : Type := mkBounds {
  left : R;
  right : R;
  top : R;
  bottom : R
}.

Record t : Type := mk {
  bounds : Bounds;
  width : R;
  height : R;
  centerX : R;
  centerY : R;
  (* animation state *)
  time : R;
  pulsePhase : R;
  borderGlow : R;
  targetBorderGlow : R;
  (* shrinking mechanic *)
  originalBounds : Bounds;
  shrinkStartTime : R;
  shrinkDuration : R;
  minSizePercent : R;
  roundTime : R;
  isShrinking : bool;
  shrinkWarningShown : bool;
  (* modifier-based scaling and shrink speed *)
  arenaScale : R;
  shrinkSpeedMultiplier : R;
  (* sudden death tie-breaker *)
  suddenDeathActive : bool;
  suddenDeathStartTime : R;
  suddenDeathShrinkSpeed : R;
  suddenDeathForce : R;
  (* centrifuge tiebreaker mode *)
  centrifugeMode : bool;
  centrifugeRadius : R;
  centrifugeRotation : R;
  centrifugeSpeed : R;
  centrifugeMaxSpeed : R;
  centrifugeForce : R;
  centrifugeMaxForce : R
}.

(** [new Arena(canvasWidth, canvasHeight)] *)
Definition new (canvasWidth canvasHeight : R) : t :=
  let padding := CONFIG.ARENA.PADDING in
  let b := mkBounds padding (canvasWidth - padding) padding (canvasHeight - padding) in
  let w := right b - left b in
  let h := bottom b - top b in
  mk b w h (left b + w / 2) (top b + h / 2)
     0 0 0 0
     b 8000 12000 0.35 0 false false
     1.0 1.0
     false 12000 5 0.15
     false 0 0 0 0.004 0 0.35.

(** Assignment to the geometry fields, as [applyScale] and [update] do:
    [bounds], [width] and [height] together. *)
Definition set_geometry (b : Bounds) (w h : R) (a : t) : t :=
  mk b w h (centerX a) (centerY a)
     (time a) (pulsePhase a) (borderGlow a) (targetBorderGlow a)
     (originalBounds a) (shrinkStartTime a) (shrinkDuration a) (minSizePercent a)
     (roundTime a) (isShrinking a) (shrinkWarningShown a)
     (arenaScale a) (shrinkSpeedMultiplier a)
     (suddenDeathActive a) (suddenDeathStartTime a) (suddenDeathShrinkSpeed a)
     (suddenDeathForce a)
     (centrifugeMode a) (centrifugeRadius a) (centrifugeRotation a)
     (centrifugeSpeed a) (centrifugeMaxSpeed a) (centrifugeForce a)
     (centrifugeMaxForce a).

Definition set_arenaScale (s : R) (a : t) : t :=
  mk (bounds a) (width a) (height a) (centerX a) (centerY a)
     (time a) (pulsePhase a) (borderGlow a) (targetBorderGlow a)
     (originalBounds a) (shrinkStartTime a) (shrinkDuration a) (minSizePercent a)
     (roundTime a) (isShrinking a) (shrinkWarningShown a)
     s (shrinkSpeedMultiplier a)
     (suddenDeathActive a) (suddenDeathStartTime a) (suddenDeathShrinkSpeed a)
     (suddenDeathForce a)
     (centrifugeMode a) (centrifugeRadius a) (centrifugeRotation a)
     (centrifugeSpeed a) (centrifugeMaxSpeed a) (centrifugeForce a)
     (centrifugeMaxForce a).

Definition set_shrinkSpeedMultiplier (m : R) (a : t) : t :=
  mk (bounds a) (width a) (height a) (centerX a) (centerY a)
     (time a) (pulsePhase a) (borderGlow a) (targetBorderGlow a)
     (originalBounds a) (shrinkStartTime a) (shrinkDuration a) (minSizePercent a)
     (roundTime a) (isShrinking a) (shrinkWarningShown a)
     (arenaScale a) m
     (suddenDeathActive a) (suddenDeathStartTime a) (suddenDeathShrinkSpeed a)
     (suddenDeathForce a)
     (centrifugeMode a) (centrifugeRadius a) (centrifugeRotation a)
     (centrifugeSpeed a) (centrifugeMaxSpeed a) (centrifugeForce a)
     (centrifugeMaxForce a).

Definition set_targetBorderGlow (g : R) (a : t) : t :=
  mk (bounds a) (width a) (height a) (centerX a) (centerY a)
     (time a) (pulsePhase a) (borderGlow a) g
     (originalBounds a) (shrinkStartTime a) (shrinkDuration a) (minSizePercent a)
     (roundTime a) (isShrinking a) (shrinkWarningShown a)
     (arenaScale a) (shrinkSpeedMultiplier a)
     (suddenDeathActive a) (suddenDeathStartTime a) (suddenDeathShrinkSpeed a)
     (suddenDeathForce a)
     (centrifugeMode a) (centrifugeRadius a) (centrifugeRotation a)
     (centrifugeSpeed a) (centrifugeMaxSpeed a) (centrifugeForce a)
     (centrifugeMaxForce a).

Definition set_suddenDeathActive (v : bool) (a : t) : t :=
  mk (bounds a) (width a) (height a) (centerX a) (centerY a)
     (time a) (pulsePhase a) (borderGlow a) (targetBorderGlow a)
     (originalBounds a) (shrinkStartTime a) (shrinkDuration a) (minSizePercent a)
     (roundTime a) (isShrinking a) (shrinkWarningShown a)
     (arenaScale a) (shrinkSpeedMultiplier a)
     v (suddenDeathStartTime a) (suddenDeathShrinkSpeed a)
     (suddenDeathForce a)
     (centrifugeMode a) (centrifugeRadius a) (centrifugeRotation a)
     (centrifugeSpeed a) (centrifugeMaxSpeed a) (centrifugeForce a)
     (centrifugeMaxForce a).

(** The animation fields written at the top of [update]. *)
Definition set_animation (tm ph glow tglow : R) (a : t) : t :=
  mk (bounds a) (width a) (height a) (centerX a) (centerY a)
     tm ph glow tglow
     (originalBounds a) (shrinkStartTime a) (shrinkDuration a) (minSizePercent a)
     (roundTime a) (isShrinking a) (shrinkWarningShown a)
     (arenaScale a) (shrinkSpeedMultiplier a)
     (suddenDeathActive a) (suddenDeathStartTime a) (suddenDeathShrinkSpeed a)
     (suddenDeathForce a)
     (centrifugeMode a) (centrifugeRadius a) (centrifugeRotation a)
     (centrifugeSpeed a) (centrifugeMaxSpeed a) (centrifugeForce a)
     (centrifugeMaxForce a).

(** The centrifuge fields written by [activateCentrifuge] and [update]. *)
Definition set_centrifuge (mode : bool) (radius rotation speed force : R) (a : t) : t :=
  mk (bounds a) (width a) (height a) (centerX a) (centerY a)
     (time a) (pulsePhase a) (borderGlow a) (targetBorderGlow a)
     (originalBounds a) (shrinkStartTime a) (shrinkDuration a) (minSizePercent a)
     (roundTime a) (isShrinking a) (shrinkWarningShown a)
     (arenaScale a) (shrinkSpeedMultiplier a)
     (suddenDeathActive a) (suddenDeathStartTime a) (suddenDeathShrinkSpeed a)
     (suddenDeathForce a)
     mode radius rotation speed (centrifugeMaxSpeed a) force
     (centrifugeMaxForce a).

Definition set_roundTime (rt : R) (a : t) : t :=
  mk (bounds a) (width a) (height a) (centerX a) (centerY a)
     (time a) (pulsePhase a) (borderGlow a) (targetBorderGlow a)
     (originalBounds a) (shrinkStartTime a) (shrinkDuration a) (minSizePercent a)
     rt (isShrinking a) (shrinkWarningShown a)
     (arenaScale a) (shrinkSpeedMultiplier a)
     (suddenDeathActive a) (suddenDeathStartTime a) (suddenDeathShrinkSpeed a)
     (suddenDeathForce a)
     (centrifugeMode a) (centrifugeRadius a) (centrifugeRotation a)
     (centrifugeSpeed a) (centrifugeMaxSpeed a) (centrifugeForce a)
     (centrifugeMaxForce a).

Definition set_isShrinking (v : bool) (a : t) : t :=
  mk (bounds a) (width a) (height a) (centerX a) (centerY a)
     (time a) (pulsePhase a) (borderGlow a) (targetBorderGlow a)
     (originalBounds a) (shrinkStartTime a) (shrinkDuration a) (minSizePercent a)
     (roundTime a) v (shrinkWarningShown a)
     (arenaScale a) (shrinkSpeedMultiplier a)
     (suddenDeathActive a) (suddenDeathStartTime a) (suddenDeathShrinkSpeed a)
     (suddenDeathForce a)
     (centrifugeMode a) (centrifugeRadius a) (centrifugeRotation a)
     (centrifugeSpeed a) (centrifugeMaxSpeed a) (centrifugeForce a)
     (centrifugeMaxForce a).

(** [applyScale()] *)
Definition applyScale (a : t) : t :=
  let origWidth := right (originalBounds a) - left (originalBounds a) in
  let origHeight := bottom (originalBounds a) - top (originalBounds a) in
  let newWidth := origWidth * arenaScale a in
  let newHeight := origHeight * arenaScale a in
  set_geometry
    (mkBounds (centerX a - newWidth / 2) (centerX a + newWidth / 2)
              (centerY a - newHeight / 2) (centerY a + newHeight / 2))
    newWidth newHeight a.

(** [setScale(scale)] *)
Definition setScale (scale : R) (a : t) : t :=
  applyScale (set_arenaScale scale a).

(** [setShrinkSpeed(multiplier)] *)
Definition setShrinkSpeed (multiplier : R) (a : t) : t :=
  set_shrinkSpeedMultiplier multiplier a.

(** [getSpawnPositions(playerCount)]: the first [playerCount] of the four
    predefined spawn points (the driver keeps the count between 2 and 4). *)
Definition getSpawnPositions (playerCount : nat) (a : t) : list Vector2.t :=
  let padding := 80 in
  let spawnPoints :=
    [ Vector2.mk (left (bounds a) + padding) (centerY a);
      Vector2.mk (right (bounds a) - padding) (centerY a);
      Vector2.mk (centerX a) (top (bounds a) + padding);
      Vector2.mk (centerX a) (bottom (bounds a) - padding) ] in
  firstn playerCount spawnPoints.

(** [isOutOfCentrifuge(x, y, radius)] *)
Definition isOutOfCentrifuge (x y radius : R) (a : t) : bool :=
  if negb (centrifugeMode a) then false else
  let dx := x - centerX a in
  let dy := y - centerY a in
  let dist := sqrt (dx * dx + dy * dy) in
  dist + radius >? centrifugeRadius a.

(** [isEliminatedCentrifuge(x, y, radius)] *)
Definition isEliminatedCentrifuge (x y radius : R) (a : t) : bool :=
  if negb (centrifugeMode a) then false else
  let dx := x - centerX a in
  let dy := y - centerY a in
  let dist := sqrt (dx * dx + dy * dy) in
  dist - radius >? centrifugeRadius a.

(** [isOutOfBounds(x, y, radius)] *)
Definition isOutOfBounds (x y radius : R) (a : t) : bool :=
  if centrifugeMode a then isOutOfCentrifuge x y radius a else
  (x - radius <? left (bounds a)) ||
  (x + radius >? right (bounds a)) ||
  (y - radius <? top (bounds a)) ||
  (y + radius >? bottom (bounds a)).

(** [isEliminated(x, y, radius)] *)
Definition isEliminated (x y radius : R) (a : t) : bool :=
  if centrifugeMode a then isEliminatedCentrifuge x y radius a else
  (x + radius <? left (bounds a)) ||
  (x - radius >? right (bounds a)) ||
  (y + radius <? top (bounds a)) ||
  (y - radius >? bottom (bounds a)).

(** [getDistanceToBoundary(x, y)] *)
Definition getDistanceToBoundary (x y : R) (a : t) : R :=
  Rmin (x - left (bounds a))
    (Rmin (right (bounds a) - x)
       (Rmin (y - top (bounds a)) (bottom (bounds a) - y))).

(** [triggerBorderGlow()] *)
Definition triggerBorderGlow (a : t) : t := set_targetBorderGlow 1 a.

(** [reset()] *)
Definition reset (a : t) : t :=
  let b := originalBounds a in
  let w := right b - left b in
  let h := bottom b - top b in
  mk b w h (left b + w / 2) (top b + h / 2)
     (time a) (pulsePhase a) (borderGlow a) (targetBorderGlow a)
     (originalBounds a) (shrinkStartTime a) (shrinkDuration a) (minSizePercent a)
     0 false false
     1.0 1.0
     false (suddenDeathStartTime a) (suddenDeathShrinkSpeed a) (suddenDeathForce a)
     false (centrifugeRadius a) 0 0 (centrifugeMaxSpeed a) 0 (centrifugeMaxForce a).

(** [getShrinkProgress()] *)
Definition getShrinkProgress (a : t) : R :=
  if roundTime a <? shrinkStartTime a then 0 else
  let shrinkTime := roundTime a - shrinkStartTime a in
  Rmin 1 (shrinkTime / shrinkDuration a).

(** [isAboutToShrink()] *)
Definition isAboutToShrink (a : t) : bool :=
  (roundTime a >? shrinkStartTime a - 3000) && (roundTime a <? shrinkStartTime a).

(** [setAliveCount(count)] *)
Definition setAliveCount (count : nat) (a : t) : t :=
  if (INR count <=? 2) && (roundTime a >=? suddenDeathStartTime a)
     && negb (suddenDeathActive a)
  then set_suddenDeathActive true a
  else a.

(** [activateCentrifuge()] *)
Definition activateCentrifuge (a : t) : t :=
  set_centrifuge true (Rmin (width a) (height a) * 0.45) 0 0 0 a.

(** [getCentrifugeForce(x, y)] *)
Definition getCentrifugeForce (x y : R) (a : t) : Vector2.t :=
  if negb (centrifugeMode a) || (centrifugeForce a =? 0) then Vector2.mk 0 0 else
  let dx := x - centerX a in
  let dy := y - centerY a in
  let dist := sqrt (dx * dx + dy * dy) in
  if dist <? 10 then Vector2.mk 0 0 else
  let forceMagnitude := centrifugeForce a * (dist / 100) in
  Vector2.mk ((dx / dist) * forceMagnitude) ((dy / dist) * forceMagnitude).

(** [getSuddenDeathForce(x, y)] *)
Definition getSuddenDeathForce (x y : R) (a : t) : Vector2.t :=
  if negb (suddenDeathActive a) then Vector2.mk 0 0 else
  let dx := centerX a - x in
  let dy := centerY a - y in
  let dist := sqrt (dx * dx + dy * dy) in
  if dist <? 1 then Vector2.mk 0 0 else
  let forceMultiplier := Rmin (dist / 100) 2 * suddenDeathForce a in
  Vector2.mk ((dx / dist) * forceMultiplier) ((dy / dist) * forceMultiplier).

(** [update(deltaTime, isPlaying)] *)
Definition update (deltaTime : R) (isPlaying : bool) (a : t) : t :=
  (* animation: time, pulse phase, border glow decay *)
  let a1 :=
    set_animation (time a + deltaTime) (pulsePhase a + deltaTime * 0.003)
      (borderGlow a + (targetBorderGlow a - borderGlow a) * 0.1)
      (targetBorderGlow a * 0.95) a in
  (* centrifuge mode *)
  let a2 :=
    if centrifugeMode a1 && isPlaying then
      let speed := Rmin (centrifugeSpeed a1 + 0.000005 * deltaTime) (centrifugeMaxSpeed a1) in
      let rotation := centrifugeRotation a1 + speed * deltaTime in
      let force := Rmin (centrifugeForce a1 + 0.0001 * deltaTime) (centrifugeMaxForce a1) in
      let radius := Rmax 80 (centrifugeRadius a1 - 0.015 * deltaTime) in
      set_centrifuge (centrifugeMode a1) radius rotation speed force a1
    else a1 in
  (* round time and shrinking, only when playing *)
  if isPlaying then
    let a3 := set_roundTime (roundTime a2 + deltaTime) a2 in
    let shrinkMultiplier :=
      if suddenDeathActive a3 then suddenDeathShrinkSpeed a3
      else shrinkSpeedMultiplier a3 in
    if roundTime a3 >=? shrinkStartTime a3 then
      let a4 := set_isShrinking true a3 in
      let baseProgress := getShrinkProgress a4 in
      let progress := Rmin 1 (baseProgress * shrinkMultiplier) in
      let scale := 1 - (1 - minSizePercent a4) * progress in
      let finalScale := scale * arenaScale a4 in
      let newWidth := (right (originalBounds a4) - left (originalBounds a4)) * finalScale in
      let newHeight := (bottom (originalBounds a4) - top (originalBounds a4)) * finalScale in
      set_geometry
        (mkBounds (centerX a4 - newWidth / 2) (centerX a4 + newWidth / 2)
                  (centerY a4 - newHeight / 2) (centerY a4 + newHeight / 2))
        newWidth newHeight a4
    else a3
  else a2.

End Arena.

(** ** entities/Player.js *)

Module Player.

(** The state of a player object.  The colour strings, which never change
    and only feed the renderer, are left out.  [eliminationTime] and
    [distanceFromCenter] are properties that are absent until first
    assigned. *)
Record t : Type := mk {
  id : nat;
  position : Vector2.t;
  velocity : Vector2.t;
  radius : R;
  mass : R;
  isAlive : bool;
  isDashing : bool;
  dashTimeRemaining : R;
  dashCooldown : R;
  dashDirection : Vector2.t;
  hitFlash : R;
  pulsePhase : R;
  trailPositions : list Vector2.t;
  maxTrailLength : nat;
  lastMoveDirection : Vector2.t;
  squashStretch : Vector2.t;
  targetSquash : Vector2.t;
  nearEdge : bool;
  edgeWarningIntensity : R;
  idleTime : R;
  maxIdleTime : R;
  isIdle : bool;
  idleWarningShown : bool;
  wins : nat;
  spawnPosition : Vector2.t;
  originalSpawnPosition : Vector2.t;
  eliminationTime : option R;
  distanceFromCenter : option R
}.

Definition set_position (v : Vector2.t) (p : t) : t :=
  mk
     (id p) v (velocity p) (radius p) (mass p) (isAlive p) (isDashing p)
     (dashTimeRemaining p) (dashCooldown p) (dashDirection p) (hitFlash p)
     (pulsePhase p) (trailPositions p) (maxTrailLength p)
     (lastMoveDirection p) (squashStretch p) (targetSquash p) (nearEdge p)
     (edgeWarningIntensity p) (idleTime p) (maxIdleTime p) (isIdle p)
     (idleWarningShown p) (wins p) (spawnPosition p)
     (originalSpawnPosition p) (eliminationTime p) (distanceFromCenter p).

Definition set_velocity (v : Vector2.t) (p : t) : t :=
  mk
     (id p) (position p) v (radius p) (mass p) (isAlive p) (isDashing p)
     (dashTimeRemaining p) (dashCooldown p) (dashDirection p) (hitFlash p)
     (pulsePhase p) (trailPositions p) (maxTrailLength p)
     (lastMoveDirection p) (squashStretch p) (targetSquash p) (nearEdge p)
     (edgeWarningIntensity p) (idleTime p) (maxIdleTime p) (isIdle p)
     (idleWarningShown p) (wins p) (spawnPosition p)
     (originalSpawnPosition p) (eliminationTime p) (distanceFromCenter p).

Definition set_isAlive (v : bool) (p : t) : t :=
  mk
     (id p) (position p) (velocity p) (radius p) (mass p) v (isDashing p)
     (dashTimeRemaining p) (dashCooldown p) (dashDirection p) (hitFlash p)
     (pulsePhase p) (trailPositions p) (maxTrailLength p)
     (lastMoveDirection p) (squashStretch p) (targetSquash p) (nearEdge p)
     (edgeWarningIntensity p) (idleTime p) (maxIdleTime p) (isIdle p)
     (idleWarningShown p) (wins p) (spawnPosition p)
     (originalSpawnPosition p) (eliminationTime p) (distanceFromCenter p).

Definition set_isDashing (v : bool) (p : t) : t :=
  mk
     (id p) (position p) (velocity p) (radius p) (mass p) (isAlive p) v
     (dashTimeRemaining p) (dashCooldown p) (dashDirection p) (hitFlash p)
     (pulsePhase p) (trailPositions p) (maxTrailLength p)
     (lastMoveDirection p) (squashStretch p) (targetSquash p) (nearEdge p)
     (edgeWarningIntensity p) (idleTime p) (maxIdleTime p) (isIdle p)
     (idleWarningShown p) (wins p) (spawnPosition p)
     (originalSpawnPosition p) (eliminationTime p) (distanceFromCenter p).

Definition set_dashTimeRemaining (v : R) (p : t) : t :=
  mk
     (id p) (position p) (velocity p) (radius p) (mass p) (isAlive p)
     (isDashing p) v (dashCooldown p) (dashDirection p) (hitFlash p)
     (pulsePhase p) (trailPositions p) (maxTrailLength p)
     (lastMoveDirection p) (squashStretch p) (targetSquash p) (nearEdge p)
     (edgeWarningIntensity p) (idleTime p) (maxIdleTime p) (isIdle p)
     (idleWarningShown p) (wins p) (spawnPosition p)
     (originalSpawnPosition p) (eliminationTime p) (distanceFromCenter p).

Definition set_dashCooldown (v : R) (p : t) : t :=
  mk
     (id p) (position p) (velocity p) (radius p) (mass p) (isAlive p)
     (isDashing p) (dashTimeRemaining p) v (dashDirection p) (hitFlash p)
     (pulsePhase p) (trailPositions p) (maxTrailLength p)
     (lastMoveDirection p) (squashStretch p) (targetSquash p) (nearEdge p)
     (edgeWarningIntensity p) (idleTime p) (maxIdleTime p) (isIdle p)
     (idleWarningShown p) (wins p) (spawnPosition p)
     (originalSpawnPosition p) (eliminationTime p) (distanceFromCenter p).

Definition set_dashDirection (v : Vector2.t) (p : t) : t :=
  mk
     (id p) (position p) (velocity p) (radius p) (mass p) (isAlive p)
     (isDashing p) (dashTimeRemaining p) (dashCooldown p) v (hitFlash p)
     (pulsePhase p) (trailPositions p) (maxTrailLength p)
     (lastMoveDirection p) (squashStretch p) (targetSquash p) (nearEdge p)
     (edgeWarningIntensity p) (idleTime p) (maxIdleTime p) (isIdle p)
     (idleWarningShown p) (wins p) (spawnPosition p)
     (originalSpawnPosition p) (eliminationTime p) (distanceFromCenter p).

Definition set_hitFlash (v : R) (p : t) : t :=
  mk
     (id p) (position p) (velocity p) (radius p) (mass p) (isAlive p)
     (isDashing p) (dashTimeRemaining p) (dashCooldown p) (dashDirection p) v
     (pulsePhase p) (trailPositions p) (maxTrailLength p)
     (lastMoveDirection p) (squashStretch p) (targetSquash p) (nearEdge p)
     (edgeWarningIntensity p) (idleTime p) (maxIdleTime p) (isIdle p)
     (idleWarningShown p) (wins p) (spawnPosition p)
     (originalSpawnPosition p) (eliminationTime p) (distanceFromCenter p).

Definition set_pulsePhase (v : R) (p : t) : t :=
  mk
     (id p) (position p) (velocity p) (radius p) (mass p) (isAlive p)
     (isDashing p) (dashTimeRemaining p) (dashCooldown p) (dashDirection p)
     (hitFlash p) v (trailPositions p) (maxTrailLength p)
     (lastMoveDirection p) (squashStretch p) (targetSquash p) (nearEdge p)
     (edgeWarningIntensity p) (idleTime p) (maxIdleTime p) (isIdle p)
     (idleWarningShown p) (wins p) (spawnPosition p)
     (originalSpawnPosition p) (eliminationTime p) (distanceFromCenter p).

Definition set_trailPositions (v : list Vector2.t) (p : t) : t :=
  mk
     (id p) (position p) (velocity p) (radius p) (mass p) (isAlive p)
     (isDashing p) (dashTimeRemaining p) (dashCooldown p) (dashDirection p)
     (hitFlash p) (pulsePhase p) v (maxTrailLength p) (lastMoveDirection p)
     (squashStretch p) (targetSquash p) (nearEdge p) (edgeWarningIntensity p)
     (idleTime p) (maxIdleTime p) (isIdle p) (idleWarningShown p) (wins p)
     (spawnPosition p) (originalSpawnPosition p) (eliminationTime p)
     (distanceFromCenter p).

Definition set_lastMoveDirection (v : Vector2.t) (p : t) : t :=
  mk
     (id p) (position p) (velocity p) (radius p) (mass p) (isAlive p)
     (isDashing p) (dashTimeRemaining p) (dashCooldown p) (dashDirection p)
     (hitFlash p) (pulsePhase p) (trailPositions p) (maxTrailLength p) v
     (squashStretch p) (targetSquash p) (nearEdge p) (edgeWarningIntensity p)
     (idleTime p) (maxIdleTime p) (isIdle p) (idleWarningShown p) (wins p)
     (spawnPosition p) (originalSpawnPosition p) (eliminationTime p)
     (distanceFromCenter p).

Definition set_squashStretch (v : Vector2.t) (p : t) : t :=
  mk
     (id p) (position p) (velocity p) (radius p) (mass p) (isAlive p)
     (isDashing p) (dashTimeRemaining p) (dashCooldown p) (dashDirection p)
     (hitFlash p) (pulsePhase p) (trailPositions p) (maxTrailLength p)
     (lastMoveDirection p) v (targetSquash p) (nearEdge p)
     (edgeWarningIntensity p) (idleTime p) (maxIdleTime p) (isIdle p)
     (idleWarningShown p) (wins p) (spawnPosition p)
     (originalSpawnPosition p) (eliminationTime p) (distanceFromCenter p).

Definition set_targetSquash (v : Vector2.t) (p : t) : t :=
  mk
     (id p) (position p) (velocity p) (radius p) (mass p) (isAlive p)
     (isDashing p) (dashTimeRemaining p) (dashCooldown p) (dashDirection p)
     (hitFlash p) (pulsePhase p) (trailPositions p) (maxTrailLength p)
     (lastMoveDirection p) (squashStretch p) v (nearEdge p)
     (edgeWarningIntensity p) (idleTime p) (maxIdleTime p) (isIdle p)
     (idleWarningShown p) (wins p) (spawnPosition p)
     (originalSpawnPosition p) (eliminationTime p) (distanceFromCenter p).

Definition set_nearEdge (v : bool) (p : t) : t :=
  mk
     (id p) (position p) (velocity p) (radius p) (mass p) (isAlive p)
     (isDashing p) (dashTimeRemaining p) (dashCooldown p) (dashDirection p)
     (hitFlash p) (pulsePhase p) (trailPositions p) (maxTrailLength p)
     (lastMoveDirection p) (squashStretch p) (targetSquash p) v
     (edgeWarningIntensity p) (idleTime p) (maxIdleTime p) (isIdle p)
     (idleWarningShown p) (wins p) (spawnPosition p)
     (originalSpawnPosition p) (eliminationTime p) (distanceFromCenter p).

Definition set_edgeWarningIntensity (v : R) (p : t) : t :=
  mk
     (id p) (position p) (velocity p) (radius p) (mass p) (isAlive p)
     (isDashing p) (dashTimeRemaining p) (dashCooldown p) (dashDirection p)
     (hitFlash p) (pulsePhase p) (trailPositions p) (maxTrailLength p)
     (lastMoveDirection p) (squashStretch p) (targetSquash p) (nearEdge p) v
     (idleTime p) (maxIdleTime p) (isIdle p) (idleWarningShown p) (wins p)
     (spawnPosition p) (originalSpawnPosition p) (eliminationTime p)
     (distanceFromCenter p).

Definition set_idleTime (v : R) (p : t) : t :=
  mk
     (id p) (position p) (velocity p) (radius p) (mass p) (isAlive p)
     (isDashing p) (dashTimeRemaining p) (dashCooldown p) (dashDirection p)
     (hitFlash p) (pulsePhase p) (trailPositions p) (maxTrailLength p)
     (lastMoveDirection p) (squashStretch p) (targetSquash p) (nearEdge p)
     (edgeWarningIntensity p) v (maxIdleTime p) (isIdle p)
     (idleWarningShown p) (wins p) (spawnPosition p)
     (originalSpawnPosition p) (eliminationTime p) (distanceFromCenter p).

Definition set_isIdle (v : bool) (p : t) : t :=
  mk
     (id p) (position p) (velocity p) (radius p) (mass p) (isAlive p)
     (isDashing p) (dashTimeRemaining p) (dashCooldown p) (dashDirection p)
     (hitFlash p) (pulsePhase p) (trailPositions p) (maxTrailLength p)
     (lastMoveDirection p) (squashStretch p) (targetSquash p) (nearEdge p)
     (edgeWarningIntensity p) (idleTime p) (maxIdleTime p) v
     (idleWarningShown p) (wins p) (spawnPosition p)
     (originalSpawnPosition p) (eliminationTime p) (distanceFromCenter p).

Definition set_idleWarningShown (v : bool) (p : t) : t :=
  mk
     (id p) (position p) (velocity p) (radius p) (mass p) (isAlive p)
     (isDashing p) (dashTimeRemaining p) (dashCooldown p) (dashDirection p)
     (hitFlash p) (pulsePhase p) (trailPositions p) (maxTrailLength p)
     (lastMoveDirection p) (squashStretch p) (targetSquash p) (nearEdge p)
     (edgeWarningIntensity p) (idleTime p) (maxIdleTime p) (isIdle p) v
     (wins p) (spawnPosition p) (originalSpawnPosition p) (eliminationTime p)
     (distanceFromCenter p).

Definition set_wins (v : nat) (p : t) : t :=
  mk
     (id p) (position p) (velocity p) (radius p) (mass p) (isAlive p)
     (isDashing p) (dashTimeRemaining p) (dashCooldown p) (dashDirection p)
     (hitFlash p) (pulsePhase p) (trailPositions p) (maxTrailLength p)
     (lastMoveDirection p) (squashStretch p) (targetSquash p) (nearEdge p)
     (edgeWarningIntensity p) (idleTime p) (maxIdleTime p) (isIdle p)
     (idleWarningShown p) v (spawnPosition p) (originalSpawnPosition p)
     (eliminationTime p) (distanceFromCenter p).

Definition set_spawnPosition (v : Vector2.t) (p : t) : t :=
  mk
     (id p) (position p) (velocity p) (radius p) (mass p) (isAlive p)
     (isDashing p) (dashTimeRemaining p) (dashCooldown p) (dashDirection p)
     (hitFlash p) (pulsePhase p) (trailPositions p) (maxTrailLength p)
     (lastMoveDirection p) (squashStretch p) (targetSquash p) (nearEdge p)
     (edgeWarningIntensity p) (idleTime p) (maxIdleTime p) (isIdle p)
     (idleWarningShown p) (wins p) v (originalSpawnPosition p)
     (eliminationTime p) (distanceFromCenter p).

Definition set_eliminationTime (v : option R) (p : t) : t :=
  mk
     (id p) (position p) (velocity p) (radius p) (mass p) (isAlive p)
     (isDashing p) (dashTimeRemaining p) (dashCooldown p) (dashDirection p)
     (hitFlash p) (pulsePhase p) (trailPositions p) (maxTrailLength p)
     (lastMoveDirection p) (squashStretch p) (targetSquash p) (nearEdge p)
     (edgeWarningIntensity p) (idleTime p) (maxIdleTime p) (isIdle p)
     (idleWarningShown p) (wins p) (spawnPosition p)
     (originalSpawnPosition p) v (distanceFromCenter p).

Definition set_distanceFromCenter (v : option R) (p : t) : t :=
  mk
     (id p) (position p) (velocity p) (radius p) (mass p) (isAlive p)
     (isDashing p) (dashTimeRemaining p) (dashCooldown p) (dashDirection p)
     (hitFlash p) (pulsePhase p) (trailPositions p) (maxTrailLength p)
     (lastMoveDirection p) (squashStretch p) (targetSquash p) (nearEdge p)
     (edgeWarningIntensity p) (idleTime p) (maxIdleTime p) (isIdle p)
     (idleWarningShown p) (wins p) (spawnPosition p)
     (originalSpawnPosition p) (eliminationTime p) v.

(** The per-tick input of one player, as the input collaborator hands it
    over. *)
Record Input : Type := mkInput {
  movement : Vector2.t;
  dash : bool
}.

(** The object returned by [handleInput]. *)
Record DashResult : Type := mkDashResult {
  dashStarted : bool;
  direction : option Vector2.t
}.

(** [new Player(id, x, y, color)]; the random initial pulse phase is an
    argument. *)
Definition new (id : nat) (x y : R) (phase : R) : t :=
  mk id (Vector2.mk x y) Vector2.zero CONFIG.PLAYER.RADIUS CONFIG.PLAYER.MASS
     true false 0 0 Vector2.zero
     0 phase [] 10 (Vector2.mk 1 0) (Vector2.mk 1 1) (Vector2.mk 1 1) false 0
     0 5000 false false
     0 (Vector2.mk x y) (Vector2.mk x y) None None.

(** [reset()] *)
Definition reset (p : t) : t :=
  mk (id p) (spawnPosition p) Vector2.zero (radius p) (mass p)
     true false 0 0 (dashDirection p)
     0 (pulsePhase p) [] (maxTrailLength p) (lastMoveDirection p)
     (Vector2.mk 1 1) (Vector2.mk 1 1) false 0
     0 (maxIdleTime p) false false
     (wins p) (spawnPosition p) (originalSpawnPosition p) None (distanceFromCenter p).

(** [setSpawnPosition(x, y)] *)
Definition setSpawnPosition (x y : R) (p : t) : t :=
  set_spawnPosition (Vector2.mk x y) p.

(** [canDash()] *)
Definition canDash (p : t) : bool :=
  negb (isDashing p) && (dashCooldown p <=? 0).

(** [startDash(direction, speedMultiplier)] *)
Definition startDash (direction : Vector2.t) (speedMultiplier : R) (p : t) : t :=
  let p := set_isDashing true p in
  let p := set_dashTimeRemaining CONFIG.DASH.DURATION p in
  let p := set_dashCooldown CONFIG.DASH.COOLDOWN p in
  let p := set_dashDirection (Vector2.normalize direction) p in
  let p := set_lastMoveDirection (dashDirection p) p in
  let p := set_targetSquash (Vector2.mk 0.6 1.4) p in
  set_velocity
    (Vector2.multiply (dashDirection p)
       (CONFIG.PLAYER.MAX_SPEED * CONFIG.DASH.SPEED_MULTIPLIER * speedMultiplier))
    p.

(** [handleInput(input, deltaTime, speedMultiplier)] *)
Definition handleInput (input : Input) (deltaTime speedMultiplier : R) (p : t)
  : t * DashResult :=
  if negb (isAlive p) then (p, mkDashResult false None) else
  (* dash cooldown *)
  let p :=
    if dashCooldown p >? 0 then set_dashCooldown (dashCooldown p - deltaTime) p
    else p in
  (* dash state *)
  let p :=
    if isDashing p then
      let p := set_dashTimeRemaining (dashTimeRemaining p - deltaTime) p in
      if dashTimeRemaining p <=? 0
      then set_targetSquash (Vector2.mk 1.3 0.7) (set_isDashing false p)
      else p
    else p in
  (* try to dash *)
  if dash input && canDash p && (Vector2.magnitude (movement input) >? 0) then
    (startDash (movement input) speedMultiplier p,
     mkDashResult true (Some (movement input)))
  else
  (* movement acceleration, not during a dash *)
  let p :=
    if negb (isDashing p) && (Vector2.magnitude (movement input) >? 0) then
      let acceleration :=
        Vector2.multiply (movement input)
          (CONFIG.PLAYER.ACCELERATION * speedMultiplier) in
      let p := set_velocity (Vector2.add (velocity p) acceleration) p in
      set_lastMoveDirection (Vector2.normalize (movement input)) p
    else p in
  (p, mkDashResult false None).

(** [onHit(intensity)] *)
Definition onHit (intensity : R) (p : t) : t :=
  set_targetSquash (Vector2.mk 1.4 0.6) (set_hitFlash 1 p).

(** [getDashCooldownProgress()] *)
Definition getDashCooldownProgress (p : t) : R :=
  if dashCooldown p <=? 0 then 1
  else 1 - dashCooldown p / CONFIG.DASH.COOLDOWN.

(** [updateVisualEffects(deltaTime, arena)]; [arena] may be missing. *)
Definition updateVisualEffects (deltaTime : R) (arena : option Arena.t) (p : t) : t :=
  let p := if hitFlash p >? 0 then set_hitFlash (hitFlash p - 0.1) p else p in
  let p := set_pulsePhase (pulsePhase p + deltaTime * 0.005) p in
  let p :=
    set_squashStretch
      (Vector2.mk
         (Vector2.x (squashStretch p)
          + (Vector2.x (targetSquash p) - Vector2.x (squashStretch p)) * 0.2)
         (Vector2.y (squashStretch p)
          + (Vector2.y (targetSquash p) - Vector2.y (squashStretch p)) * 0.2))
      p in
  let p :=
    set_targetSquash
      (Vector2.mk
         (Vector2.x (targetSquash p) + (1 - Vector2.x (targetSquash p)) * 0.1)
         (Vector2.y (targetSquash p) + (1 - Vector2.y (targetSquash p)) * 0.1))
      p in
  match arena with
  | Some arena =>
      let distToEdge :=
        Arena.getDistanceToBoundary (Vector2.x (position p)) (Vector2.y (position p))
          arena in
      let warningDistance := 60 in
      if distToEdge <? warningDistance
      then set_edgeWarningIntensity (1 - distToEdge / warningDistance)
             (set_nearEdge true p)
      else set_edgeWarningIntensity 0 (set_nearEdge false p)
  | None => p
  end.

(** The friction factor [update] multiplies the velocity by. *)
Definition clampedFriction (frictionMultiplier : R) (p : t) : R :=
  let baseFriction := if isDashing p then 0.98 else CONFIG.PLAYER.FRICTION in
  let friction := baseFriction * frictionMultiplier in
  Rmin 0.995 (Rmax 0.85 friction).

(** The speed limit [update] applies after friction. *)
Definition maxSpeed (p : t) : R :=
  if isDashing p
  then CONFIG.PLAYER.MAX_SPEED * CONFIG.DASH.SPEED_MULTIPLIER
  else CONFIG.PLAYER.MAX_SPEED.

(** [update(deltaTime, arena, frictionMultiplier)] *)
Definition update (deltaTime : R) (arena : option Arena.t) (frictionMultiplier : R)
    (p : t) : t :=
  if negb (isAlive p) then p else
  (* trail *)
  let p :=
    if Vector2.magnitude (velocity p) >? 1 then
      let trail := position p :: trailPositions p in
      if Nat.ltb (maxTrailLength p) (List.length trail)
      then set_trailPositions (removelast trail) p
      else set_trailPositions trail p
    else p in
  (* idle time *)
  let p :=
    if Vector2.magnitude (velocity p) <? 0.5 then
      let p := set_idleTime (idleTime p + deltaTime) p in
      if idleTime p >=? maxIdleTime p then set_isIdle true p else p
    else
      set_idleWarningShown false (set_isIdle false (set_idleTime 0 p)) in
  (* friction, with modifier support, clamped to a reasonable range *)
  let p := set_velocity (Vector2.multiply (velocity p) (clampedFriction frictionMultiplier p)) p in
  (* speed limit *)
  let p := set_velocity (Vector2.limit (velocity p) (maxSpeed p)) p in
  (* integration *)
  let p := set_position (Vector2.add (position p) (velocity p)) p in
  updateVisualEffects deltaTime arena p.

(** [eliminate()]; the value of [Date.now()] is an argument. *)
Definition eliminate (now : R) (p : t) : t :=
  set_eliminationTime (Some now) (set_velocity Vector2.zero (set_isAlive false p)).

(** [addWin()] *)
Definition addWin (p : t) : t := set_wins (S (wins p)) p.

(** [hasWonMatch()] *)
Definition hasWonMatch (p : t) : bool :=
  Nat.leb CONFIG.ROUNDS.WINS_NEEDED (wins p).

End Player.

(** ** The players array

    Player objects are shared between the driver and the round manager; a
    reference to one is its index in the array. *)

Module Players.

Definition get (i : nat) (players : list Player.t) : option Player.t :=
  nth_error players i.

(** Write back the object at index [i]; nothing happens out of range. *)
Fixpoint set (i : nat) (p : Player.t) (players : list Player.t) : list Player.t :=
  match players, i with
  | [], _ => []
  | _ :: rest, O => p :: rest
  | q :: rest, S i' => q :: set i' p rest
  end.

(** Mutate the object at index [i] in place. *)
Definition modify (i : nat) (f : Player.t -> Player.t) (players : list Player.t)
  : list Player.t :=
  match get i players with
  | Some p => set i (f p) players
  | None => players
  end.

(** [players.filter(p => p.isAlive)], as references. *)
Definition alive (players : list Player.t) : list nat :=
  filter (fun i => match get i players with
                   | Some p => Player.isAlive p
                   | None => false
                   end)
         (seq 0 (List.length players)).

(** The index pairs [i < j] visited by the nested collision loops, in the
    order of the loops. *)
Definition pairs (n : nat) : list (nat * nat) :=
  flat_map (fun i => map (fun j => (i, j)) (seq (S i) (n - S i))) (seq 0 n).

End Players.

(** ** core/Physics.js *)

Module Physics.

(** [checkCircleCollision(p1, p2)] *)
Definition checkCircleCollision (p1 p2 : Player.t) : bool :=
  let dx := Vector2.x (Player.position p2) - Vector2.x (Player.position p1) in
  let dy := Vector2.y (Player.position p2) - Vector2.y (Player.position p1) in
  let distance := sqrt (dx * dx + dy * dy) in
  let minDistance := Player.radius p1 + Player.radius p2 in
  distance <? minDistance.

(** [resolveCollision(p1, p2, damageMultiplier, bounceMultiplier)] *)
Definition resolveCollision (p1 p2 : Player.t) (damageMultiplier bounceMultiplier : R)
  : Player.t * Player.t :=
  if negb (Player.isAlive p1) || negb (Player.isAlive p2) then (p1, p2) else
  let dx := Vector2.x (Player.position p2) - Vector2.x (Player.position p1) in
  let dy := Vector2.y (Player.position p2) - Vector2.y (Player.position p1) in
  let distance := sqrt (dx * dx + dy * dy) in
  let minDistance := Player.radius p1 + Player.radius p2 in
  if (distance >=? minDistance) || (distance =? 0) then (p1, p2) else
  (* collision normal *)
  let nx := dx / distance in
  let ny := dy / distance in
  (* separate the players *)
  let overlap := minDistance - distance in
  let separationX := (overlap / 2) * nx in
  let separationY := (overlap / 2) * ny in
  let p1 :=
    Player.set_position
      (Vector2.mk (Vector2.x (Player.position p1) - separationX)
                  (Vector2.y (Player.position p1) - separationY)) p1 in
  let p2 :=
    Player.set_position
      (Vector2.mk (Vector2.x (Player.position p2) + separationX)
                  (Vector2.y (Player.position p2) + separationY)) p2 in
  (* relative velocity along the normal *)
  let dvx := Vector2.x (Player.velocity p1) - Vector2.x (Player.velocity p2) in
  let dvy := Vector2.y (Player.velocity p1) - Vector2.y (Player.velocity p2) in
  let dvn := dvx * nx + dvy * ny in
  if dvn >? 0 then (p1, p2) else
  let restitution := CONFIG.PLAYER.BOUNCE_FACTOR * bounceMultiplier in
  let totalMass := Player.mass p1 + Player.mass p2 in
  let impulse := - (1 + restitution) * dvn / totalMass in
  let pushMultiplier := CONFIG.COLLISION.PUSH_FORCE * damageMultiplier in
  let pushMultiplier :=
    if Player.isDashing p1 || Player.isDashing p2
    then pushMultiplier * CONFIG.COLLISION.DASH_PUSH_MULTIPLIER
    else pushMultiplier in
  let impulse := impulse * pushMultiplier in
  let impulseX := impulse * nx in
  let impulseY := impulse * ny in
  let v1 :=
    Vector2.mk (Vector2.x (Player.velocity p1) + impulseX * Player.mass p2)
               (Vector2.y (Player.velocity p1) + impulseY * Player.mass p2) in
  let v2 :=
    Vector2.mk (Vector2.x (Player.velocity p2) - impulseX * Player.mass p1)
               (Vector2.y (Player.velocity p2) - impulseY * Player.mass p1) in
  (* at high damage the source multiplies both velocities by 1.0 *)
  let v1 := if damageMultiplier >? 1.5 then Vector2.multiply v1 1.0 else v1 in
  let v2 := if damageMultiplier >? 1.5 then Vector2.multiply v2 1.0 else v2 in
  (Player.set_velocity v1 p1, Player.set_velocity v2 p2).

(** One iteration of the body of the nested loops of [processCollisions]. *)
Definition collidePair (damageMultiplier bounceMultiplier : R)
    (players : list Player.t) (ij : nat * nat) : list Player.t :=
  match Players.get (fst ij) players, Players.get (snd ij) players with
  | Some p1, Some p2 =>
      if checkCircleCollision p1 p2 then
        let '(p1', p2') := resolveCollision p1 p2 damageMultiplier bounceMultiplier in
        Players.set (snd ij) p2' (Players.set (fst ij) p1' players)
      else players
  | _, _ => players
  end.

(** [processCollisions(players, damageMultiplier, bounceMultiplier)] *)
Definition processCollisions (players : list Player.t)
    (damageMultiplier bounceMultiplier : R) : list Player.t :=
  fold_left (collidePair damageMultiplier bounceMultiplier)
            (Players.pairs (List.length players)) players.

(** [checkArenaBoundary(player, arena)] *)
Definition checkArenaBoundary (player : Player.t) (arena : Arena.t) : bool :=
  if negb (Player.isAlive player) then false else
  Arena.isEliminated (Vector2.x (Player.position player))
    (Vector2.y (Player.position player)) (Player.radius player) arena.

End Physics.

(** ** core/RoundManager.js *)

Module RoundManager.

Inductive State : Type :=
  | waiting | countdown | playing | roundEnd | matchEnd.

Definition State_eqb (a b : State) : bool :=
  match a, b with
  | waiting, waiting | countdown, countdown | playing, playing
  | roundEnd, roundEnd | matchEnd, matchEnd => true
  | _, _ => false
  end.

(** The third argument of the round-end callback. *)
Inductive Reason : Type :=
  | knockout | timeout.

(** A callback invocation.  The round manager declares the hooks
    [onCountdownTick], [onRoundStart], [onRoundEnd], [onMatchEnd],
    [onModifierAnnounce], [onFinalCountdown] and [onEscalation]; the driver
    installs all of them, and one more, [onCentrifugeStart].  A player
    argument is a reference (an index in the players array). *)
Inductive Event : Type :=
  | CountdownTick (value : Z)
  | RoundStart (round : nat) (modifier : option CONFIG.Modifier)
  | ModifierAnnounce (modifier : CONFIG.Modifier)
  | Escalation (kind message : string)
  | FinalCountdown (secondsLeft : Z)
  | CentrifugeStart
  | RoundEnd (winner : option nat) (round : nat) (reason : Reason)
  | MatchEnd (winner : nat).

(** The two [Math.random()] results [getRandomModifier] may consume. *)
Record Draw : Type := mkDraw {
  first : R;
  second : R
}.

Record t : Type := mk {
  currentRound : nat;
  state : State;
  countdownValue : Z;
  countdownTimer : R;
  roundEndTimer : R;
  winner : option nat;
  roundWinner : option nat;
  roundTime : R;
  currentModifier : option CONFIG.Modifier;
  damageMultiplier : R;
  instabilityActive : bool;
  finalCountdownActive : bool;
  finalCountdownTime : R
}.

Definition set_currentRound (v : nat) (m : t) : t :=
  mk
     v (state m) (countdownValue m) (countdownTimer m) (roundEndTimer m)
     (winner m) (roundWinner m) (roundTime m) (currentModifier m)
     (damageMultiplier m) (instabilityActive m) (finalCountdownActive m)
     (finalCountdownTime m).

Definition set_state (v : State) (m : t) : t :=
  mk
     (currentRound m) v (countdownValue m) (countdownTimer m)
     (roundEndTimer m) (winner m) (roundWinner m) (roundTime m)
     (currentModifier m) (damageMultiplier m) (instabilityActive m)
     (finalCountdownActive m) (finalCountdownTime m).

Definition set_countdownValue (v : Z) (m : t) : t :=
  mk
     (currentRound m) (state m) v (countdownTimer m) (roundEndTimer m)
     (winner m) (roundWinner m) (roundTime m) (currentModifier m)
     (damageMultiplier m) (instabilityActive m) (finalCountdownActive m)
     (finalCountdownTime m).

Definition set_countdownTimer (v : R) (m : t) : t :=
  mk
     (currentRound m) (state m) (countdownValue m) v (roundEndTimer m)
     (winner m) (roundWinner m) (roundTime m) (currentModifier m)
     (damageMultiplier m) (instabilityActive m) (finalCountdownActive m)
     (finalCountdownTime m).

Definition set_roundEndTimer (v : R) (m : t) : t :=
  mk
     (currentRound m) (state m) (countdownValue m) (countdownTimer m) v
     (winner m) (roundWinner m) (roundTime m) (currentModifier m)
     (damageMultiplier m) (instabilityActive m) (finalCountdownActive m)
     (finalCountdownTime m).

Definition set_winner (v : option nat) (m : t) : t :=
  mk
     (currentRound m) (state m) (countdownValue m) (countdownTimer m)
     (roundEndTimer m) v (roundWinner m) (roundTime m) (currentModifier m)
     (damageMultiplier m) (instabilityActive m) (finalCountdownActive m)
     (finalCountdownTime m).

Definition set_roundWinner (v : option nat) (m : t) : t :=
  mk
     (currentRound m) (state m) (countdownValue m) (countdownTimer m)
     (roundEndTimer m) (winner m) v (roundTime m) (currentModifier m)
     (damageMultiplier m) (instabilityActive m) (finalCountdownActive m)
     (finalCountdownTime m).

Definition set_roundTime (v : R) (m : t) : t :=
  mk
     (currentRound m) (state m) (countdownValue m) (countdownTimer m)
     (roundEndTimer m) (winner m) (roundWinner m) v (currentModifier m)
     (damageMultiplier m) (instabilityActive m) (finalCountdownActive m)
     (finalCountdownTime m).

Definition set_currentModifier (v : option CONFIG.Modifier) (m : t) : t :=
  mk
     (currentRound m) (state m) (countdownValue m) (countdownTimer m)
     (roundEndTimer m) (winner m) (roundWinner m) (roundTime m) v
     (damageMultiplier m) (instabilityActive m) (finalCountdownActive m)
     (finalCountdownTime m).

Definition set_damageMultiplier (v : R) (m : t) : t :=
  mk
     (currentRound m) (state m) (countdownValue m) (countdownTimer m)
     (roundEndTimer m) (winner m) (roundWinner m) (roundTime m)
     (currentModifier m) v (instabilityActive m) (finalCountdownActive m)
     (finalCountdownTime m).

Definition set_instabilityActive (v : bool) (m : t) : t :=
  mk
     (currentRound m) (state m) (countdownValue m) (countdownTimer m)
     (roundEndTimer m) (winner m) (roundWinner m) (roundTime m)
     (currentModifier m) (damageMultiplier m) v (finalCountdownActive m)
     (finalCountdownTime m).

Definition set_finalCountdownActive (v : bool) (m : t) : t :=
  mk
     (currentRound m) (state m) (countdownValue m) (countdownTimer m)
     (roundEndTimer m) (winner m) (roundWinner m) (roundTime m)
     (currentModifier m) (damageMultiplier m) (instabilityActive m) v
     (finalCountdownTime m).

Definition set_finalCountdownTime (v : R) (m : t) : t :=
  mk
     (currentRound m) (state m) (countdownValue m) (countdownTimer m)
     (roundEndTimer m) (winner m) (roundWinner m) (roundTime m)
     (currentModifier m) (damageMultiplier m) (instabilityActive m)
     (finalCountdownActive m) v.

(** [new RoundManager()] *)
Definition new : t :=
  mk 0 waiting 0 0 0 None None 0 None
     CONFIG.ESCALATION.BASE_DAMAGE_MULTIPLIER false false 0.

(** [Object.keys(CONFIG.MODIFIERS).filter(k => k !== 'NONE')] *)
Definition modifierKeys : list CONFIG.ModKey :=
  [CONFIG.SLIPPERY; CONFIG.HEAVY_HITS; CONFIG.TINY_ARENA;
   CONFIG.FAST_SHRINK; CONFIG.TURBO; CONFIG.BOUNCY].

(** Array indexing by a computed integer; [undefined] out of range. *)
Definition index {A : Type} (l : list A) (i : Z) : option A :=
  if (i <? 0)%Z then None else nth_error l (Z.to_nat i).

(** [getRandomModifier()]: [{ key, ...CONFIG.MODIFIERS[key] }] *)
Definition getRandomModifier (draw : Draw) : CONFIG.Modifier :=
  if first draw <? 0.4 then CONFIG.MODIFIERS.NONE else
  let key := index modifierKeys (JS.floor (second draw * INR (List.length modifierKeys))) in
  match key with
  | Some k =>
      let m := CONFIG.MODIFIERS.get k in
      CONFIG.mkModifier (Some k) (CONFIG.name m) (CONFIG.friction m)
        (CONFIG.pushMultiplier m) (CONFIG.arenaScale m) (CONFIG.shrinkSpeed m)
        (CONFIG.speedMultiplier m) (CONFIG.bounceMultiplier m)
  | None => CONFIG.mkModifier None None None None None None None None
  end.

(** [startCountdown()] *)
Definition startCountdown (draw : Draw) (m : t) : t * list Event :=
  let m := set_countdownValue CONFIG.ROUNDS.COUNTDOWN_DURATION m in
  let m := set_countdownTimer 1000 m in
  let m := set_state countdown m in
  let m := set_roundWinner None m in
  (* reset escalation state *)
  let m := set_roundTime 0 m in
  let m := set_damageMultiplier CONFIG.ESCALATION.BASE_DAMAGE_MULTIPLIER m in
  let m := set_instabilityActive false m in
  let m := set_finalCountdownActive false m in
  let m := set_finalCountdownTime 0 m in
  (* modifier for this round, not for the first one *)
  let m :=
    if Nat.leb 1 (currentRound m)
    then set_currentModifier (Some (getRandomModifier draw)) m
    else set_currentModifier (Some CONFIG.MODIFIERS.NONE) m in
  (m, [CountdownTick (countdownValue m)]).

(** [startMatch()] *)
Definition startMatch (draw : Draw) (m : t) : t * list Event :=
  let m := set_currentRound 0%nat m in
  let m := set_state countdown m in
  let m := set_winner None m in
  startCountdown draw m.

(** [updateCountdown(deltaTime)] *)
Definition updateCountdown (deltaTime : R) (m : t) : t * list Event :=
  let m := set_countdownTimer (countdownTimer m - deltaTime) m in
  if countdownTimer m <=? 0 then
    let m := set_countdownValue (countdownValue m - 1)%Z m in
    if (countdownValue m <=? 0)%Z then
      (* start the round *)
      let m := set_state playing m in
      let m := set_currentRound (S (currentRound m)) m in
      let m := set_roundTime 0 m in
      let announce :=
        match currentModifier m with
        | Some modifier =>
            match CONFIG.name modifier with
            | Some n => if String.eqb n "Standard" then [] else [ModifierAnnounce modifier]
            | None => [ModifierAnnounce modifier]
            end
        | None => []
        end in
      (m, [RoundStart (currentRound m) (currentModifier m)] ++ announce
          ++ [CountdownTick 0%Z])
    else
      let m := set_countdownTimer 1000 m in
      (m, [CountdownTick (countdownValue m)])
  else (m, []).

(** [updateDamageMultiplier()] *)
Definition updateDamageMultiplier (m : t) : t :=
  let rampStart := CONFIG.ESCALATION.DAMAGE_RAMP_START in
  let rampDuration := CONFIG.ESCALATION.DAMAGE_RAMP_DURATION in
  let baseMultiplier := CONFIG.ESCALATION.BASE_DAMAGE_MULTIPLIER in
  let maxMultiplier := CONFIG.ESCALATION.MAX_DAMAGE_MULTIPLIER in
  if roundTime m <? rampStart then set_damageMultiplier baseMultiplier m
  else
    let progress := Rmin 1 ((roundTime m - rampStart) / rampDuration) in
    set_damageMultiplier (baseMultiplier + (maxMultiplier - baseMultiplier) * progress) m.

(** [getInstabilityForce(x, y, arenaCenter)] *)
Definition getInstabilityForce (x y : R) (m : t) : Vector2.t :=
  if negb (instabilityActive m) then Vector2.mk 0 0 else
  let time := roundTime m * 0.001 in
  let intensity := Rmin 1 ((roundTime m - CONFIG.ESCALATION.INSTABILITY_START) / 5000) in
  let maxForce := CONFIG.ESCALATION.INSTABILITY_MAX_FORCE * intensity in
  let forceAngle :=
    sin (time * 2 + x * 0.01) * cos (time * 1.5 + y * 0.01) * PI * 2 in
  let forceMag := (sin (time * 3 + x * 0.02 + y * 0.02) * 0.5 + 0.5) * maxForce in
  Vector2.mk (cos forceAngle * forceMag) (sin forceAngle * forceMag).

(** The effective distance [forceRoundEnd] reads off a player:
    [player.distanceFromCenter || 0]. *)
Definition storedDistance (p : Player.t) : R :=
  JS.or_default (Player.distanceFromCenter p) 0.

(** One iteration of the search loop of [forceRoundEnd].  The accumulator is
    [(closestPlayer, closestDist)]; [closestDist = None] is [Infinity]. *)
Definition closerStep (players : list Player.t) (acc : option nat * option R) (i : nat)
  : option nat * option R :=
  match Players.get i players with
  | Some player =>
      let dist := storedDistance player in
      let closer :=
        match snd acc with
        | Some closestDist => dist <? closestDist
        | None => true
        end in
      if closer then (Some i, Some dist) else acc
  | None => acc
  end.

(** The search loop of [forceRoundEnd] over [alivePlayers]. *)
Definition closest (players : list Player.t) (alivePlayers : list nat) : option nat :=
  fst (fold_left (closerStep players) alivePlayers (None, None)).

(** The elimination loop of [forceRoundEnd]: every member of [alivePlayers]
    other than [closestPlayer] is eliminated. *)
Definition eliminateOthers (now : R) (closestPlayer : option nat)
    (alivePlayers : list nat) (players : list Player.t) : list Player.t :=
  fold_left
    (fun ps i =>
       match closestPlayer with
       | Some c => if Nat.eqb i c then ps else Players.modify i (Player.eliminate now) ps
       | None => Players.modify i (Player.eliminate now) ps
       end)
    alivePlayers players.

(** [forceRoundEnd(players)] *)
Definition forceRoundEnd (now : R) (players : list Player.t) (m : t)
  : t * list Player.t * list Event :=
  let alivePlayers := Players.alive players in
  let '(m, players) :=
    match alivePlayers with
    | [] => (set_roundWinner None m, players)
    | [only] => (set_roundWinner (Some only) m, players)
    | _ =>
        let closestPlayer := closest players alivePlayers in
        let players := eliminateOthers now closestPlayer alivePlayers players in
        (set_roundWinner closestPlayer m, players)
    end in
  let players :=
    match roundWinner m with
    | Some w => Players.modify w Player.addWin players
    | None => players
    end in
  let m := set_state roundEnd m in
  let m := set_roundEndTimer CONFIG.ROUNDS.ROUND_END_DELAY m in
  (m, players, [RoundEnd (roundWinner m) (currentRound m) timeout]).

(** [checkRoundEnd(players)] *)
Definition checkRoundEnd (players : list Player.t) (m : t)
  : t * list Player.t * list Event :=
  let alivePlayers := Players.alive players in
  if Nat.leb (List.length alivePlayers) 1 then
    let m :=
      set_roundWinner
        (if Nat.eqb (List.length alivePlayers) 1 then nth_error alivePlayers 0 else None)
        m in
    let players :=
      match roundWinner m with
      | Some w => Players.modify w Player.addWin players
      | None => players
      end in
    let m := set_state roundEnd m in
    let m := set_roundEndTimer CONFIG.ROUNDS.ROUND_END_DELAY m in
    (m, players, [RoundEnd (roundWinner m) (currentRound m) knockout])
  else (m, players, []).

(** [updatePlaying(deltaTime, players)] *)
Definition updatePlaying (deltaTime : R) (now : R) (players : list Player.t) (m : t)
  : t * list Player.t * list Event :=
  let m := set_roundTime (roundTime m + deltaTime) m in
  let m := updateDamageMultiplier m in
  (* instability activation *)
  let '(m, ev1) :=
    if negb (instabilityActive m) && (roundTime m >=? CONFIG.ESCALATION.INSTABILITY_START)
    then (set_instabilityActive true m,
          [Escalation "instability" "CHAOS MODE! Random forces active!"])
    else (m, []) in
  (* final countdown activation *)
  let '(m, ev2) :=
    if negb (finalCountdownActive m)
       && (roundTime m >=? CONFIG.ESCALATION.FINAL_COUNTDOWN_START)
    then
      let m := set_finalCountdownActive true m in
      let m := set_finalCountdownTime CONFIG.ESCALATION.FINAL_COUNTDOWN_DURATION m in
      (m, [FinalCountdown (JS.ceil (finalCountdownTime m / 1000))])
    else (m, []) in
  (* final countdown *)
  if finalCountdownActive m then
    let m := set_finalCountdownTime (finalCountdownTime m - deltaTime) m in
    let secondsLeft := JS.ceil (finalCountdownTime m / 1000) in
    let ev3 := [FinalCountdown secondsLeft] in
    if finalCountdownTime m <=? 0 then
      let '(m, players, ev4) := forceRoundEnd now players m in
      (m, players, ev1 ++ ev2 ++ ev3 ++ ev4)
    else
      let '(m, players, ev4) := checkRoundEnd players m in
      (m, players, ev1 ++ ev2 ++ ev3 ++ ev4)
  else
    let '(m, players, ev4) := checkRoundEnd players m in
    (m, players, ev1 ++ ev2 ++ ev4).

(** [players.find(p => p.hasWonMatch())], as a reference. *)
Definition findMatchWinner (players : list Player.t) : option nat :=
  find (fun i => match Players.get i players with
                 | Some p => Player.hasWonMatch p
                 | None => false
                 end)
       (seq 0 (List.length players)).

(** [updateRoundEnd(deltaTime, players)] *)
Definition updateRoundEnd (deltaTime : R) (draw : Draw) (players : list Player.t) (m : t)
  : t * list Event :=
  let m := set_roundEndTimer (roundEndTimer m - deltaTime) m in
  if roundEndTimer m <=? 0 then
    match findMatchWinner players with
    | Some matchWinner =>
        let m := set_winner (Some matchWinner) m in
        let m := set_state matchEnd m in
        let m := set_roundEndTimer CONFIG.ROUNDS.MATCH_END_DELAY m in
        (m, [MatchEnd matchWinner])
    | None => startCountdown draw m
    end
  else (m, []).

(** [update(deltaTime, players)] *)
Definition update (deltaTime : R) (draw : Draw) (now : R)
    (players : list Player.t) (m : t) : t * list Player.t * list Event :=
  match state m with
  | countdown =>
      let '(m, ev) := updateCountdown deltaTime m in (m, players, ev)
  | playing => updatePlaying deltaTime now players m
  | roundEnd =>
      let '(m, ev) := updateRoundEnd deltaTime draw players m in (m, players, ev)
  | matchEnd => (m, players, [])
  | waiting => (m, players, [])
  end.

(** [isPlaying()] *)
Definition isPlaying (m : t) : bool := State_eqb (state m) playing.

(** [isWaiting()] *)
Definition isWaiting (m : t) : bool := State_eqb (state m) waiting.

(** [isMatchOver()] *)
Definition isMatchOver (m : t) : bool := State_eqb (state m) matchEnd.

End RoundManager.

(** ** core/Game.js: the simulation driver

    Rendering, particles, screen effects and the DOM are left out.  The frame
    loop only decides how many fixed steps run; what is modelled is the fixed
    step itself and the calls that start a match or change the player
    count. *)

Module Game.

(** What one fixed step takes from outside: the input of every player (by
    id), the random numbers the round manager may draw and the clock. *)
Record Env : Type := mkEnv {
  inputs : nat -> Player.Input;
  draw : RoundManager.Draw;
  now : R
}.

Record t : Type := mk {
  arena : Arena.t;
  players : list Player.t;
  playerCount : nat;
  roundManager : RoundManager.t;
  activeModifier : option CONFIG.Modifier;
  roundResetDone : bool
}.

Definition set_arena (v : Arena.t) (g : t) : t :=
  mk v (players g) (playerCount g) (roundManager g) (activeModifier g) (roundResetDone g).

Definition set_players (v : list Player.t) (g : t) : t :=
  mk (arena g) v (playerCount g) (roundManager g) (activeModifier g) (roundResetDone g).

Definition set_playerCount (v : nat) (g : t) : t :=
  mk (arena g) (players g) v (roundManager g) (activeModifier g) (roundResetDone g).

Definition set_roundManager (v : RoundManager.t) (g : t) : t :=
  mk (arena g) (players g) (playerCount g) v (activeModifier g) (roundResetDone g).

Definition set_activeModifier (v : option CONFIG.Modifier) (g : t) : t :=
  mk (arena g) (players g) (playerCount g) (roundManager g) v (roundResetDone g).

Definition set_roundResetDone (v : bool) (g : t) : t :=
  mk (arena g) (players g) (playerCount g) (roundManager g) (activeModifier g) v.

(** The players built by [initializePlayers()]: one per spawn position; the
    random pulse phases are an argument. *)
Definition makePlayers (phases : nat -> R) (spawnPositions : list Vector2.t)
  : list Player.t :=
  map (fun '(i, spawn) => Player.new i (Vector2.x spawn) (Vector2.y spawn) (phases i))
      (combine (seq 0 (List.length spawnPositions)) spawnPositions).

(** [initializePlayers()] *)
Definition initializePlayers (phases : nat -> R) (g : t) : t :=
  let spawnPositions := Arena.getSpawnPositions (playerCount g) (arena g) in
  let g := set_players (makePlayers phases spawnPositions) g in
  set_roundResetDone false g.

(** [new Game(canvas)], up to [setupRoundCallbacks()]. *)
Definition new (phases : nat -> R) : t :=
  initializePlayers phases
    (mk (Arena.new CONFIG.CANVAS_WIDTH CONFIG.CANVAS_HEIGHT) [] 2
        RoundManager.new None false).

(** The handlers installed by [setupRoundCallbacks()], as far as they touch
    the simulation state. *)
Definition handle (g : t) (e : RoundManager.Event) : t :=
  match e with
  | RoundManager.RoundStart round modifier =>
      let g := set_roundResetDone false g in
      let g := set_activeModifier modifier g in
      match modifier with
      | Some m =>
          match CONFIG.key m with
          | Some CONFIG.TINY_ARENA =>
              match CONFIG.arenaScale m with
              | Some scale => set_arena (Arena.setScale scale (arena g)) g
              | None => g
              end
          | Some CONFIG.FAST_SHRINK =>
              match CONFIG.shrinkSpeed m with
              | Some speed => set_arena (Arena.setShrinkSpeed speed (arena g)) g
              | None => g
              end
          | _ => g
          end
      | None => g
      end
  | RoundManager.CentrifugeStart =>
      set_arena (Arena.activateCentrifuge (arena g)) g
  | RoundManager.RoundEnd winner round reason =>
      set_activeModifier None g
  | RoundManager.CountdownTick _
  | RoundManager.ModifierAnnounce _
  | RoundManager.Escalation _ _
  | RoundManager.FinalCountdown _
  | RoundManager.MatchEnd _ => g
  end.

(** Run the handlers of the callbacks a round-manager call fired. *)
Definition dispatch (events : list RoundManager.Event) (g : t) : t :=
  fold_left handle events g.

(** The loop shared by [startNewMatch()] and [resetForRound()]: move every
    player to its spawn position of the reset arena and reset it;
    [startNewMatch] also clears the wins. *)
Definition respawn (clearWins : bool) (spawnPositions : list Vector2.t)
    (players : list Player.t) : list Player.t :=
  map (fun '(p, spawn) =>
         let p := Player.setSpawnPosition (Vector2.x spawn) (Vector2.y spawn) p in
         let p := if clearWins then Player.set_wins 0%nat p else p in
         Player.reset p)
      (combine players spawnPositions).

(** [startNewMatch()] *)
Definition startNewMatch (draw : RoundManager.Draw) (g : t)
  : t * list RoundManager.Event :=
  let g := set_arena (Arena.reset (arena g)) g in
  let spawnPositions := Arena.getSpawnPositions (playerCount g) (arena g) in
  let g := set_players (respawn true spawnPositions (players g)) g in
  let g := set_roundResetDone true g in
  let '(m, events) := RoundManager.startMatch draw (roundManager g) in
  (dispatch events (set_roundManager m g), events).

(** [resetForRound()] *)
Definition resetForRound (g : t) : t :=
  let g := set_arena (Arena.reset (arena g)) g in
  let spawnPositions := Arena.getSpawnPositions (playerCount g) (arena g) in
  set_players (respawn false spawnPositions (players g)) g.

(** [setPlayerCount(count)] *)
Definition setPlayerCount (phases : nat -> R) (count : nat) (g : t) : t :=
  let g := set_playerCount (Nat.max 2 (Nat.min 4 count)) g in
  let g := set_arena (Arena.reset (arena g)) g in
  let g := initializePlayers phases g in
  set_roundResetDone false g.

(** Adding a force to a player's velocity, [velocity.x += force.x] and
    [velocity.y += force.y]. *)
Definition push (force : Vector2.t) (p : Player.t) : Player.t :=
  Player.set_velocity
    (Vector2.mk (Vector2.x (Player.velocity p) + Vector2.x force)
                (Vector2.y (Player.velocity p) + Vector2.y force)) p.

(** The body of the player loop of [fixedUpdate]. *)
Definition playerStep (deltaTime : R) (env : Env) (frictionMod speedMod : R)
    (arena : Arena.t) (m : RoundManager.t) (player : Player.t) : Player.t :=
  let input := inputs env (Player.id player) in
  let '(player, result) := Player.handleInput input deltaTime speedMod player in
  let player := Player.update deltaTime (Some arena) frictionMod player in
  (* distance from center, for the forced resolution *)
  let dx := Vector2.x (Player.position player) - Arena.centerX arena in
  let dy := Vector2.y (Player.position player) - Arena.centerY arena in
  let player := Player.set_distanceFromCenter (Some (sqrt (dx * dx + dy * dy))) player in
  (* centrifuge force *)
  let player :=
    if Player.isAlive player && Arena.centrifugeMode arena then
      push (Arena.getCentrifugeForce (Vector2.x (Player.position player))
              (Vector2.y (Player.position player)) arena) player
    else player in
  (* sudden death force *)
  let player :=
    if Player.isAlive player && Arena.suddenDeathActive arena
       && negb (Arena.centrifugeMode arena) then
      push (Arena.getSuddenDeathForce (Vector2.x (Player.position player))
              (Vector2.y (Player.position player)) arena) player
    else player in
  (* instability forces *)
  let player :=
    if Player.isAlive player && RoundManager.instabilityActive m then
      push (RoundManager.getInstabilityForce (Vector2.x (Player.position player))
              (Vector2.y (Player.position player)) m) player
    else player in
  (* idle penalty *)
  if Player.isIdle player && Player.isAlive player then
    let dirX := Vector2.x (Player.position player) - Arena.centerX arena in
    let dirY := Vector2.y (Player.position player) - Arena.centerY arena in
    let dist := sqrt (dirX * dirX + dirY * dirY) in
    if dist >? 1 then
      let pushForce := 0.15 in
      push (Vector2.mk ((dirX / dist) * pushForce) ((dirY / dist) * pushForce)) player
    else player
  else player.

(** One iteration of the body of the nested loops of
    [processCollisionsWithEffects]. *)
Definition collidePair (damageMultiplier pushMod bounceMod : R)
    (players : list Player.t) (ij : nat * nat) : list Player.t :=
  match Players.get (fst ij) players, Players.get (snd ij) players with
  | Some p1, Some p2 =>
      if negb (Player.isAlive p1) || negb (Player.isAlive p2) then players else
      if Physics.checkCircleCollision p1 p2 then
        let relVelX := Vector2.x (Player.velocity p1) - Vector2.x (Player.velocity p2) in
        let relVelY := Vector2.y (Player.velocity p1) - Vector2.y (Player.velocity p2) in
        let intensity := sqrt (relVelX * relVelX + relVelY * relVelY) / 10 in
        let '(p1, p2) :=
          if intensity >? 0.3
          then (Player.onHit intensity p1, Player.onHit intensity p2)
          else (p1, p2) in
        let '(p1, p2) :=
          Physics.resolveCollision p1 p2 (damageMultiplier * pushMod) bounceMod in
        Players.set (snd ij) p2 (Players.set (fst ij) p1 players)
      else players
  | _, _ => players
  end.

(** [processCollisionsWithEffects(pushMod, bounceMod)] *)
Definition processCollisionsWithEffects (pushMod bounceMod : R) (g : t) : t :=
  let damageMultiplier :=
    JS.or_default (Some (RoundManager.damageMultiplier (roundManager g))) 1 in
  set_players
    (fold_left (collidePair damageMultiplier pushMod bounceMod)
       (Players.pairs (List.length (players g))) (players g))
    g.

(** The boundary loop of [fixedUpdate] with [onPlayerEliminated]. *)
Definition checkBoundaries (now : R) (g : t) : t :=
  let out := fun p => Physics.checkArenaBoundary p (arena g) in
  let g' :=
    set_players (map (fun p => if out p then Player.eliminate now p else p) (players g)) g in
  if existsb out (players g)
  then set_arena (Arena.triggerBorderGlow (arena g')) g'
  else g'.

(** A numeric property of the active modifier, [modifier?.prop || 1]. *)
Definition modifierEffect (prop : CONFIG.Modifier -> option R) (g : t) : R :=
  match activeModifier g with
  | Some m => JS.or_default (prop m) 1
  | None => 1
  end.

(** [fixedUpdate(deltaTime)], together with the callbacks it fired. *)
Definition fixedUpdate (deltaTime : R) (env : Env) (g : t)
  : t * list RoundManager.Event :=
  (* round manager, whose callbacks run the driver's handlers *)
  let '(m, ps, events) :=
    RoundManager.update deltaTime (draw env) (now env) (players g) (roundManager g) in
  let g := dispatch events (set_players ps (set_roundManager m g)) in
  (* arena *)
  let g :=
    set_arena (Arena.update deltaTime (RoundManager.isPlaying (roundManager g)) (arena g)) g in
  if negb (RoundManager.isPlaying (roundManager g)) then
    if RoundManager.State_eqb (RoundManager.state (roundManager g)) RoundManager.countdown
       && negb (roundResetDone g)
    then (set_roundResetDone true (resetForRound g), events)
    else (g, events)
  else
  let frictionMod := modifierEffect CONFIG.friction g in
  let speedMod := modifierEffect CONFIG.speedMultiplier g in
  let pushMod := modifierEffect CONFIG.pushMultiplier g in
  let bounceMod := modifierEffect CONFIG.bounceMultiplier g in
  (* player input and movement *)
  let g :=
    set_players
      (map (playerStep deltaTime env frictionMod speedMod (arena g) (roundManager g))
           (players g)) g in
  (* alive count, for sudden death *)
  let aliveCount := List.length (filter Player.isAlive (players g)) in
  let g := set_arena (Arena.setAliveCount aliveCount (arena g)) g in
  (* collisions *)
  let g := processCollisionsWithEffects pushMod bounceMod g in
  (* arena boundaries *)
  (checkBoundaries (now env) g, events).

(** What happens to the game from outside. *)
Inductive Step : Type :=
  | FixedUpdate (deltaTime : R) (env : Env)
  | StartPressed (draw : RoundManager.Draw)
  | PlayerCountChosen (phases : nat -> R) (count : nat).

(** The start key, button or touch is only honoured while waiting or after a
    match. *)
Definition step (s : Step) (g : t) : t * list RoundManager.Event :=
  match s with
  | FixedUpdate deltaTime env => fixedUpdate deltaTime env g
  | StartPressed draw =>
      if RoundManager.isWaiting (roundManager g) || RoundManager.isMatchOver (roundManager g)
      then startNewMatch draw g
      else (g, [])
  | PlayerCountChosen phases count => (setPlayerCount phases count g, [])
  end.

Definition isCentrifugeStart (e : RoundManager.Event) : bool :=
  match e with
  | RoundManager.CentrifugeStart => true
  | _ => false
  end.

(** An execution: the state reached and every callback fired on the way. *)
Definition run (steps : list Step) (g : t) : t * list RoundManager.Event :=
  fold_left
    (fun '(g, log) s => let '(g', events) := step s g in (g', log ++ events))
    steps (g, []).

End Game.

(** ** Calls made on the arena

    The arena is driven by its owner through method calls; a history of the
    arena is the list of calls made on it since construction. *)

Module ArenaTrace.

Inductive Op : Type :=
  | Update (deltaTime : R) (isPlaying : bool)
  | SetAliveCount (count : nat)
  | SetScale (scale : R)
  | SetShrinkSpeed (multiplier : R)
  | TriggerBorderGlow
  | ActivateCentrifuge
  | Reset.

Definition apply (op : Op) (a : Arena.t) : Arena.t :=
  match op with
  | Update dt playing => Arena.update dt playing a
  | SetAliveCount n => Arena.setAliveCount n a
  | SetScale s => Arena.setScale s a
  | SetShrinkSpeed m => Arena.setShrinkSpeed m a
  | TriggerBorderGlow => Arena.triggerBorderGlow a
  | ActivateCentrifuge => Arena.activateCentrifuge a
  | Reset => Arena.reset a
  end.

Definition run (ops : list Op) (a : Arena.t) : Arena.t :=
  fold_left (fun acc op => apply op acc) ops a.

(** Calls that happen inside a round: everything but the between-rounds
    [reset]. *)
Definition in_round (op : Op) : bool :=
  match op with
  | Reset => false
  | _ => true
  end.

(** The arena scale a call installs, if it installs one. *)
Definition scale_of (op : Op) : option R :=
  match op with
  | SetScale s => Some s
  | _ => None
  end.

(** The floor of the claim, on the [width]/[height] fields and on the
    extents of [bounds]. *)
Definition above_floor (a : Arena.t) : Prop :=
  let origWidth := Arena.right (Arena.originalBounds a) - Arena.left (Arena.originalBounds a) in
  let origHeight := Arena.bottom (Arena.originalBounds a) - Arena.top (Arena.originalBounds a) in
  Arena.minSizePercent a * Arena.arenaScale a * origWidth <= Arena.width a /\
  Arena.minSizePercent a * Arena.arenaScale a * origHeight <= Arena.height a /\
  Arena.right (Arena.bounds a) - Arena.left (Arena.bounds a) = Arena.width a /\
  Arena.bottom (Arena.bounds a) - Arena.top (Arena.bounds a) = Arena.height a.

(** What the shrink computation relies on: a canvas at least as large as
    the padding, a floor fraction in [0, 1] and a non-negative scale. *)
Definition shrink_wf (a : Arena.t) : Prop :=
  0 <= Arena.right (Arena.originalBounds a) - Arena.left (Arena.originalBounds a) /\
  0 <= Arena.bottom (Arena.originalBounds a) - Arena.top (Arena.originalBounds a) /\
  0 <= Arena.minSizePercent a <= 1 /\
  0 <= Arena.arenaScale a.

Definition scale_nonneg (op : Op) : Prop :=
  match scale_of op with
  | Some s => 0 <= s
  | None => True
  end.

(** A modifier object carries no negative arena scale. *)
Definition modifier_ok (modifier : option CONFIG.Modifier) : Prop :=
  match modifier with
  | Some m =>
      match CONFIG.arenaScale m with
      | Some scale => 0 <= scale
      | None => True
      end
  | None => True
  end.

(** The modifier a round-start callback hands to the driver is such a
    modifier. *)
Definition event_ok (e : RoundManager.Event) : Prop :=
  match e with
  | RoundManager.RoundStart _ modifier => modifier_ok modifier
  | _ => True
  end.

(** The invariant behind the floor: the arena is well formed and above its
    floor. *)
Definition floor_inv (a : Arena.t) : Prop := shrink_wf a /\ above_floor a.

End ArenaTrace.

(** ** The geometry behind the boundary predicates

    An actor occupies the closed disc of its radius around its position.  In
    rectangular mode the arena has four boundaries, the lines of its edges;
    in centrifuge mode it has one, the circle.  A point is past a boundary
    when it lies strictly on its outer side, and inside the arena when it is
    past none. *)

Module Geometry.

Inductive Boundary : Type :=
  | LeftEdge | RightEdge | TopEdge | BottomEdge | Circle.

Definition boundaries (a : Arena.t) : list Boundary :=
  if Arena.centrifugeMode a then [Circle]
  else [LeftEdge; RightEdge; TopEdge; BottomEdge].

Definition past (a : Arena.t) (b : Boundary) (p : Vector2.t) : Prop :=
  match b with
  | LeftEdge => Vector2.x p < Arena.left (Arena.bounds a)
  | RightEdge => Vector2.x p > Arena.right (Arena.bounds a)
  | TopEdge => Vector2.y p < Arena.top (Arena.bounds a)
  | BottomEdge => Vector2.y p > Arena.bottom (Arena.bounds a)
  | Circle =>
      Vector2.distanceTo p (Vector2.mk (Arena.centerX a) (Arena.centerY a))
      > Arena.centrifugeRadius a
  end.

(** The points of the bounding circle of an actor at [(x, y)]. *)
Definition in_disc (x y radius : R) (p : Vector2.t) : Prop :=
  Vector2.distanceTo p (Vector2.mk x y) <= radius.

(** A point is outside the arena when it is past one of its boundaries. *)
Definition outside (a : Arena.t) (p : Vector2.t) : Prop :=
  exists b, In b (boundaries a) /\ past a b p.

(** Partially outside: some point of the actor is past some boundary. *)
Definition partially_outside (a : Arena.t) (x y radius : R) : Prop :=
  exists b, In b (boundaries a) /\
    exists p, in_disc x y radius p /\ past a b p.

(** Completely outside: no point of the actor is inside the arena. *)
Definition completely_outside (a : Arena.t) (x y radius : R) : Prop :=
  forall p, in_disc x y radius p -> outside a p.

(** The whole actor is past one and the same boundary.  In rectangular mode
    this is less than being completely outside: past a corner an actor can
    miss the rectangle without being past any single edge line. *)
Definition past_one_boundary (a : Arena.t) (x y radius : R) : Prop :=
  exists b, In b (boundaries a) /\
    forall p, in_disc x y radius p -> past a b p.

(** The circle of the centrifuge mode has a non-negative radius. *)
Definition circle_ok (a : Arena.t) : Prop :=
  Arena.centrifugeMode a = true -> 0 <= Arena.centrifugeRadius a.

(** The partial-overlap band: partially but not completely outside. *)
Definition overlaps_boundary (a : Arena.t) (x y radius : R) : Prop :=
  partially_outside a x y radius /\ ~ completely_outside a x y radius.

End Geometry.

(** ** The friction formula as the specification words it

    [friction = clamp(baseFriction * externalFrictionModifier, 0.85, 0.995)],
    where [baseFriction] is the dash constant while dashing and the
    configured player friction otherwise. *)

Module Stated.

Definition clamp (v lo hi : R) : R :=
  if v <? lo then lo else if v >? hi then hi else v.

Definition baseFriction (p : Player.t) : R :=
  if Player.isDashing p then 0.98 else CONFIG.PLAYER.FRICTION.

Definition friction (frictionMultiplier : R) (p : Player.t) : R :=
  clamp (baseFriction p * frictionMultiplier) 0.85 0.995.

End Stated.

(** ** Reading the players array by reference *)

Module Roster.

(** The stored distance of the player behind a reference. *)
Definition distAt (players : list Player.t) (i : nat) : R :=
  match Players.get i players with
  | Some p => RoundManager.storedDistance p
  | None => 0
  end.

(** The distance of a player as [forceRoundEnd] is said to read it: the
    value of the [distanceFromCenter] field, and 0 while the field is
    unset. *)
Definition distanceOf (p : Player.t) : R :=
  match Player.distanceFromCenter p with
  | Some d => d
  | None => 0
  end.

(** The player a forced round end leaves at index [i] when it keeps [w]. *)
Definition afterForcedEnd (now : R) (w i : nat) (p : Player.t) : Player.t :=
  if Nat.eqb i w then Player.addWin p
  else if Player.isAlive p then Player.eliminate now p
  else p.

End Roster.

(** ** A round as the driver runs it

    In every fixed step the driver first updates the round manager and then,
    if the round is still being played, runs the player loop (input,
    physics, stored distance, forces), the collisions and the boundary loop
    over the players.  A round is followed tick by tick through
    [Game.fixedUpdate]; the round manager advanced on its own is
    [managerRun]. *)

Module RoundRun.

(** A tick of the driver: the step size and what the step takes from
    outside. *)
Definition Tick : Type := (R * Game.Env)%type.

Definition steps (ticks : list Tick) : list Game.Step :=
  map (fun tick : Tick => Game.FixedUpdate (fst tick) (snd tick)) ticks.

(** Cumulative simulated time. *)
Definition elapsed (ticks : list Tick) : R :=
  fold_right (fun (tick : Tick) acc => fst tick + acc) 0 ticks.

(** The game and the callbacks fired so far, advanced by one fixed step. *)
Definition step (st : Game.t * list RoundManager.Event) (tick : Tick)
  : Game.t * list RoundManager.Event :=
  let '(g, log) := st in
  let '(g', events) := Game.fixedUpdate (fst tick) (snd tick) g in
  (g', log ++ events).

Definition run (ticks : list Tick) (st : Game.t * list RoundManager.Event)
  : Game.t * list RoundManager.Event :=
  fold_left step ticks st.

Definition isRoundEnd (e : RoundManager.Event) : bool :=
  match e with
  | RoundManager.RoundEnd _ _ _ => true
  | _ => false
  end.

Definition isRoundStart (e : RoundManager.Event) : bool :=
  match e with
  | RoundManager.RoundStart _ _ => true
  | _ => false
  end.

(** The callbacks [updatePlaying] can fire. *)
Definition inRound (e : RoundManager.Event) : bool :=
  match e with
  | RoundManager.Escalation _ _ | RoundManager.FinalCountdown _
  | RoundManager.RoundEnd _ _ _ => true
  | _ => false
  end.

(** While the round manager waits or counts down, the final countdown of
    the round to come is not running. *)
Definition rested (m : RoundManager.t) : Prop :=
  RoundManager.state m = RoundManager.countdown \/
  RoundManager.state m = RoundManager.waiting ->
  RoundManager.finalCountdownActive m = false.

(** The driver's fixed step in parts.  [afterRoundManager] is the game once
    the round manager, its callbacks and the arena have been updated;
    [playPhase] is what [fixedUpdate] then does while the round is being
    played: the player loop, the alive count, the collisions and the
    boundary loop. *)
Definition afterRoundManager (dt : R) (env : Game.Env) (g : Game.t) : Game.t :=
  let '(m, ps, events) :=
    RoundManager.update dt (Game.draw env) (Game.now env) (Game.players g)
      (Game.roundManager g) in
  let g := Game.dispatch events (Game.set_players ps (Game.set_roundManager m g)) in
  Game.set_arena
    (Arena.update dt (RoundManager.isPlaying (Game.roundManager g)) (Game.arena g)) g.

Definition playerLoop (dt : R) (env : Game.Env) (g : Game.t) : list Player.t :=
  map (Game.playerStep dt env (Game.modifierEffect CONFIG.friction g)
         (Game.modifierEffect CONFIG.speedMultiplier g) (Game.arena g)
         (Game.roundManager g))
      (Game.players g).

Definition playPhase (dt : R) (env : Game.Env) (g : Game.t) : Game.t :=
  let pushMod := Game.modifierEffect CONFIG.pushMultiplier g in
  let bounceMod := Game.modifierEffect CONFIG.bounceMultiplier g in
  let g := Game.set_players (playerLoop dt env g) g in
  let aliveCount := List.length (filter Player.isAlive (Game.players g)) in
  let g := Game.set_arena (Arena.setAliveCount aliveCount (Game.arena g)) g in
  let g := Game.processCollisionsWithEffects pushMod bounceMod g in
  Game.checkBoundaries (Game.now env) g.

(** The arena center the driver measures [distanceFromCenter] from. *)
Definition center (g : Game.t) : Vector2.t :=
  Vector2.mk (Arena.centerX (Game.arena g)) (Arena.centerY (Game.arena g)).

(** The stored distances are the distances of the positions from the arena
    center.  This is how the player loop leaves the players
    ([playerLoop_tracked]); it is part of the invariant of a quiet round,
    not an assumption about it. *)
Definition tracked (center : Vector2.t) (players : list Player.t) : Prop :=
  forall p, In p players ->
    Player.distanceFromCenter p = Some (Vector2.distanceTo (Player.position p) center).

(** No collision: no pair of living players visited by the collision loops
    ([i < j]) overlaps. *)
Definition noCollision (players : list Player.t) : Prop :=
  forall i j p1 p2, (i < j)%nat ->
    Players.get i players = Some p1 -> Players.get j players = Some p2 ->
    Player.isAlive p1 = true -> Player.isAlive p2 = true ->
    Physics.checkCircleCollision p1 p2 = false.

(** No boundary elimination: the boundary loop finds no player to
    eliminate. *)
Definition noElimination (arena : Arena.t) (players : list Player.t) : Prop :=
  forall p, In p players -> Physics.checkArenaBoundary p arena = false.

(** A fixed step without collisions and without boundary eliminations: if
    the round is still being played once the round manager has been
    updated, the players the player loop produces do not collide and none
    of them is eliminated by the boundary loop. *)
Definition quietStep (g : Game.t) (tick : Tick) : Prop :=
  let g2 := afterRoundManager (fst tick) (snd tick) g in
  let loop := playerLoop (fst tick) (snd tick) g2 in
  RoundManager.isPlaying (Game.roundManager g2) = true ->
  noCollision loop /\
  noElimination
    (Arena.setAliveCount (List.length (filter Player.isAlive loop)) (Game.arena g2))
    loop.

(** A run without collisions and boundary eliminations: every step of it
    is quiet. *)
Fixpoint quiet (ticks : list Tick) (g : Game.t) : Prop :=
  match ticks with
  | [] => True
  | tick :: ticks' =>
      quietStep g tick /\
      quiet ticks' (fst (Game.fixedUpdate (fst tick) (snd tick) g))
  end.

(** The outcome of the claim, for a run from game [g0] to game [g] with the
    callbacks [log]: the round has ended by timeout; [w], one of the players
    alive at the start, is the only survivor; and where the players are,
    [w] is nearest to the arena center, the earliest in the players array
    among the equally near. *)
Definition timedOut (g0 : Game.t) (out : Game.t * list RoundManager.Event) : Prop :=
  let '(g, log) := out in
  RoundManager.state (Game.roundManager g) = RoundManager.roundEnd /\
  exists w pw,
    Players.get w (Game.players g) = Some pw /\
    RoundManager.roundWinner (Game.roundManager g) = Some w /\
    (* the round-end callback fired, once, with reason timeout *)
    (exists before,
        log = before
              ++ [RoundManager.RoundEnd (Some w)
                    (RoundManager.currentRound (Game.roundManager g0))
                    RoundManager.timeout] /\
        existsb isRoundEnd before = false) /\
    (* only [w] survives *)
    In w (Players.alive (Game.players g0)) /\
    Player.isAlive pw = true /\
    (forall j pj, Players.get j (Game.players g) = Some pj -> j <> w ->
       Player.isAlive pj = false) /\
    (* and [w] is nearest to the center *)
    (forall j pj, Players.get j (Game.players g) = Some pj ->
       In j (Players.alive (Game.players g0)) ->
       Vector2.distanceTo (Player.position pw) (center g0)
       <= Vector2.distanceTo (Player.position pj) (center g0) /\
       ((j < w)%nat ->
        Vector2.distanceTo (Player.position pw) (center g0)
        < Vector2.distanceTo (Player.position pj) (center g0))).

(** The three phases of a round that nobody wins by knockout, at cumulative
    time [T]: before the final countdown, during it, and after the forced
    end. *)
Definition common (g0 : Game.t) (st : Game.t * list RoundManager.Event) : Prop :=
  let '(g, log) := st in
  RoundManager.state (Game.roundManager g) = RoundManager.playing /\
  RoundManager.currentRound (Game.roundManager g)
  = RoundManager.currentRound (Game.roundManager g0) /\
  Players.alive (Game.players g) = Players.alive (Game.players g0) /\
  existsb isRoundEnd log = false /\
  center g = center g0.

Definition beforeCountdown (g0 : Game.t) (T : R)
    (st : Game.t * list RoundManager.Event) : Prop :=
  common g0 st /\
  RoundManager.finalCountdownActive (Game.roundManager (fst st)) = false /\
  RoundManager.roundTime (Game.roundManager (fst st)) = T /\
  T < CONFIG.ESCALATION.FINAL_COUNTDOWN_START /\
  (T = 0 \/ tracked (center g0) (Game.players (fst st))).

Definition duringCountdown (g0 : Game.t) (T : R)
    (st : Game.t * list RoundManager.Event) : Prop :=
  common g0 st /\
  RoundManager.finalCountdownActive (Game.roundManager (fst st)) = true /\
  0 < RoundManager.finalCountdownTime (Game.roundManager (fst st)) /\
  24000 < RoundManager.finalCountdownTime (Game.roundManager (fst st)) + T < 25000 /\
  tracked (center g0) (Game.players (fst st)).

Definition afterForcedEnd (g0 : Game.t) (T : R)
    (st : Game.t * list RoundManager.Event) : Prop :=
  26000 < RoundManager.roundEndTimer (Game.roundManager (fst st)) + T /\
  timedOut g0 st.

Definition inv (g0 : Game.t) (T : R) (st : Game.t * list RoundManager.Event) : Prop :=
  beforeCountdown g0 T st \/ duringCountdown g0 T st \/ afterForcedEnd g0 T st.

(** The round manager advanced on its own: [update] is called tick by tick
    and nothing else touches the players. *)
Definition managerStep (st : RoundManager.t * list Player.t * list RoundManager.Event)
    (tick : Tick) : RoundManager.t * list Player.t * list RoundManager.Event :=
  let '(m, players, log) := st in
  let '(m', players', events) :=
    RoundManager.update (fst tick) (Game.draw (snd tick)) (Game.now (snd tick)) players m in
  (m', players', log ++ events).

Definition managerRun (ticks : list Tick)
    (st : RoundManager.t * list Player.t * list RoundManager.Event)
  : RoundManager.t * list Player.t * list RoundManager.Event :=
  fold_left managerStep ticks st.

(** A tick of a full second with no input. *)
Definition fullSecond : Tick :=
  (1000, Game.mkEnv (fun _ => Player.mkInput Vector2.zero false) (RoundManager.mkDraw 0 0) 0).

End RoundRun.

(** ** A round in which the players hold their positions

    The forces of a round (idle penalty, sudden death, instability) act on
    the velocity at the end of the player loop; a player that steers against
    the velocity it is left with does not move.  Two such players, placed
    apart near the center of the full-size arena, play a round without
    collisions and boundary eliminations. *)

Module Hold.

(** The movement input with which a player steers against the velocity the
    forces of the previous step have left it with: [handleInput] adds
    [ACCELERATION] times the movement, which takes the velocity back to
    zero. *)
Definition against (p : Player.t) : Player.Input :=
  Player.mkInput
    (Vector2.multiply (Player.velocity p) (- / CONFIG.PLAYER.ACCELERATION)) false.

(** Every player holds its position. *)
Definition inputs (players : list Player.t) (id : nat) : Player.Input :=
  match find (fun p => Nat.eqb (Player.id p) id) players with
  | Some p => against p
  | None => Player.mkInput Vector2.zero false
  end.

Definition env (g : Game.t) : Game.Env :=
  Game.mkEnv (inputs (Game.players g)) (RoundManager.mkDraw 0 0) 0.

(** [n] fixed steps of size [dt] from game [g], every player holding its
    position. *)
Fixpoint ticks (n : nat) (dt : R) (g : Game.t) : list RoundRun.Tick :=
  match n with
  | O => []
  | S n' => (dt, env g) :: ticks n' dt (fst (Game.fixedUpdate dt (env g) g))
  end.

(** A round that has just started in the full-size arena, with two players
    70 and 40 pixels from the center. *)
Definition start : Game.t :=
  Game.mk (Arena.new CONFIG.CANVAS_WIDTH CONFIG.CANVAS_HEIGHT)
    [Player.new 0 430 350 0; Player.new 1 540 350 0] 2
    (RoundManager.set_state RoundManager.playing RoundManager.new) None false.

(** A living player that is not dashing, at position [pos]. *)
Definition stands (i : nat) (pos : Vector2.t) (p : Player.t) : Prop :=
  Player.id p = i /\ Player.isAlive p = true /\ Player.isDashing p = false /\
  Player.dashCooldown p = 0 /\ Player.radius p = CONFIG.PLAYER.RADIUS /\
  Player.position p = pos.

(** The arena of [start], however far it has shrunk. *)
Definition roomy (a : Arena.t) : Prop :=
  Arena.centrifugeMode a = false /\
  Arena.centerX a = 500 /\ Arena.centerY a = 350 /\
  Arena.originalBounds a = Arena.mkBounds 50 950 50 650 /\
  Arena.arenaScale a = 1 /\ Arena.minSizePercent a = 0.35 /\
  Arena.left (Arena.bounds a) <= 342.5 /\ 657.5 <= Arena.right (Arena.bounds a) /\
  Arena.top (Arena.bounds a) <= 245 /\ 455 <= Arena.bottom (Arena.bounds a).

(** The two players of [start] are where they were. *)
Definition placed (g : Game.t) : Prop :=
  map Player.position (Game.players g) = [Vector2.mk 430 350; Vector2.mk 540 350].

(** The game while the round of [start] is being played. *)
Definition held (g : Game.t) : Prop :=
  Game.activeModifier g = None /\
  roomy (Game.arena g) /\
  exists p0 p1,
    Game.players g = [p0; p1] /\
    stands 0 (Vector2.mk 430 350) p0 /\ stands 1 (Vector2.mk 540 350) p1.

End Hold.

(** ** Dead players stay where they are *)

Module Frozen.

(** The invariant of the data model: a player that is not alive has
    velocity [(0, 0)]. *)
Definition still (players : list Player.t) : Prop :=
  Forall (fun p => Player.isAlive p = false -> Player.velocity p = Vector2.zero) players.

(** What a step inside a round may do to one player: a dead player stays
    dead and keeps its velocity and position; a living player that dies is
    left with velocity [(0, 0)]. *)
Definition keeps (p p' : Player.t) : Prop :=
  (Player.isAlive p = false ->
     Player.isAlive p' = false /\
     Player.velocity p' = Player.velocity p /\
     Player.position p' = Player.position p) /\
  (Player.isAlive p = true -> Player.isAlive p' = false ->
     Player.velocity p' = Vector2.zero).

End Frozen.

(** ** The first half of [handleInput] *)

Module Dash.

(** The timers [handleInput] advances before it looks at the request. *)
Definition tickTimers (deltaTime : R) (p : Player.t) : Player.t :=
  let p :=
    if Player.dashCooldown p >? 0
    then Player.set_dashCooldown (Player.dashCooldown p - deltaTime) p
    else p in
  if Player.isDashing p then
    let p := Player.set_dashTimeRemaining (Player.dashTimeRemaining p - deltaTime) p in
    if Player.dashTimeRemaining p <=? 0
    then Player.set_targetSquash (Vector2.mk 1.3 0.7) (Player.set_isDashing false p)
    else p
  else p.

End Dash.

(* ================================================================== *)
(** * Properties *)

(** ** Reflection of the JavaScript comparisons *)

Lemma ltb_true (a b : R) : (a <? b) = true <-> a < b.
  Proof. unfold JS.ltb. destruct (Rlt_dec a b); split; intros; try easy. Qed.

Lemma ltb_false (a b : R) : (a <? b) = false <-> b <= a.
Proof.
  unfold JS.ltb. destruct (Rlt_dec a b); split; intros; try easy; lra.
Qed.

Lemma leb_true (a b : R) : (a <=? b) = true <-> a <= b.
  Proof. unfold JS.leb. destruct (Rle_dec a b); split; intros; try easy. Qed.

Lemma leb_false (a b : R) : (a <=? b) = false <-> b < a.
Proof.
  unfold JS.leb. destruct (Rle_dec a b); split; intros; try easy; lra.
Qed.

Lemma gtb_true (a b : R) : (a >? b) = true <-> a > b.
  Proof. unfold JS.gtb. rewrite ltb_true. lra. Qed.

Lemma gtb_false (a b : R) : (a >? b) = false <-> a <= b.
  Proof. unfold JS.gtb. rewrite ltb_false. lra. Qed.

Lemma geb_true (a b : R) : (a >=? b) = true <-> a >= b.
  Proof. unfold JS.geb. rewrite leb_true. lra. Qed.

Lemma geb_false (a b : R) : (a >=? b) = false <-> a < b.
  Proof. unfold JS.geb. rewrite leb_false. lra. Qed.

Lemma eqb_true (a b : R) : (a =? b) = true <-> a = b.
  Proof. unfold JS.eqb. destruct (Req_dec_T a b); split; intros; try easy. Qed.

Lemma eqb_false (a b : R) : (a =? b) = false <-> a <> b.
  Proof. unfold JS.eqb. destruct (Req_dec_T a b); split; intros; try easy. Qed.

(** ** Euclidean norm *)

Lemma sqrt_sq_sum_nonneg (a b : R) : 0 <= a * a + b * b.
  Proof. nra. Qed.

Lemma norm_sqr (a b : R) : sqrt (a * a + b * b) * sqrt (a * a + b * b) = a * a + b * b.
  Proof. apply sqrt_sqrt, sqrt_sq_sum_nonneg. Qed.

Lemma norm_nonneg (a b : R) : 0 <= sqrt (a * a + b * b).
  Proof. apply sqrt_pos. Qed.

Lemma norm_axis_x (r : R) : 0 <= r -> sqrt (r * r + 0 * 0) = r.
  Proof. intros Hr. replace (r * r + 0 * 0) with (r * r) by lra. now apply sqrt_square. Qed.

Lemma norm_le_of_sqr (a b m : R) : 0 <= m -> a * a + b * b <= m * m -> sqrt (a * a + b * b) <= m.
Proof.
  intros Hm H. rewrite <- (sqrt_square m Hm). apply sqrt_le_1_alt. exact H.
Qed.

Lemma norm_ge_of_sqr (a b m : R) : m * m <= a * a + b * b -> m <= sqrt (a * a + b * b).
Proof.
  intros H. destruct (Rle_dec 0 m) as [Hm|Hm].
  - rewrite <- (sqrt_square m Hm). apply sqrt_le_1_alt. exact H.
  - pose proof (norm_nonneg a b). lra.
Qed.

Lemma norm_triangle (a b c d : R) :
  sqrt ((a + b) * (a + b) + (c + d) * (c + d))
  <= sqrt (a * a + c * c) + sqrt (b * b + d * d).
Proof.
  pose proof (norm_nonneg a c) as H1. pose proof (norm_nonneg b d) as H2.
  pose proof (norm_sqr a c) as S1. pose proof (norm_sqr b d) as S2.
  set (m1 := sqrt (a * a + c * c)) in *. set (m2 := sqrt (b * b + d * d)) in *.
  apply norm_le_of_sqr; [lra|].
  assert (Hcs : a * b + c * d <= m1 * m2).
  { destruct (Rle_dec (a * b + c * d) 0) as [Hn|Hp]; [nra|].
    assert (Hsq : (a * b + c * d) * (a * b + c * d) <= (m1 * m2) * (m1 * m2)).
    { replace ((m1 * m2) * (m1 * m2)) with ((m1 * m1) * (m2 * m2)) by ring.
      rewrite S1, S2.
      pose proof (Rle_0_sqr (a * d - b * c)) as Hd. unfold Rsqr in Hd. nra. }
    apply Rnot_le_lt in Hp.
    assert (0 <= m1 * m2) by nra.
    nra. }
  nra.
Qed.

Lemma norm_bounds_fst (a b : R) :
  - sqrt (a * a + b * b) <= a <= sqrt (a * a + b * b).
Proof.
  pose proof (norm_nonneg a b) as H. pose proof (norm_sqr a b) as S.
  set (m := sqrt (a * a + b * b)) in *. split; nra.
Qed.

Lemma norm_bounds_snd (a b : R) :
  - sqrt (a * a + b * b) <= b <= sqrt (a * a + b * b).
Proof.
  pose proof (norm_nonneg a b) as H. pose proof (norm_sqr a b) as S.
  set (m := sqrt (a * a + b * b)) in *. split; nra.
Qed.

Lemma norm_axis_y (r : R) : 0 <= r -> sqrt (0 * 0 + r * r) = r.
  Proof. intros Hr. replace (0 * 0 + r * r) with (r * r) by lra. now apply sqrt_square. Qed.

Lemma norm_scale (k a b : R) :
  0 <= k -> sqrt ((k * a) * (k * a) + (k * b) * (k * b)) = k * sqrt (a * a + b * b).
Proof.
  intros Hk.
  replace ((k * a) * (k * a) + (k * b) * (k * b)) with ((k * k) * (a * a + b * b)) by ring.
  rewrite sqrt_mult_alt by nra. now rewrite sqrt_square.
Qed.

(** ** Boundary predicates as geometry (rectangular mode) *)

Section RectangularMode.

Variable a : Arena.t.
Hypothesis Hmode : Arena.centrifugeMode a = false.
Variables x y radius : R.
Hypothesis Hradius : 0 <= radius.

Lemma disc_extent (p : Vector2.t) :
  Geometry.in_disc x y radius p ->
  x - radius <= Vector2.x p <= x + radius /\
  y - radius <= Vector2.y p <= y + radius.
Proof.
  unfold Geometry.in_disc, Vector2.distanceTo. cbn. intros H.
  pose proof (norm_bounds_fst (Vector2.x p - x) (Vector2.y p - y)).
  pose proof (norm_bounds_snd (Vector2.x p - x) (Vector2.y p - y)).
  lra.
Qed.

Lemma disc_west : Geometry.in_disc x y radius (Vector2.mk (x - radius) y).
Proof.
  unfold Geometry.in_disc, Vector2.distanceTo. cbn.
  replace ((x - radius - x) * (x - radius - x) + (y - y) * (y - y))
    with (radius * radius + 0 * 0) by ring.
  rewrite norm_axis_x by exact Hradius. lra.
Qed.

Lemma disc_east : Geometry.in_disc x y radius (Vector2.mk (x + radius) y).
Proof.
  unfold Geometry.in_disc, Vector2.distanceTo. cbn.
  replace ((x + radius - x) * (x + radius - x) + (y - y) * (y - y))
    with (radius * radius + 0 * 0) by ring.
  rewrite norm_axis_x by exact Hradius. lra.
Qed.

Lemma disc_north : Geometry.in_disc x y radius (Vector2.mk x (y - radius)).
Proof.
  unfold Geometry.in_disc, Vector2.distanceTo. cbn.
  replace ((x - x) * (x - x) + (y - radius - y) * (y - radius - y))
    with (0 * 0 + radius * radius) by ring.
  rewrite norm_axis_y by exact Hradius. lra.
Qed.

Lemma disc_south : Geometry.in_disc x y radius (Vector2.mk x (y + radius)).
Proof.
  unfold Geometry.in_disc, Vector2.distanceTo. cbn.
  replace ((x - x) * (x - x) + (y + radius - y) * (y + radius - y))
    with (0 * 0 + radius * radius) by ring.
  rewrite norm_axis_y by exact Hradius. lra.
Qed.

Lemma rect_isOutOfBounds_iff :
  Arena.isOutOfBounds x y radius a = true <-> Geometry.partially_outside a x y radius.
Proof.
  unfold Arena.isOutOfBounds, Geometry.partially_outside, Geometry.boundaries.
  rewrite Hmode. rewrite !orb_true_iff, !ltb_true, !gtb_true. split.
  - intros [[[H|H]|H]|H].
    + exists Geometry.LeftEdge. split; [cbn; tauto|].
      exists (Vector2.mk (x - radius) y). split; [apply disc_west | exact H].
    + exists Geometry.RightEdge. split; [cbn; tauto|].
      exists (Vector2.mk (x + radius) y). split; [apply disc_east | exact H].
    + exists Geometry.TopEdge. split; [cbn; tauto|].
      exists (Vector2.mk x (y - radius)). split; [apply disc_north | exact H].
    + exists Geometry.BottomEdge. split; [cbn; tauto|].
      exists (Vector2.mk x (y + radius)). split; [apply disc_south | exact H].
  - intros (b & Hb & p & Hp & Hpast).
    apply disc_extent in Hp.
    cbn in Hb. destruct Hb as [<-|[<-|[<-|[<-|[]]]]]; cbn in Hpast; lra.
Qed.

Lemma rect_isEliminated_iff :
  Arena.isEliminated x y radius a = true <-> Geometry.past_one_boundary a x y radius.
Proof.
  unfold Arena.isEliminated, Geometry.past_one_boundary, Geometry.boundaries.
  rewrite Hmode. rewrite !orb_true_iff, !ltb_true, !gtb_true. split.
  - intros [[[H|H]|H]|H].
    + exists Geometry.LeftEdge. split; [cbn; tauto|].
      intros p Hp. apply disc_extent in Hp. cbn. lra.
    + exists Geometry.RightEdge. split; [cbn; tauto|].
      intros p Hp. apply disc_extent in Hp. cbn. lra.
    + exists Geometry.TopEdge. split; [cbn; tauto|].
      intros p Hp. apply disc_extent in Hp. cbn. lra.
    + exists Geometry.BottomEdge. split; [cbn; tauto|].
      intros p Hp. apply disc_extent in Hp. cbn. lra.
  - intros (b & Hb & Hall).
    cbn in Hb. destruct Hb as [<-|[<-|[<-|[<-|[]]]]].
    + specialize (Hall _ disc_east). cbn in Hall. lra.
    + specialize (Hall _ disc_west). cbn in Hall. lra.
    + specialize (Hall _ disc_south). cbn in Hall. lra.
    + specialize (Hall _ disc_north). cbn in Hall. lra.
Qed.

End RectangularMode.

(** ** Boundary predicates as geometry (centrifuge mode) *)

Lemma unit_direction (dx dy : R) :
  exists ux uy : R,
    ux * ux + uy * uy = 1 /\
    dx = sqrt (dx * dx + dy * dy) * ux /\
    dy = sqrt (dx * dx + dy * dy) * uy.
Proof.
  pose proof (norm_nonneg dx dy) as Hn. pose proof (norm_sqr dx dy) as Hs.
  set (d := sqrt (dx * dx + dy * dy)) in *.
  destruct (Req_dec_T d 0) as [Hz|Hnz].
  - exists 1, 0. rewrite Hz in *. split; [ring|]. split; nra.
  - exists (dx / d), (dy / d). split; [|split].
    + field_simplify_eq; [nra | exact Hnz].
    + field. exact Hnz.
    + field. exact Hnz.
Qed.

Lemma norm_unit_scale (k ux uy : R) :
  0 <= k -> ux * ux + uy * uy = 1 ->
  sqrt ((k * ux) * (k * ux) + (k * uy) * (k * uy)) = k.
Proof.
  intros Hk Hu. rewrite norm_scale by exact Hk. rewrite Hu, sqrt_1. ring.
Qed.

Section CentrifugeMode.

Variable a : Arena.t.
Hypothesis Hmode : Arena.centrifugeMode a = true.
Variables x y radius : R.
Hypothesis Hradius : 0 <= radius.

Let dist : R :=
  sqrt ((x - Arena.centerX a) * (x - Arena.centerX a)
        + (y - Arena.centerY a) * (y - Arena.centerY a)).

Lemma disc_centre_distance (p : Vector2.t) :
  Geometry.in_disc x y radius p ->
  dist - radius
  <= Vector2.distanceTo p (Vector2.mk (Arena.centerX a) (Arena.centerY a))
  <= dist + radius.
Proof.
  unfold Geometry.in_disc, Vector2.distanceTo, dist. cbn. intros H.
  set (cx := Arena.centerX a) in *. set (cy := Arena.centerY a) in *.
  destruct p as [px py]; cbn in *.
  split.
  - pose proof (norm_triangle (x - px) (px - cx) (y - py) (py - cy)) as T.
    replace (x - px + (px - cx)) with (x - cx) in T by ring.
    replace (y - py + (py - cy)) with (y - cy) in T by ring.
    replace ((x - px) * (x - px) + (y - py) * (y - py))
      with ((px - x) * (px - x) + (py - y) * (py - y)) in T by ring.
    lra.
  - pose proof (norm_triangle (px - x) (x - cx) (py - y) (y - cy)) as T.
    replace (px - x + (x - cx)) with (px - cx) in T by ring.
    replace (py - y + (y - cy)) with (py - cy) in T by ring.
    lra.
Qed.

Lemma disc_far_point :
  exists p, Geometry.in_disc x y radius p /\
    Vector2.distanceTo p (Vector2.mk (Arena.centerX a) (Arena.centerY a))
    = dist + radius.
Proof.
  destruct (unit_direction (x - Arena.centerX a) (y - Arena.centerY a))
    as (ux & uy & Hu & Hx & Hy).
  fold dist in Hx, Hy. pose proof (norm_nonneg (x - Arena.centerX a) (y - Arena.centerY a)) as Hd.
  fold dist in Hd.
  exists (Vector2.mk (x + radius * ux) (y + radius * uy)).
  unfold Geometry.in_disc, Vector2.distanceTo. cbn. split.
  - replace (x + radius * ux - x) with (radius * ux) by ring.
    replace (y + radius * uy - y) with (radius * uy) by ring.
    rewrite norm_unit_scale by assumption. lra.
  - replace (x + radius * ux - Arena.centerX a) with ((dist + radius) * ux) by lra.
    replace (y + radius * uy - Arena.centerY a) with ((dist + radius) * uy) by lra.
    apply norm_unit_scale; [lra | exact Hu].
Qed.

Lemma disc_near_point :
  radius <= dist ->
  exists p, Geometry.in_disc x y radius p /\
    Vector2.distanceTo p (Vector2.mk (Arena.centerX a) (Arena.centerY a))
    = dist - radius.
Proof.
  intros Hle.
  destruct (unit_direction (x - Arena.centerX a) (y - Arena.centerY a))
    as (ux & uy & Hu & Hx & Hy).
  fold dist in Hx, Hy.
  exists (Vector2.mk (x - radius * ux) (y - radius * uy)).
  unfold Geometry.in_disc, Vector2.distanceTo. cbn. split.
  - replace ((x - radius * ux - x) * (x - radius * ux - x)
             + (y - radius * uy - y) * (y - radius * uy - y))
      with ((radius * ux) * (radius * ux) + (radius * uy) * (radius * uy)) by ring.
    rewrite norm_unit_scale by assumption. lra.
  - replace (x - radius * ux - Arena.centerX a) with ((dist - radius) * ux) by lra.
    replace (y - radius * uy - Arena.centerY a) with ((dist - radius) * uy) by lra.
    apply norm_unit_scale; [lra | exact Hu].
Qed.

Lemma disc_contains_centre :
  dist <= radius ->
  Geometry.in_disc x y radius (Vector2.mk (Arena.centerX a) (Arena.centerY a)).
Proof.
  unfold Geometry.in_disc, Vector2.distanceTo, dist. cbn. intros H.
  replace ((Arena.centerX a - x) * (Arena.centerX a - x)
           + (Arena.centerY a - y) * (Arena.centerY a - y))
    with ((x - Arena.centerX a) * (x - Arena.centerX a)
          + (y - Arena.centerY a) * (y - Arena.centerY a)) by ring.
  exact H.
Qed.

Lemma circ_isOutOfBounds_iff :
  Arena.isOutOfBounds x y radius a = true <-> Geometry.partially_outside a x y radius.
Proof.
  unfold Arena.isOutOfBounds, Arena.isOutOfCentrifuge,
    Geometry.partially_outside, Geometry.boundaries.
  rewrite Hmode. cbn [negb]. fold dist. rewrite gtb_true. split.
  - intros H. exists Geometry.Circle. split; [cbn; tauto|].
    destruct disc_far_point as (p & Hp & Hfar).
    exists p. split; [exact Hp|]. cbn. rewrite Hfar. exact H.
  - intros (b & Hb & p & Hp & Hpast).
    cbn in Hb. destruct Hb as [<-|[]]. cbn in Hpast.
    pose proof (disc_centre_distance p Hp). lra.
Qed.

Lemma circ_isEliminated_past :
  Arena.isEliminated x y radius a = true -> Geometry.past_one_boundary a x y radius.
Proof.
  unfold Arena.isEliminated, Arena.isEliminatedCentrifuge,
    Geometry.past_one_boundary, Geometry.boundaries.
  rewrite Hmode. cbn [negb]. fold dist. rewrite gtb_true.
  intros H. exists Geometry.Circle. split; [cbn; tauto|].
  intros p Hp. cbn. pose proof (disc_centre_distance p Hp). lra.
Qed.

Lemma circ_past_isEliminated :
  0 <= Arena.centrifugeRadius a ->
  Geometry.past_one_boundary a x y radius -> Arena.isEliminated x y radius a = true.
Proof.
  unfold Arena.isEliminated, Arena.isEliminatedCentrifuge,
    Geometry.past_one_boundary, Geometry.boundaries.
  rewrite Hmode. cbn [negb]. fold dist. rewrite gtb_true.
  intros HR (b & Hb & Hall). cbn in Hb. destruct Hb as [<-|[]].
  destruct (Rle_dec radius dist) as [Hle|Hgt].
  - destruct (disc_near_point Hle) as (p & Hp & Hnear).
    specialize (Hall p Hp). cbn in Hall. lra.
  - apply Rnot_le_lt in Hgt.
    assert (Hc : dist <= radius) by lra.
    specialize (Hall _ (disc_contains_centre Hc)). cbn in Hall.
    unfold Vector2.distanceTo in Hall. cbn in Hall.
    replace ((Arena.centerX a - Arena.centerX a) * (Arena.centerX a - Arena.centerX a)
             + (Arena.centerY a - Arena.centerY a) * (Arena.centerY a - Arena.centerY a))
      with (0 * 0 + 0 * 0) in Hall by ring.
    rewrite norm_axis_x in Hall by lra. lra.
Qed.

End CentrifugeMode.

Lemma isOutOfBounds_iff (a : Arena.t) (x y radius : R) :
  0 <= radius ->
  Arena.isOutOfBounds x y radius a = true <-> Geometry.partially_outside a x y radius.
Proof.
  intros Hr. destruct (Arena.centrifugeMode a) eqn:Hm.
  - now apply circ_isOutOfBounds_iff.
  - now apply rect_isOutOfBounds_iff.
Qed.

Lemma isEliminated_past (a : Arena.t) (x y radius : R) :
  0 <= radius ->
  Arena.isEliminated x y radius a = true -> Geometry.past_one_boundary a x y radius.
Proof.
  intros Hr. destruct (Arena.centrifugeMode a) eqn:Hm.
  - now apply circ_isEliminated_past.
  - now apply rect_isEliminated_iff.
Qed.

Lemma past_isEliminated (a : Arena.t) (x y radius : R) :
  0 <= radius -> Geometry.circle_ok a ->
  Geometry.past_one_boundary a x y radius -> Arena.isEliminated x y radius a = true.
Proof.
  intros Hr Hc. destruct (Arena.centrifugeMode a) eqn:Hm.
  - apply circ_past_isEliminated; auto.
  - now apply rect_isEliminated_iff.
Qed.

Lemma isEliminated_isOutOfBounds (a : Arena.t) (x y radius : R) :
  0 < radius ->
  Arena.isEliminated x y radius a = true -> Arena.isOutOfBounds x y radius a = true.
Proof.
  intros Hr. unfold Arena.isEliminated, Arena.isOutOfBounds,
    Arena.isEliminatedCentrifuge, Arena.isOutOfCentrifuge.
  destruct (Arena.centrifugeMode a); cbn [negb].
  - rewrite !gtb_true. lra.
  - rewrite !orb_true_iff, !ltb_true, !gtb_true. lra.
Qed.

Lemma past_one_complete (a : Arena.t) (x y radius : R) :
  Geometry.past_one_boundary a x y radius -> Geometry.completely_outside a x y radius.
Proof.
  intros (b & Hb & Hall) p Hp. exists b. split; [exact Hb | now apply Hall].
Qed.

(** With the circle as the only boundary, completely outside is past the
    circle. *)
Lemma circ_complete_past (a : Arena.t) (x y radius : R) :
  Arena.centrifugeMode a = true ->
  Geometry.completely_outside a x y radius -> Geometry.past_one_boundary a x y radius.
Proof.
  intros Hm Hall. exists Geometry.Circle. unfold Geometry.boundaries. rewrite Hm.
  split; [now left|]. intros p Hp.
  destruct (Hall p Hp) as (b & Hb & Hpast).
  unfold Geometry.boundaries in Hb. rewrite Hm in Hb.
  destruct Hb as [<-|[]]. exact Hpast.
Qed.

(** C2 (amended).  For every arena, position and actor radius [r > 0], in
    rectangular and in centrifuge mode alike: when the actor's bounding
    circle is partially but not completely outside the boundary,
    [isOutOfBounds] is true and [isEliminated] is false; [isEliminated]
    implies [isOutOfBounds].  [isOutOfBounds] is true exactly when the
    circle is partially outside, [isEliminated] exactly when the whole
    circle is past one single boundary (an edge line, or the circle of
    radius not negative); so the two predicates disagree exactly where the
    circle is partially outside without being wholly past one boundary.  In
    centrifuge mode, where the circle is the only boundary, that is the
    partial-overlap band; in rectangular mode it is more than the band
    ([outside_near_a_corner]). *)
Theorem elimination_is_strict (a : Arena.t) (x y radius : R) :
  0 < radius ->
  (Geometry.overlaps_boundary a x y radius ->
     Arena.isOutOfBounds x y radius a = true /\
     Arena.isEliminated x y radius a = false) /\
  (Arena.isEliminated x y radius a = true ->
     Arena.isOutOfBounds x y radius a = true) /\
  (Arena.isOutOfBounds x y radius a = true <-> Geometry.partially_outside a x y radius) /\
  (Geometry.circle_ok a ->
     (Arena.isEliminated x y radius a = true <->
      Geometry.past_one_boundary a x y radius)) /\
  (Geometry.circle_ok a ->
     (Arena.isOutOfBounds x y radius a <> Arena.isEliminated x y radius a <->
      Geometry.partially_outside a x y radius /\
      ~ Geometry.past_one_boundary a x y radius)) /\
  (Arena.centrifugeMode a = true -> Geometry.circle_ok a ->
     Arena.isOutOfBounds x y radius a <> Arena.isEliminated x y radius a ->
     Geometry.overlaps_boundary a x y radius).
Proof.
  intros Hr. assert (Hr' : 0 <= radius) by lra.
  assert (Hdiff : Geometry.circle_ok a ->
            Arena.isOutOfBounds x y radius a <> Arena.isEliminated x y radius a ->
            Geometry.partially_outside a x y radius /\
            ~ Geometry.past_one_boundary a x y radius).
  { intros Hc Hne.
    destruct (Arena.isOutOfBounds x y radius a) eqn:Ho,
             (Arena.isEliminated x y radius a) eqn:He; try congruence.
    - split.
      + now apply isOutOfBounds_iff.
      + intros Hpast. apply past_isEliminated in Hpast; auto. congruence.
    - apply isEliminated_isOutOfBounds in He; auto. congruence. }
  split; [|split; [|split; [|split; [|split]]]].
  - intros [Hpart Hnot]. split.
    + now apply isOutOfBounds_iff.
    + destruct (Arena.isEliminated x y radius a) eqn:He; [|reflexivity].
      exfalso. apply Hnot. apply past_one_complete. now apply isEliminated_past.
  - now apply isEliminated_isOutOfBounds.
  - now apply isOutOfBounds_iff.
  - intros Hc. split; [now apply isEliminated_past | now apply past_isEliminated].
  - intros Hc. split; [now apply Hdiff|].
    intros [Hpart Hnot].
    apply isOutOfBounds_iff in Hpart; auto. rewrite Hpart.
    destruct (Arena.isEliminated x y radius a) eqn:He; [|discriminate].
    exfalso. apply Hnot. now apply isEliminated_past.
  - intros Hm Hc Hne. destruct (Hdiff Hc Hne) as [Hpart Hnot].
    split; [exact Hpart|]. intros Hall. apply Hnot. now apply circ_complete_past.
Qed.

Lemma elimination_is_strict_witness :
  let arena := Arena.new 1000 700 in
  0 < 25 /\
  Geometry.overlaps_boundary arena 60 350 25 /\
  Arena.isOutOfBounds 60 350 25 arena = true /\
  Arena.isEliminated 60 350 25 arena = false.
Proof.
  intros arena.
  assert (Hr : 0 < 25) by lra.
  assert (Hband : Geometry.overlaps_boundary arena 60 350 25).
  { split.
    - (* the westernmost point of the actor is past the left edge *)
      exists Geometry.LeftEdge. split; [now left|].
      exists (Vector2.mk 35 350). split.
      + unfold Geometry.in_disc, Vector2.distanceTo. cbn.
        replace ((35 - 60) * (35 - 60) + (350 - 350) * (350 - 350))
          with (25 * 25 + 0 * 0) by ring.
        rewrite norm_axis_x by lra. lra.
      + cbn. unfold CONFIG.ARENA.PADDING. lra.
    - (* its center is inside *)
      intros Hall.
      assert (Hc : Geometry.in_disc 60 350 25 (Vector2.mk 60 350)).
      { unfold Geometry.in_disc, Vector2.distanceTo. cbn.
        replace ((60 - 60) * (60 - 60) + (350 - 350) * (350 - 350))
          with (0 * 0 + 0 * 0) by ring.
        rewrite norm_axis_x by lra. lra. }
      destruct (Hall _ Hc) as (b & Hb & Hpast).
      cbn in Hb. destruct Hb as [<-|[<-|[<-|[<-|[]]]]]; cbn in Hpast;
        unfold CONFIG.ARENA.PADDING in Hpast; lra. }
  split; [exact Hr|]. split; [exact Hband|].
  exact (proj1 (elimination_is_strict arena 60 350 25 Hr) Hband).
Defined.

(** ** Sudden death *)

Lemma setAliveCount_suddenDeathActive (a : Arena.t) (count : nat) :
  Arena.suddenDeathActive (Arena.setAliveCount count a)
  = Arena.suddenDeathActive a
    || ((INR count <=? 2) && (Arena.roundTime a >=? Arena.suddenDeathStartTime a)).
Proof.
  unfold Arena.setAliveCount.
  destruct (INR count <=? 2), (Arena.roundTime a >=? Arena.suddenDeathStartTime a),
    (Arena.suddenDeathActive a) eqn:E; cbn; try rewrite E; reflexivity.
Qed.

Lemma update_suddenDeathActive (dt : R) (playing : bool) (a : Arena.t) :
  Arena.suddenDeathActive (Arena.update dt playing a) = Arena.suddenDeathActive a.
Proof.
  unfold Arena.update.
  repeat match goal with
         | |- context [if ?c then _ else _] => destruct c
         end; reflexivity.
Qed.

Lemma apply_suddenDeathActive (op : ArenaTrace.Op) (a : Arena.t) :
  ArenaTrace.in_round op = true ->
  (forall n, op <> ArenaTrace.SetAliveCount n) ->
  Arena.suddenDeathActive (ArenaTrace.apply op a) = Arena.suddenDeathActive a.
Proof.
  intros Hin Hnot. destruct op; cbn in *; try reflexivity; try discriminate.
  - apply update_suddenDeathActive.
  - now elim (Hnot count).
Qed.

Lemma apply_keeps_suddenDeath (op : ArenaTrace.Op) (a : Arena.t) :
  ArenaTrace.in_round op = true ->
  Arena.suddenDeathActive a = true ->
  Arena.suddenDeathActive (ArenaTrace.apply op a) = true.
Proof.
  intros Hin Ha. destruct op; cbn in *; try assumption; try discriminate.
  - now rewrite update_suddenDeathActive.
  - now rewrite setAliveCount_suddenDeathActive, Ha.
Qed.

Lemma run_keeps_suddenDeath (ops : list ArenaTrace.Op) :
  forall a : Arena.t,
    forallb ArenaTrace.in_round ops = true ->
    Arena.suddenDeathActive a = true ->
    Arena.suddenDeathActive (ArenaTrace.run ops a) = true.
Proof.
  induction ops as [|op ops IH]; intros a Hin Ha; cbn in *.
  - exact Ha.
  - apply andb_true_iff in Hin as [Hop Hops].
    apply IH; [exact Hops|]. now apply apply_keeps_suddenDeath.
Qed.

(** C4.  [suddenDeathActive] becomes true exactly when [setAliveCount] is
    given a count of at most 2 while [roundTime >= suddenDeathStartTime];
    no other in-round call changes it; once true it stays true through every
    sequence of in-round calls, whatever counts are reported; [reset] clears
    it. *)
Theorem sudden_death_latch :
  (forall (a : Arena.t) (count : nat),
     Arena.suddenDeathActive (Arena.setAliveCount count a)
     = Arena.suddenDeathActive a
       || ((INR count <=? 2) && (Arena.roundTime a >=? Arena.suddenDeathStartTime a))) /\
  (forall (op : ArenaTrace.Op) (a : Arena.t),
     ArenaTrace.in_round op = true ->
     (forall n, op <> ArenaTrace.SetAliveCount n) ->
     Arena.suddenDeathActive (ArenaTrace.apply op a) = Arena.suddenDeathActive a) /\
  (forall (ops : list ArenaTrace.Op) (a : Arena.t),
     forallb ArenaTrace.in_round ops = true ->
     Arena.suddenDeathActive a = true ->
     Arena.suddenDeathActive (ArenaTrace.run ops a) = true) /\
  (forall a : Arena.t, Arena.suddenDeathActive (Arena.reset a) = false).
Proof.
  split; [|split; [|split]].
  - exact setAliveCount_suddenDeathActive.
  - exact apply_suddenDeathActive.
  - exact run_keeps_suddenDeath.
  - reflexivity.
Qed.

(** ** Shrink floor *)

Section ShrinkFloor.

Import ArenaTrace.

Lemma new_floor_inv (canvasWidth canvasHeight : R) :
  2 * CONFIG.ARENA.PADDING <= canvasWidth ->
  2 * CONFIG.ARENA.PADDING <= canvasHeight ->
  floor_inv (Arena.new canvasWidth canvasHeight).
Proof.
  unfold floor_inv, shrink_wf, above_floor. cbn.
  unfold CONFIG.ARENA.PADDING. intros Hw Hh.
  repeat split; lra.
Qed.

Lemma applyScale_floor_inv (a : Arena.t) :
  shrink_wf a -> floor_inv (Arena.applyScale a).
Proof.
  unfold floor_inv, shrink_wf, above_floor. cbn. intros (Hw & Hh & Hm & Hs).
  pose proof (Rmult_le_pos _ _ Hs Hw). pose proof (Rmult_le_pos _ _ Hs Hh).
  repeat split; try lra; nra.
Qed.

Lemma floor_arith (m s w pr : R) :
  0 <= m <= 1 -> 0 <= s * w -> pr <= 1 ->
  m * s * w <= w * ((1 - (1 - m) * pr) * s).
Proof.
  intros Hm Hk Hpr.
  assert (Hq : 0 <= (1 - m) * (1 - pr)) by nra.
  pose proof (Rmult_le_pos _ _ Hk Hq) as Hkq. nra.
Qed.

Lemma update_geometry (dt : R) (playing : bool) (a : Arena.t) :
  let a' := Arena.update dt playing a in
  let origWidth := Arena.right (Arena.originalBounds a) - Arena.left (Arena.originalBounds a) in
  let origHeight := Arena.bottom (Arena.originalBounds a) - Arena.top (Arena.originalBounds a) in
  Arena.originalBounds a' = Arena.originalBounds a /\
  Arena.minSizePercent a' = Arena.minSizePercent a /\
  Arena.arenaScale a' = Arena.arenaScale a /\
  ((Arena.bounds a' = Arena.bounds a /\
    Arena.width a' = Arena.width a /\ Arena.height a' = Arena.height a) \/
   (exists progress, progress <= 1 /\
      Arena.width a'
      = origWidth * ((1 - (1 - Arena.minSizePercent a) * progress) * Arena.arenaScale a) /\
      Arena.height a'
      = origHeight * ((1 - (1 - Arena.minSizePercent a) * progress) * Arena.arenaScale a) /\
      Arena.right (Arena.bounds a') - Arena.left (Arena.bounds a') = Arena.width a' /\
      Arena.bottom (Arena.bounds a') - Arena.top (Arena.bounds a') = Arena.height a')).
Proof.
  cbn zeta. unfold Arena.update.
  set (a1 := Arena.set_animation _ _ _ _ a).
  set (a2 := if Arena.centrifugeMode a1 && playing then _ else a1).
  assert (H2 : Arena.originalBounds a2 = Arena.originalBounds a /\
               Arena.minSizePercent a2 = Arena.minSizePercent a /\
               Arena.arenaScale a2 = Arena.arenaScale a /\
               Arena.bounds a2 = Arena.bounds a /\
               Arena.width a2 = Arena.width a /\ Arena.height a2 = Arena.height a).
  { subst a2 a1. destruct (_ && _); cbn; auto 10. }
  clearbody a2. clear a1. destruct H2 as (Ho & Hm & Hs & Hb & Hw & Hh).
  destruct playing; [|auto 10].
  set (a3 := Arena.set_roundTime _ a2).
  destruct (Arena.roundTime a3 >=? Arena.shrinkStartTime a3).
  - cbn [Arena.originalBounds Arena.minSizePercent Arena.arenaScale Arena.bounds
         Arena.width Arena.height Arena.set_geometry Arena.set_isShrinking
         Arena.set_roundTime Arena.left Arena.right Arena.top Arena.bottom a3].
    rewrite Ho, Hm, Hs. repeat split.
    right. eexists. split; [apply Rmin_l|]. repeat split; lra.
  - subst a3. cbn. auto 10.
Qed.

Lemma update_floor_inv (dt : R) (playing : bool) (a : Arena.t) :
  floor_inv a -> floor_inv (Arena.update dt playing a).
Proof.
  unfold floor_inv, shrink_wf, above_floor.
  intros ((Hw & Hh & Hm & Hs) & Hf).
  pose proof (Rmult_le_pos _ _ Hs Hw). pose proof (Rmult_le_pos _ _ Hs Hh).
  destruct (update_geometry dt playing a) as (-> & -> & -> & Hgeo). cbn zeta in Hgeo.
  destruct Hgeo as [(-> & -> & ->) | (pr & Hpr & -> & -> & Hbw & Hbh)].
  - tauto.
  - repeat split; try lra; try assumption; apply floor_arith; assumption.
Qed.

Lemma apply_floor_inv (op : Op) (a : Arena.t) :
  scale_nonneg op -> floor_inv a -> floor_inv (apply op a).
Proof.
  intros Hop Ha. destruct op; cbn in *.
  - now apply update_floor_inv.
  - unfold Arena.setAliveCount.
    destruct (_ && _); [|exact Ha]. exact Ha.
  - apply applyScale_floor_inv. destruct Ha as [(Hw & Hh & Hm & _) _].
    unfold shrink_wf. cbn. unfold scale_nonneg in Hop. cbn in Hop. tauto.
  - exact Ha.
  - exact Ha.
  - exact Ha.
  - destruct Ha as [(Hw & Hh & Hm & Hs) _].
    unfold floor_inv, shrink_wf, above_floor. cbn. repeat split; try lra; nra.
Qed.

Lemma run_floor_inv (ops : list Op) :
  forall a : Arena.t,
    Forall scale_nonneg ops -> floor_inv a -> floor_inv (run ops a).
Proof.
  induction ops as [|op ops IH]; intros a Hops Ha; cbn.
  - exact Ha.
  - inversion Hops; subst. apply IH; [assumption|]. now apply apply_floor_inv.
Qed.

End ShrinkFloor.

(** ** Player: friction *)

Lemma clampedFriction_stated (frictionMultiplier : R) (p : Player.t) :
  Player.clampedFriction frictionMultiplier p = Stated.friction frictionMultiplier p.
Proof.
  unfold Player.clampedFriction, Stated.friction, Stated.clamp, Stated.baseFriction.
  set (f := (if Player.isDashing p then 0.98 else CONFIG.PLAYER.FRICTION) * frictionMultiplier).
  unfold Rmin, Rmax, JS.gtb, JS.ltb.
  repeat destruct Rle_dec; repeat destruct Rlt_dec; lra.
Qed.

Lemma stated_friction_range (frictionMultiplier : R) (p : Player.t) :
  0.85 <= Stated.friction frictionMultiplier p <= 0.995.
Proof.
  unfold Stated.friction, Stated.clamp, JS.gtb, JS.ltb.
  repeat destruct Rlt_dec; lra.
Qed.

Lemma updateVisualEffects_motion (dt : R) (arena : option Arena.t) (p : Player.t) :
  Player.velocity (Player.updateVisualEffects dt arena p) = Player.velocity p /\
  Player.position (Player.updateVisualEffects dt arena p) = Player.position p.
Proof.
  unfold Player.updateVisualEffects.
  destruct arena as [ar|];
    repeat match goal with
           | |- context [if ?c then _ else _] => destruct c
           end; cbn; split; reflexivity.
Qed.

(** C7.  For every friction multiplier and every living actor,
    [Player.update] multiplies the velocity by
    [clamp(baseFriction * frictionMultiplier, 0.85, 0.995)] (then limits the
    speed and integrates the position), with [baseFriction] the dash constant
    while dashing and the configured friction otherwise; the factor lies in
    [0.85, 0.995]. *)
Theorem friction_clamped (deltaTime : R) (arena : option Arena.t)
    (frictionMultiplier : R) (p : Player.t) :
  Player.isAlive p = true ->
  let factor := Stated.friction frictionMultiplier p in
  let v := Vector2.limit (Vector2.multiply (Player.velocity p) factor) (Player.maxSpeed p) in
  0.85 <= factor <= 0.995 /\
  Player.velocity (Player.update deltaTime arena frictionMultiplier p) = v /\
  Player.position (Player.update deltaTime arena frictionMultiplier p)
  = Vector2.add (Player.position p) v.
Proof.
  intros Halive factor v. split; [apply stated_friction_range|].
  subst v factor. rewrite <- clampedFriction_stated.
  unfold Player.update. rewrite Halive. cbn [negb].
  match goal with
  | |- context [Player.updateVisualEffects ?d ?a ?q] =>
      destruct (updateVisualEffects_motion d a q) as [-> ->]
  end.
  unfold Player.clampedFriction, Player.maxSpeed.
  repeat match goal with
         | |- context [if ?c then _ else _] =>
             lazymatch c with
             | Player.isDashing _ => fail
             | _ => destruct c
             end
         end; cbn; split; reflexivity.
Qed.

Lemma friction_clamped_witness :
  let p := Player.new 0 130 350 0 in
  0.85 <= Stated.friction (-1000) p <= 0.995 /\
  Player.velocity (Player.update (1000 / 60) None (-1000) p)
  = Vector2.limit (Vector2.multiply (Player.velocity p) (Stated.friction (-1000) p))
      (Player.maxSpeed p) /\
  Player.position (Player.update (1000 / 60) None (-1000) p)
  = Vector2.add (Player.position p)
      (Vector2.limit (Vector2.multiply (Player.velocity p) (Stated.friction (-1000) p))
         (Player.maxSpeed p)).
Proof.
  intros p. apply (friction_clamped (1000 / 60) None (-1000) p). reflexivity.
Defined.

(** ** Player: dash requests during the cooldown *)

(** [startDash] has no guard of its own: called on an actor whose cooldown
    is still running it starts the dash all the same. *)
Lemma startDash_during_cooldown :
  let p := Player.set_dashCooldown 1000 (Player.new 0 130 350 0) in
  let p' := Player.startDash (Vector2.mk 1 0) 1 p in
  Player.dashCooldown p > 0 /\
  p' <> p /\
  Player.isDashing p = false /\
  Player.isDashing p' = true /\
  Player.dashTimeRemaining p' = CONFIG.DASH.DURATION /\
  Player.dashCooldown p' = CONFIG.DASH.COOLDOWN.
Proof.
  cbn zeta. repeat split; try reflexivity.
  - cbn. lra.
  - intros H. apply (f_equal Player.isDashing) in H. discriminate H.
Qed.

Lemma tickTimers_dashCooldown (deltaTime : R) (p : Player.t) :
  Player.dashCooldown p > 0 ->
  Player.dashCooldown (Dash.tickTimers deltaTime p) = Player.dashCooldown p - deltaTime.
Proof.
  intros H. unfold Dash.tickTimers. apply gtb_true in H. rewrite H.
  repeat match goal with
         | |- context [if ?c then _ else _] => destruct c
         end; reflexivity.
Qed.

Lemma canDash_cooldown (p : Player.t) :
  Player.dashCooldown p > 0 -> Player.canDash p = false.
Proof.
  intros H. unfold Player.canDash.
  assert (E : (Player.dashCooldown p <=? 0) = false) by (apply leb_false; lra).
  rewrite E. apply andb_false_r.
Qed.

Lemma handleInput_alive (input : Player.Input) (deltaTime speedMultiplier : R)
    (p : Player.t) :
  Player.isAlive p = true ->
  Player.handleInput input deltaTime speedMultiplier p
  = let q := Dash.tickTimers deltaTime p in
    if Player.dash input && Player.canDash q
       && (Vector2.magnitude (Player.movement input) >? 0)
    then (Player.startDash (Player.movement input) speedMultiplier q,
          Player.mkDashResult true (Some (Player.movement input)))
    else
      (if negb (Player.isDashing q) && (Vector2.magnitude (Player.movement input) >? 0)
       then
         Player.set_lastMoveDirection (Vector2.normalize (Player.movement input))
           (Player.set_velocity
              (Vector2.add (Player.velocity q)
                 (Vector2.multiply (Player.movement input)
                    (CONFIG.PLAYER.ACCELERATION * speedMultiplier))) q)
       else q,
       Player.mkDashResult false None).
Proof.
  intros Halive. unfold Player.handleInput, Dash.tickTimers. rewrite Halive. reflexivity.
Qed.

(** C6 (amended).  A dash requested through [handleInput] while the actor's
    cooldown is running, and still running after this tick's decrement, is
    not started: the call reports [dashStarted = false], never reaches
    [startDash], and leaves the actor exactly as the same call without the
    dash request does (the timers still tick and movement still
    accelerates). *)
Theorem dash_request_during_cooldown (input : Player.Input)
    (deltaTime speedMultiplier : R) (p : Player.t) :
  Player.dashCooldown p > 0 ->
  Player.dashCooldown p - deltaTime > 0 ->
  let r := Player.handleInput input deltaTime speedMultiplier p in
  Player.dashStarted (snd r) = false /\
  Player.direction (snd r) = None /\
  fst r = fst (Player.handleInput (Player.mkInput (Player.movement input) false)
                 deltaTime speedMultiplier p) /\
  (Player.isAlive p = true ->
     Player.dashCooldown (fst r) = Player.dashCooldown p - deltaTime /\
     Player.isDashing (fst r) = Player.isDashing (Dash.tickTimers deltaTime p) /\
     Player.dashTimeRemaining (fst r) = Player.dashTimeRemaining (Dash.tickTimers deltaTime p)).
Proof.
  intros Hcd Hleft r. subst r.
  destruct (Player.isAlive p) eqn:Halive.
  2: { unfold Player.handleInput. rewrite Halive. cbn.
       repeat split; try reflexivity; discriminate. }
  rewrite !handleInput_alive by exact Halive. cbn zeta.
  pose proof (tickTimers_dashCooldown deltaTime p Hcd) as Hcool.
  assert (Hcan : Player.canDash (Dash.tickTimers deltaTime p) = false).
  { apply canDash_cooldown. rewrite Hcool. exact Hleft. }
  rewrite Hcan, andb_false_r. cbn [andb Player.dash Player.movement fst snd].
  repeat split; try reflexivity.
  all: destruct (negb (Player.isDashing (Dash.tickTimers deltaTime p))
                 && (Vector2.magnitude (Player.movement input) >? 0)); cbn; try assumption;
    reflexivity.
Qed.

Lemma dash_request_during_cooldown_witness :
  let p := Player.set_dashCooldown 1000 (Player.new 0 130 350 0) in
  let r := Player.handleInput (Player.mkInput (Vector2.mk 1 0) true) (1000 / 60) 1 p in
  Player.dashStarted (snd r) = false /\
  Player.direction (snd r) = None /\
  fst r = fst (Player.handleInput (Player.mkInput (Vector2.mk 1 0) false) (1000 / 60) 1 p) /\
  (Player.isAlive p = true ->
     Player.dashCooldown (fst r) = Player.dashCooldown p - 1000 / 60 /\
     Player.isDashing (fst r) = Player.isDashing (Dash.tickTimers (1000 / 60) p) /\
     Player.dashTimeRemaining (fst r) = Player.dashTimeRemaining (Dash.tickTimers (1000 / 60) p)).
Proof.
  intros p.
  apply (dash_request_during_cooldown (Player.mkInput (Vector2.mk 1 0) true) (1000 / 60) 1 p).
  - cbn. lra.
  - cbn. lra.
Defined.

(** ** The players array *)

Lemma get_set_same (i : nat) (p : Player.t) (players : list Player.t) :
  (i < List.length players)%nat -> Players.get i (Players.set i p players) = Some p.
Proof.
  unfold Players.get. revert i. induction players as [|q rest IH]; intros [|i] H; cbn in *;
    try lia; [reflexivity|]. apply IH. lia.
Qed.

Lemma get_set_other (i j : nat) (p : Player.t) (players : list Player.t) :
  i <> j -> Players.get j (Players.set i p players) = Players.get j players.
Proof.
  unfold Players.get. revert i j.
  induction players as [|q rest IH]; intros [|i] [|j] H; cbn; try reflexivity; try lia.
  apply IH. lia.
Qed.

Lemma set_length (i : nat) (p : Player.t) (players : list Player.t) :
  List.length (Players.set i p players) = List.length players.
Proof.
  revert i. induction players as [|q rest IH]; intros [|i]; cbn; try reflexivity.
  now rewrite IH.
Qed.

Lemma get_modify (i j : nat) (f : Player.t -> Player.t) (players : list Player.t) :
  Players.get j (Players.modify i f players)
  = if Nat.eqb j i then option_map f (Players.get j players) else Players.get j players.
Proof.
  unfold Players.modify. destruct (Nat.eqb_spec j i) as [->|Hne].
  - destruct (Players.get i players) as [p|] eqn:E; cbn.
    + apply get_set_same. apply nth_error_Some. unfold Players.get in E. congruence.
    + exact E.
  - destruct (Players.get i players) as [p|] eqn:E; [|reflexivity].
    apply get_set_other. congruence.
Qed.

Lemma modify_length (i : nat) (f : Player.t -> Player.t) (players : list Player.t) :
  List.length (Players.modify i f players) = List.length players.
Proof.
  unfold Players.modify. destruct (Players.get i players); [apply set_length | reflexivity].
Qed.

Lemma alive_In (players : list Player.t) (i : nat) :
  In i (Players.alive players) <->
  exists p, Players.get i players = Some p /\ Player.isAlive p = true.
Proof.
  unfold Players.alive. rewrite filter_In, in_seq. split.
  - intros [_ H]. destruct (Players.get i players) as [p|]; [|discriminate].
    exists p. auto.
  - intros (p & Hp & Ha). rewrite Hp. split; [|exact Ha].
    assert (i < List.length players)%nat.
    { apply nth_error_Some. unfold Players.get in Hp. congruence. }
    lia.
Qed.

Lemma alive_nil (players : list Player.t) :
  Forall (fun p => Player.isAlive p = false) players -> Players.alive players = [].
Proof.
  intros Hall. destruct (Players.alive players) as [|i rest] eqn:E; [reflexivity|].
  assert (Hin : In i (Players.alive players)) by (rewrite E; now left).
  apply alive_In in Hin as (p & Hp & Ha).
  rewrite Forall_forall in Hall. unfold Players.get in Hp.
  apply nth_error_In in Hp. apply Hall in Hp. congruence.
Qed.

Lemma filter_seq_sorted (f : nat -> bool) (n start : nat) :
  forall l1 w l2, filter f (seq start n) = l1 ++ w :: l2 ->
    (forall j, In j l1 -> (j < w)%nat) /\ (forall j, In j l2 -> (w < j)%nat).
Proof.
  revert start. induction n as [|n IH]; intros start l1 w l2 H; cbn in H.
  - destruct l1; discriminate.
  - destruct (f start) eqn:Ef.
    + destruct l1 as [|a l1]; cbn in H; injection H as H1 H2.
      * subst w. split; [intros j []|].
        intros j Hj. rewrite <- H2 in Hj. apply filter_In in Hj as [Hj _].
        apply in_seq in Hj. lia.
      * subst a. destruct (IH _ _ _ _ H2) as [HA HB]. split; [|exact HB].
        intros j [<-|Hj]; [|now apply HA].
        assert (Hw : In w (filter f (seq (S start) n))).
        { rewrite H2. apply in_or_app. right. now left. }
        apply filter_In in Hw as [Hw _]. apply in_seq in Hw. lia.
    + destruct (IH (S start) _ _ _ H) as [HA HB]. split; assumption.
Qed.

(** ** Round manager: the round-end check *)

(** C3.  When the round-end check runs while no player is alive, the round
    ends in a draw: the state becomes [roundEnd], [roundWinner] is null, the
    round-end callback fires with no winner and reason [knockout], and no
    player is touched, so no wins counter moves. *)
Theorem simultaneous_knockout_is_draw (players : list Player.t) (m : RoundManager.t) :
  Forall (fun p => Player.isAlive p = false) players ->
  let '(m', players', events) := RoundManager.checkRoundEnd players m in
  RoundManager.state m' = RoundManager.roundEnd /\
  RoundManager.roundWinner m' = None /\
  events = [RoundManager.RoundEnd None (RoundManager.currentRound m) RoundManager.knockout] /\
  players' = players /\
  map Player.wins players' = map Player.wins players.
Proof.
  intros Hdead. unfold RoundManager.checkRoundEnd.
  rewrite (alive_nil players Hdead). cbn. repeat split; reflexivity.
Qed.

Lemma simultaneous_knockout_is_draw_witness :
  let dead := Player.eliminate 1000 (Player.new 0 130 350 0) in
  let '(m', players', events) :=
    RoundManager.checkRoundEnd [dead; dead]
      (RoundManager.set_state RoundManager.playing RoundManager.new) in
  RoundManager.state m' = RoundManager.roundEnd /\
  RoundManager.roundWinner m' = None /\
  events = [RoundManager.RoundEnd None 0 RoundManager.knockout] /\
  players' = [dead; dead] /\
  map Player.wins players' = map Player.wins [dead; dead].
Proof.
  intros dead.
  apply (simultaneous_knockout_is_draw [dead; dead]
           (RoundManager.set_state RoundManager.playing RoundManager.new)).
  repeat constructor.
Defined.

(** ** Round manager: the forced round end *)

Lemma closerStep_seen (players : list Player.t) (c i : nat) (d : R) :
  Players.get i players <> None ->
  RoundManager.closerStep players (Some c, Some d) i
  = if Roster.distAt players i <? d then (Some i, Some (Roster.distAt players i))
    else (Some c, Some d).
Proof.
  intros H. unfold RoundManager.closerStep, Roster.distAt.
  destruct (Players.get i players); [reflexivity | congruence].
Qed.

Lemma closerStep_first (players : list Player.t) (i : nat) :
  Players.get i players <> None ->
  RoundManager.closerStep players (None, None) i = (Some i, Some (Roster.distAt players i)).
Proof.
  intros H. unfold RoundManager.closerStep, Roster.distAt.
  destruct (Players.get i players); [reflexivity | congruence].
Qed.

Lemma fold_closer (players : list Player.t) (l : list nat) :
  forall c : nat,
    (forall i, In i l -> Players.get i players <> None) ->
    let r := fold_left (RoundManager.closerStep players) l
               (Some c, Some (Roster.distAt players c)) in
    (r = (Some c, Some (Roster.distAt players c)) /\
     forall j, In j l -> Roster.distAt players c <= Roster.distAt players j) \/
    (exists l1 w l2,
        l = l1 ++ w :: l2 /\
        r = (Some w, Some (Roster.distAt players w)) /\
        Roster.distAt players w < Roster.distAt players c /\
        (forall j, In j l1 -> Roster.distAt players w < Roster.distAt players j) /\
        (forall j, In j l2 -> Roster.distAt players w <= Roster.distAt players j)).
Proof.
  induction l as [|i l IH]; intros c Hget; cbn zeta.
  - left. split; [reflexivity|]. intros j [].
  - assert (Hl : forall k, In k l -> Players.get k players <> None).
    { intros k Hk. apply Hget. now right. }
    cbn [fold_left]. rewrite closerStep_seen by (apply Hget; now left).
    destruct (Roster.distAt players i <? Roster.distAt players c) eqn:Hlt.
    + apply ltb_true in Hlt.
      destruct (IH i Hl) as [[Hr Hmin] | (l1 & w & l2 & Heq & Hr & Hw & H1 & H2)].
      * right. exists [], i, l. repeat split; auto. intros j [].
      * right. exists (i :: l1), w, l2. subst l. repeat split; auto; try lra.
        intros j [<-|Hj]; auto.
    + apply ltb_false in Hlt.
      destruct (IH c Hl) as [[Hr Hmin] | (l1 & w & l2 & Heq & Hr & Hw & H1 & H2)].
      * left. split; [exact Hr|]. intros j [<-|Hj]; auto.
      * right. exists (i :: l1), w, l2. subst l. repeat split; auto.
        intros j [<-|Hj]; auto. lra.
Qed.

Lemma closest_spec (players : list Player.t) (l : list nat) :
  l <> [] ->
  (forall i, In i l -> Players.get i players <> None) ->
  exists l1 w l2,
    l = l1 ++ w :: l2 /\
    RoundManager.closest players l = Some w /\
    (forall j, In j l1 -> Roster.distAt players w < Roster.distAt players j) /\
    (forall j, In j l2 -> Roster.distAt players w <= Roster.distAt players j).
Proof.
  intros Hne Hget. destruct l as [|i l]; [congruence|].
  unfold RoundManager.closest. cbn [fold_left].
  rewrite closerStep_first by (apply Hget; now left).
  assert (Hl : forall k, In k l -> Players.get k players <> None).
  { intros k Hk. apply Hget. now right. }
  destruct (fold_closer players l i Hl)
    as [[Hr Hmin] | (l1 & w & l2 & Heq & Hr & Hw & H1 & H2)]; rewrite Hr; cbn [fst].
  - exists [], i, l. repeat split; auto. intros j [].
  - exists (i :: l1), w, l2. subst l. repeat split; auto.
    intros j [<-|Hj]; auto.
Qed.

Lemma eliminateOthers_get (now : R) (w : nat) (l : list nat) :
  forall (players : list Player.t) (i : nat),
    Players.get i (RoundManager.eliminateOthers now (Some w) l players)
    = option_map
        (fun p => if existsb (Nat.eqb i) l && negb (Nat.eqb i w)
                  then Player.eliminate now p else p)
        (Players.get i players).
Proof.
  unfold RoundManager.eliminateOthers.
  induction l as [|k l IH]; intros players i; cbn [fold_left existsb].
  - cbn. now destruct (Players.get i players).
  - rewrite IH. destruct (Nat.eqb_spec k w) as [->|Hkw].
    + destruct (Nat.eqb_spec i w) as [->|Hiw]; cbn [orb negb].
      * rewrite !andb_false_r. reflexivity.
      * reflexivity.
    + rewrite get_modify. destruct (Nat.eqb_spec i k) as [->|Hik]; cbn [orb].
      * destruct (Nat.eqb_spec k w) as [|_]; [contradiction|]. cbn [negb andb].
        rewrite andb_true_r.
        destruct (Players.get k players) as [p|]; cbn; [|reflexivity].
        now destruct (existsb (Nat.eqb k) l).
      * reflexivity.
Qed.

Lemma eliminateOthers_length (now : R) (c : option nat) (l : list nat) :
  forall players : list Player.t,
    List.length (RoundManager.eliminateOthers now c l players) = List.length players.
Proof.
  unfold RoundManager.eliminateOthers.
  induction l as [|k l IH]; intros players; cbn [fold_left]; [reflexivity|].
  rewrite IH. destruct c as [c|]; [destruct (Nat.eqb k c)|];
    try reflexivity; apply modify_length.
Qed.

Lemma existsb_eqb_In (i : nat) (l : list nat) :
  existsb (Nat.eqb i) l = true <-> In i l.
Proof.
  rewrite existsb_exists. split.
  - intros (x & Hx & E). apply Nat.eqb_eq in E. now subst.
  - intros H. exists i. split; [exact H | apply Nat.eqb_refl].
Qed.

(** What [forceRoundEnd] does with two or more living players. *)
Lemma forceRoundEnd_many (now : R) (players : list Player.t) (m : RoundManager.t) :
  (2 <= List.length (Players.alive players))%nat ->
  exists w pw,
    Players.get w players = Some pw /\ Player.isAlive pw = true /\
    (forall j pj, Players.get j players = Some pj -> Player.isAlive pj = true ->
       RoundManager.storedDistance pw <= RoundManager.storedDistance pj) /\
    (forall j pj, Players.get j players = Some pj -> Player.isAlive pj = true ->
       (j < w)%nat ->
       RoundManager.storedDistance pw < RoundManager.storedDistance pj) /\
    exists players',
      RoundManager.forceRoundEnd now players m
      = (RoundManager.set_roundEndTimer CONFIG.ROUNDS.ROUND_END_DELAY
           (RoundManager.set_state RoundManager.roundEnd
              (RoundManager.set_roundWinner (Some w) m)),
         players',
         [RoundManager.RoundEnd (Some w) (RoundManager.currentRound m) RoundManager.timeout]) /\
      List.length players' = List.length players /\
      forall i p, Players.get i players = Some p ->
        Players.get i players' = Some (Roster.afterForcedEnd now w i p).
Proof.
  intros Hlen.
  assert (Hget : forall i, In i (Players.alive players) -> Players.get i players <> None).
  { intros i Hi. apply alive_In in Hi as (p & Hp & _). congruence. }
  assert (Hne : Players.alive players <> []).
  { intros E. rewrite E in Hlen. cbn in Hlen. lia. }
  destruct (closest_spec players _ Hne Hget) as (l1 & w & l2 & Heq & Hc & H1 & H2).
  destruct (filter_seq_sorted _ _ _ _ _ _ Heq) as [Hbefore Hafter].
  assert (Hw : In w (Players.alive players)).
  { rewrite Heq. apply in_or_app. right. now left. }
  apply alive_In in Hw as (pw & Hpw & Hwa).
  assert (Hdw : Roster.distAt players w = RoundManager.storedDistance pw).
  { unfold Roster.distAt. now rewrite Hpw. }
  exists w, pw. split; [exact Hpw|]. split; [exact Hwa|].
  assert (Hcases : forall j pj, Players.get j players = Some pj -> Player.isAlive pj = true ->
            In j l1 \/ j = w \/ In j l2).
  { intros j pj Hj Hja.
    assert (Hin : In j (Players.alive players)) by (apply alive_In; eauto).
    rewrite Heq in Hin. apply in_app_or in Hin as [Hin|[Hin|Hin]]; auto. }
  assert (Hdj : forall j pj, Players.get j players = Some pj ->
            Roster.distAt players j = RoundManager.storedDistance pj).
  { intros j pj Hj. unfold Roster.distAt. now rewrite Hj. }
  split; [|split].
  - intros j pj Hj Hja. rewrite <- Hdw, <- (Hdj j pj Hj).
    destruct (Hcases j pj Hj Hja) as [Hin|[->|Hin]].
    + apply Rlt_le. now apply H1.
    + lra.
    + now apply H2.
  - intros j pj Hj Hja Hlt. rewrite <- Hdw, <- (Hdj j pj Hj).
    destruct (Hcases j pj Hj Hja) as [Hin|[->|Hin]].
    + now apply H1.
    + lia.
    + apply Hafter in Hin. lia.
  - unfold RoundManager.forceRoundEnd.
    destruct (Players.alive players) as [|a [|b rest]] eqn:Ealive;
      [cbn in Hlen; lia | cbn in Hlen; lia |].
    rewrite Hc. cbn zeta. cbn [RoundManager.roundWinner RoundManager.set_roundWinner].
    eexists. split; [reflexivity|]. split.
    + rewrite modify_length. apply eliminateOthers_length.
    + intros i p Hp. rewrite get_modify, eliminateOthers_get, Hp. cbn [option_map].
      unfold Roster.afterForcedEnd.
      destruct (Nat.eqb_spec i w) as [->|Hiw]; cbn [negb].
      * rewrite andb_false_r. reflexivity.
      * rewrite andb_true_r. f_equal.
        destruct (Player.isAlive p) eqn:Ha.
        -- assert (Hin : In i (Players.alive players)) by (apply alive_In; eauto).
           rewrite Ealive in Hin. apply existsb_eqb_In in Hin. now rewrite Hin.
        -- destruct (existsb (Nat.eqb i) (a :: b :: rest)) eqn:Hex; [|reflexivity].
           apply existsb_eqb_In in Hex. rewrite <- Ealive in Hex.
           apply alive_In in Hex as (q & Hq & Hqa). congruence.
Qed.

Lemma get_defined (i : nat) (players players' : list Player.t) (p' : Player.t) :
  List.length players' = List.length players ->
  Players.get i players' = Some p' ->
  exists p, Players.get i players = Some p.
Proof.
  unfold Players.get. intros Hlen Hp.
  assert (Hi : (i < List.length players)%nat).
  { rewrite <- Hlen. apply nth_error_Some. congruence. }
  apply nth_error_Some in Hi. destruct (nth_error players i) as [p|]; [eauto | congruence].
Qed.

Lemma afterForcedEnd_position (now : R) (w i : nat) (p : Player.t) :
  Player.position (Roster.afterForcedEnd now w i p) = Player.position p.
Proof.
  unfold Roster.afterForcedEnd. destruct (Nat.eqb i w), (Player.isAlive p); reflexivity.
Qed.

Lemma storedDistance_distanceOf (p : Player.t) :
  RoundManager.storedDistance p = Roster.distanceOf p.
Proof.
  unfold RoundManager.storedDistance, Roster.distanceOf, JS.or_default.
  destruct (Player.distanceFromCenter p) as [d|]; [|reflexivity].
  destruct (d =? 0) eqn:E; [|reflexivity].
  apply eqb_true in E. now subst.
Qed.

Lemma filter_eqb_seq (w a n : nat) :
  (a <= w < a + n)%nat -> filter (Nat.eqb w) (seq a n) = [w].
Proof.
  revert a. induction n as [|n IH]; intros a H; [lia|].
  cbn [seq filter]. destruct (Nat.eqb_spec w a) as [->|Hne].
  - f_equal. destruct (filter (Nat.eqb a) (seq (S a) n)) as [|x l] eqn:E; [reflexivity|].
    assert (Hin : In x (filter (Nat.eqb a) (seq (S a) n))) by (rewrite E; now left).
    apply filter_In in Hin as [Hin Hx]. apply in_seq in Hin.
    apply Nat.eqb_eq in Hx. lia.
  - apply IH. lia.
Qed.

Lemma alive_single (players : list Player.t) (w : nat) :
  (forall i p, Players.get i players = Some p ->
     Player.isAlive p = Nat.eqb w i) ->
  (w < List.length players)%nat ->
  Players.alive players = [w].
Proof.
  intros Hflags Hw. unfold Players.alive.
  rewrite <- (filter_eqb_seq w 0 (List.length players)) by lia.
  apply filter_ext_in. intros i Hi. apply in_seq in Hi.
  destruct (Players.get i players) as [p|] eqn:E.
  - now apply Hflags.
  - unfold Players.get in E. apply nth_error_None in E. lia.
Qed.

(** C10.  With two or more living players, [forceRoundEnd] keeps the living
    player whose [distanceFromCenter] field is smallest, the earliest in the
    players array among equals: that player stays alive and is awarded the
    win, every other living player is eliminated ([isAlive] false, velocity
    zero, elimination time set), dead players are left as they were, and the
    round ends with reason [timeout].  An unset [distanceFromCenter] counts
    as distance 0, so (distances not being negative) a living player whose
    field is unset or 0 is kept exactly when no earlier living player is at
    distance 0 too. *)
Theorem forced_end_keeps_closest (now : R) (players : list Player.t) (m : RoundManager.t) :
  (2 <= List.length (Players.alive players))%nat ->
  let '(m', players', events) := RoundManager.forceRoundEnd now players m in
  exists w pw,
    Players.get w players = Some pw /\ Player.isAlive pw = true /\
    RoundManager.roundWinner m' = Some w /\
    RoundManager.state m' = RoundManager.roundEnd /\
    events = [RoundManager.RoundEnd (Some w) (RoundManager.currentRound m)
                RoundManager.timeout] /\
    (* the smallest distanceFromCenter among the living, the earliest among equals *)
    (forall j pj, Players.get j players = Some pj -> Player.isAlive pj = true ->
       Roster.distanceOf pw <= Roster.distanceOf pj /\
       ((j < w)%nat -> Roster.distanceOf pw < Roster.distanceOf pj)) /\
    (* only the kept player is alive afterwards *)
    List.length players' = List.length players /\
    Players.alive players' = [w] /\
    (forall i p, Players.get i players = Some p ->
       exists p', Players.get i players' = Some p' /\
         Player.position p' = Player.position p /\
         if Nat.eqb i w then
           (* the kept player: alive, one more win *)
           Player.isAlive p' = true /\ Player.wins p' = S (Player.wins p) /\
           Player.velocity p' = Player.velocity p
         else if Player.isAlive p then
           (* another living player: eliminated *)
           Player.isAlive p' = false /\ Player.velocity p' = Vector2.zero /\
           Player.eliminationTime p' = Some now /\ Player.wins p' = Player.wins p
         else
           (* a dead player: untouched *)
           p' = p) /\
    (* an unset or zero distance is distance 0 *)
    ((forall j pj, Players.get j players = Some pj -> Player.isAlive pj = true ->
        0 <= Roster.distanceOf pj) ->
     forall z pz, Players.get z players = Some pz -> Player.isAlive pz = true ->
       Player.distanceFromCenter pz = None \/ Player.distanceFromCenter pz = Some 0 ->
       (w = z <->
        forall j pj, Players.get j players = Some pj -> Player.isAlive pj = true ->
          (j < z)%nat -> Roster.distanceOf pj <> 0)).
Proof.
  intros Hlen.
  destruct (forceRoundEnd_many now players m Hlen)
    as (w & pw & Hpw & Hwa & Hmin & Hstrict & players' & Heq & Hlen' & Hafter).
  rewrite Heq. exists w, pw.
  assert (Hmin' : forall j pj, Players.get j players = Some pj -> Player.isAlive pj = true ->
            Roster.distanceOf pw <= Roster.distanceOf pj /\
            ((j < w)%nat -> Roster.distanceOf pw < Roster.distanceOf pj)).
  { intros j pj Hj Hja. rewrite <- !storedDistance_distanceOf. split.
    - now apply (Hmin j pj).
    - now apply (Hstrict j pj). }
  assert (Hwlt : (w < List.length players)%nat).
  { apply nth_error_Some. unfold Players.get in Hpw. congruence. }
  repeat match goal with |- _ /\ _ => split end; auto.
  - apply alive_single; [|lia].
    intros i p' Hp'.
    destruct (get_defined i players players' p' Hlen' Hp') as [p Hp].
    rewrite (Hafter i p Hp) in Hp'. injection Hp' as <-.
    unfold Roster.afterForcedEnd. rewrite (Nat.eqb_sym w i).
    destruct (Nat.eqb_spec i w) as [->|Hne].
    + assert (p = pw) by congruence. subst p. exact Hwa.
    + now destruct (Player.isAlive p) eqn:Ea.
  - intros i p Hp. exists (Roster.afterForcedEnd now w i p).
    split; [now apply Hafter|]. split; [apply afterForcedEnd_position|].
    unfold Roster.afterForcedEnd.
    destruct (Nat.eqb_spec i w) as [->|Hne].
    + assert (p = pw) by congruence. subst p. cbn. auto.
    + destruct (Player.isAlive p) eqn:Ea; cbn; auto.
  - intros Hnonneg z pz Hz Hza Hzero.
    assert (Hz0 : Roster.distanceOf pz = 0).
    { unfold Roster.distanceOf. now destruct Hzero as [-> | ->]. }
    split.
    + intros <- j pj Hj Hja Hlt.
      assert (pz = pw) by congruence. subst pz.
      destruct (Hmin' j pj Hj Hja) as [_ Hs]. specialize (Hs Hlt). lra.
    + intros Hearlier.
      destruct (Nat.lt_trichotomy w z) as [Hlt | [Heq' | Hgt]]; [|exact Heq'|].
      * exfalso. apply (Hearlier w pw Hpw Hwa Hlt).
        destruct (Hmin' z pz Hz Hza) as [Hle _].
        pose proof (Hnonneg w pw Hpw Hwa). lra.
      * exfalso. destruct (Hmin' z pz Hz Hza) as [_ Hs]. specialize (Hs Hgt).
        pose proof (Hnonneg w pw Hpw Hwa). lra.
Qed.

Lemma forced_end_keeps_closest_witness :
  let far := Player.set_distanceFromCenter (Some 120) (Player.new 0 380 350 0) in
  let gone :=
    Player.eliminate 500 (Player.set_distanceFromCenter (Some 10) (Player.new 1 510 350 0)) in
  let near := Player.set_distanceFromCenter (Some 50) (Player.new 2 550 350 0) in
  let tied := Player.set_distanceFromCenter (Some 50) (Player.new 3 500 400 0) in
  let '(m', players', events) :=
    RoundManager.forceRoundEnd 1000 [far; gone; near; tied]
      (RoundManager.set_state RoundManager.playing RoundManager.new) in
  RoundManager.roundWinner m' = Some 2%nat /\
  events = [RoundManager.RoundEnd (Some 2%nat) 0 RoundManager.timeout] /\
  Players.alive players' = [2%nat] /\
  map Player.wins players' = [0; 0; 1; 0]%nat.
Proof.
  intros far gone near tied.
  assert (Hlen : (2 <= List.length (Players.alive [far; gone; near; tied]))%nat)
    by (cbn; lia).
  pose proof (forced_end_keeps_closest 1000 [far; gone; near; tied]
                (RoundManager.set_state RoundManager.playing RoundManager.new) Hlen) as T.
  destruct (RoundManager.forceRoundEnd 1000 [far; gone; near; tied]
              (RoundManager.set_state RoundManager.playing RoundManager.new))
    as [[m' players'] events].
  destruct T as (w & pw & Hpw & Hwa & Hwin & _ & Hev & Hmin & Hlen' & Halive & Hafter & _).
  assert (Hw : w = 2%nat).
  { destruct (Hmin 2%nat near eq_refl eq_refl) as [Hle Hlt].
    unfold Players.get in Hpw.
    destruct w as [|[|[|[|w]]]]; cbn in Hpw.
    - injection Hpw as <-. cbn in Hle. lra.
    - injection Hpw as <-. discriminate.
    - reflexivity.
    - injection Hpw as <-. specialize (Hlt ltac:(lia)). cbn in Hlt. lra.
    - destruct w; discriminate. }
  subst w. repeat split; auto.
  destruct (Hafter 0%nat far eq_refl) as (p0 & H0 & _ & _ & _ & _ & W0).
  destruct (Hafter 1%nat gone eq_refl) as (p1 & H1 & _ & W1).
  destruct (Hafter 2%nat near eq_refl) as (p2 & H2 & _ & _ & W2 & _).
  destruct (Hafter 3%nat tied eq_refl) as (p3 & H3 & _ & _ & _ & _ & W3).
  cbn in W1. subst p1.
  destruct players' as [|q0 [|q1 [|q2 [|q3 [|q4 rest]]]]]; cbn in Hlen'; try lia.
  cbn in H0, H1, H2, H3. injection H0 as ->. injection H1 as ->.
  injection H2 as ->. injection H3 as ->.
  cbn [map]. now rewrite W0, W2, W3.
Defined.

(** ** Round manager: the phases of a round *)

Lemma get_map_isAlive (players : list Player.t) (i : nat) :
    nth_error (map Player.isAlive players) i
    = option_map Player.isAlive (Players.get i players).
  Proof. unfold Players.get. apply nth_error_map. Qed.

Lemma alive_flags (players players' : list Player.t) :
  map Player.isAlive players' = map Player.isAlive players ->
  Players.alive players' = Players.alive players.
Proof.
  intros H. unfold Players.alive.
  assert (Hlen : List.length players' = List.length players).
  { rewrite <- (length_map Player.isAlive players'), H. apply length_map. }
  rewrite Hlen. apply filter_ext. intros i.
  pose proof (get_map_isAlive players i) as E. pose proof (get_map_isAlive players' i) as E'.
  rewrite H in E'. rewrite E in E'.
  destruct (Players.get i players), (Players.get i players'); cbn in E'; congruence.
Qed.

Lemma checkRoundEnd_many (players : list Player.t) (m : RoundManager.t) :
  (2 <= List.length (Players.alive players))%nat ->
  RoundManager.checkRoundEnd players m = (m, players, []).
Proof.
  intros H. unfold RoundManager.checkRoundEnd.
  destruct (Nat.leb_spec (List.length (Players.alive players)) 1); [lia | reflexivity].
Qed.

Lemma updateDamageMultiplier_eq (m : RoundManager.t) :
  exists d, RoundManager.updateDamageMultiplier m = RoundManager.set_damageMultiplier d m.
Proof.
  unfold RoundManager.updateDamageMultiplier.
  destruct (_ <? _); eexists; reflexivity.
Qed.

Ltac split_ifs :=
  repeat match goal with
         | |- context [if ?c then _ else _] => destruct c eqn:?
         end.

Ltac rm_simpl :=
  cbn [
       RoundManager.currentRound RoundManager.state
       RoundManager.countdownValue RoundManager.countdownTimer
       RoundManager.roundEndTimer RoundManager.winner
       RoundManager.roundWinner RoundManager.roundTime
       RoundManager.currentModifier RoundManager.damageMultiplier
       RoundManager.instabilityActive
       RoundManager.finalCountdownActive
       RoundManager.finalCountdownTime RoundManager.set_currentRound
       RoundManager.set_state RoundManager.set_countdownValue
       RoundManager.set_countdownTimer RoundManager.set_roundEndTimer
       RoundManager.set_winner RoundManager.set_roundWinner
       RoundManager.set_roundTime RoundManager.set_currentModifier
       RoundManager.set_damageMultiplier
       RoundManager.set_instabilityActive
       RoundManager.set_finalCountdownActive
       RoundManager.set_finalCountdownTime
       negb andb orb fst snd app].

Lemma updatePlaying_before (dt now : R) (players : list Player.t) (m : RoundManager.t) :
  (2 <= List.length (Players.alive players))%nat ->
  RoundManager.finalCountdownActive m = false ->
  RoundManager.roundTime m + dt < CONFIG.ESCALATION.FINAL_COUNTDOWN_START ->
  exists m' events,
    RoundManager.updatePlaying dt now players m = (m', players, events) /\
    RoundManager.state m' = RoundManager.state m /\
    RoundManager.currentRound m' = RoundManager.currentRound m /\
    RoundManager.finalCountdownActive m' = false /\
    RoundManager.roundTime m' = RoundManager.roundTime m + dt /\
    existsb RoundRun.isRoundEnd events = false.
Proof.
  intros Halive Hfca Hlt. unfold RoundManager.updatePlaying.
  destruct (updateDamageMultiplier_eq
              (RoundManager.set_roundTime (RoundManager.roundTime m + dt) m)) as [d ->].
  assert (E : (RoundManager.roundTime m + dt >=? CONFIG.ESCALATION.FINAL_COUNTDOWN_START) = false)
    by (apply geb_false; exact Hlt).
  rm_simpl.
  destruct (negb (RoundManager.instabilityActive m)
            && (RoundManager.roundTime m + dt >=? CONFIG.ESCALATION.INSTABILITY_START));
    rm_simpl; rewrite Hfca, E; rm_simpl; rewrite Hfca;
    rewrite checkRoundEnd_many by exact Halive;
    eexists; eexists; (split; [reflexivity|]); rm_simpl; auto.
Qed.

Lemma updatePlaying_latch (dt now : R) (players : list Player.t) (m : RoundManager.t) :
  (2 <= List.length (Players.alive players))%nat ->
  RoundManager.finalCountdownActive m = false ->
  CONFIG.ESCALATION.FINAL_COUNTDOWN_START <= RoundManager.roundTime m + dt ->
  dt < CONFIG.ESCALATION.FINAL_COUNTDOWN_DURATION ->
  exists m' events,
    RoundManager.updatePlaying dt now players m = (m', players, events) /\
    RoundManager.state m' = RoundManager.state m /\
    RoundManager.currentRound m' = RoundManager.currentRound m /\
    RoundManager.finalCountdownActive m' = true /\
    RoundManager.roundTime m' = RoundManager.roundTime m + dt /\
    RoundManager.finalCountdownTime m' = CONFIG.ESCALATION.FINAL_COUNTDOWN_DURATION - dt /\
    existsb RoundRun.isRoundEnd events = false.
Proof.
  intros Halive Hfca Hge Hdt. unfold RoundManager.updatePlaying.
  destruct (updateDamageMultiplier_eq
              (RoundManager.set_roundTime (RoundManager.roundTime m + dt) m)) as [d ->].
  assert (E : (RoundManager.roundTime m + dt >=? CONFIG.ESCALATION.FINAL_COUNTDOWN_START) = true)
    by (apply geb_true; lra).
  assert (E' : (CONFIG.ESCALATION.FINAL_COUNTDOWN_DURATION - dt <=? 0) = false)
    by (apply leb_false; lra).
  rm_simpl.
  destruct (negb (RoundManager.instabilityActive m)
            && (RoundManager.roundTime m + dt >=? CONFIG.ESCALATION.INSTABILITY_START));
    rm_simpl; rewrite Hfca, E; rm_simpl; rewrite E';
    rewrite checkRoundEnd_many by exact Halive;
    eexists; eexists; (split; [reflexivity|]); rm_simpl; auto 10.
Qed.

Lemma updatePlaying_counting (dt now : R) (players : list Player.t) (m : RoundManager.t) :
  (2 <= List.length (Players.alive players))%nat ->
  RoundManager.finalCountdownActive m = true ->
  0 < RoundManager.finalCountdownTime m - dt ->
  exists m' events,
    RoundManager.updatePlaying dt now players m = (m', players, events) /\
    RoundManager.state m' = RoundManager.state m /\
    RoundManager.currentRound m' = RoundManager.currentRound m /\
    RoundManager.finalCountdownActive m' = true /\
    RoundManager.roundTime m' = RoundManager.roundTime m + dt /\
    RoundManager.finalCountdownTime m' = RoundManager.finalCountdownTime m - dt /\
    existsb RoundRun.isRoundEnd events = false.
Proof.
  intros Halive Hfca Hleft. unfold RoundManager.updatePlaying.
  destruct (updateDamageMultiplier_eq
              (RoundManager.set_roundTime (RoundManager.roundTime m + dt) m)) as [d ->].
  assert (E' : (RoundManager.finalCountdownTime m - dt <=? 0) = false)
    by (apply leb_false; lra).
  rm_simpl.
  destruct (negb (RoundManager.instabilityActive m)
            && (RoundManager.roundTime m + dt >=? CONFIG.ESCALATION.INSTABILITY_START));
    rm_simpl; rewrite Hfca; rm_simpl; rewrite Hfca; rm_simpl; rewrite E';
    rewrite checkRoundEnd_many by exact Halive;
    eexists; eexists; (split; [reflexivity|]); rm_simpl; auto 10.
Qed.

Lemma updatePlaying_expired (dt now : R) (players : list Player.t) (m : RoundManager.t) :
  RoundManager.finalCountdownActive m = true ->
  RoundManager.finalCountdownTime m - dt <= 0 ->
  exists m1 events,
    RoundManager.updatePlaying dt now players m
    = (let '(m', players', ev4) := RoundManager.forceRoundEnd now players m1 in
       (m', players', events ++ ev4)) /\
    RoundManager.currentRound m1 = RoundManager.currentRound m /\
    existsb RoundRun.isRoundEnd events = false.
Proof.
  intros Hfca Hleft. unfold RoundManager.updatePlaying.
  destruct (updateDamageMultiplier_eq
              (RoundManager.set_roundTime (RoundManager.roundTime m + dt) m)) as [d ->].
  assert (E' : (RoundManager.finalCountdownTime m - dt <=? 0) = true)
    by (apply leb_true; lra).
  rm_simpl.
  destruct (negb (RoundManager.instabilityActive m)
            && (RoundManager.roundTime m + dt >=? CONFIG.ESCALATION.INSTABILITY_START));
    rm_simpl; rewrite Hfca; rm_simpl; rewrite Hfca; rm_simpl; rewrite E'.
  - eexists.
    exists [RoundManager.Escalation "instability" "CHAOS MODE! Random forces active!";
            RoundManager.FinalCountdown
              (JS.ceil ((RoundManager.finalCountdownTime m - dt) / 1000))].
    split; [reflexivity|]. rm_simpl. auto.
  - eexists.
    exists [RoundManager.FinalCountdown
              (JS.ceil ((RoundManager.finalCountdownTime m - dt) / 1000))].
    split; [reflexivity|]. rm_simpl. auto.
Qed.

Lemma updateRoundEnd_waiting (dt : R) (draw : RoundManager.Draw)
    (players : list Player.t) (m : RoundManager.t) :
  0 < RoundManager.roundEndTimer m - dt ->
  RoundManager.updateRoundEnd dt draw players m
  = (RoundManager.set_roundEndTimer (RoundManager.roundEndTimer m - dt) m, []).
Proof.
  intros H. unfold RoundManager.updateRoundEnd. rm_simpl.
  assert (E : (RoundManager.roundEndTimer m - dt <=? 0) = false) by (apply leb_false; lra).
  now rewrite E.
Qed.

Lemma existsb_isRoundEnd_app (l1 l2 : list RoundManager.Event) :
    existsb RoundRun.isRoundEnd l1 = false ->
    existsb RoundRun.isRoundEnd l2 = false ->
    existsb RoundRun.isRoundEnd (l1 ++ l2) = false.
  Proof. intros H1 H2. now rewrite existsb_app, H1, H2. Qed.

Lemma storedDistance_tracked (center : Vector2.t) (players : list Player.t)
    (i : nat) (p : Player.t) :
  RoundRun.tracked center players ->
  Players.get i players = Some p ->
  RoundManager.storedDistance p = Vector2.distanceTo (Player.position p) center.
Proof.
  intros Htr Hp. unfold Players.get in Hp. apply nth_error_In in Hp.
  unfold RoundManager.storedDistance. rewrite (Htr p Hp). unfold JS.or_default.
  destruct (_ =? 0) eqn:E; [|reflexivity]. now apply eqb_true in E.
Qed.

(** ** Driver: the centrifuge is never started *)

Lemma update_centrifugeMode (dt : R) (playing : bool) (a : Arena.t) :
  Arena.centrifugeMode (Arena.update dt playing a) = Arena.centrifugeMode a.
Proof.
  unfold Arena.update.
  set (a1 := Arena.set_animation _ _ _ _ a).
  set (a2 := if Arena.centrifugeMode a1 && playing then _ else a1).
  assert (H2 : Arena.centrifugeMode a2 = Arena.centrifugeMode a).
  { subst a2 a1. destruct (_ && _); reflexivity. }
  clearbody a2. destruct playing; [|exact H2].
  destruct (_ >=? _); cbn; exact H2.
Qed.

Lemma setAliveCount_centrifugeMode (count : nat) (a : Arena.t) :
    Arena.centrifugeMode (Arena.setAliveCount count a) = Arena.centrifugeMode a.
  Proof. unfold Arena.setAliveCount. destruct (_ && _); reflexivity. Qed.

Lemma startCountdown_events (draw : RoundManager.Draw) (m : RoundManager.t) :
    existsb Game.isCentrifugeStart (snd (RoundManager.startCountdown draw m)) = false.
  Proof. reflexivity. Qed.

Lemma updateCountdown_events (dt : R) (m : RoundManager.t) :
  existsb Game.isCentrifugeStart (snd (RoundManager.updateCountdown dt m)) = false.
Proof.
  unfold RoundManager.updateCountdown.
  destruct (_ <=? _); [|reflexivity].
  destruct (_ <=? _)%Z; [|reflexivity].
  cbn [snd]. rewrite !existsb_app. cbn.
  destruct (RoundManager.currentModifier _) as [modifier|]; [|reflexivity].
  destruct (CONFIG.name modifier) as [n|]; [destruct (String.eqb n _)|]; reflexivity.
Qed.

Lemma forceRoundEnd_events (now : R) (players : list Player.t) (m : RoundManager.t) :
  existsb Game.isCentrifugeStart (snd (RoundManager.forceRoundEnd now players m)) = false.
Proof.
  unfold RoundManager.forceRoundEnd.
  destruct (Players.alive players) as [|a [|b rest]]; reflexivity.
Qed.

Lemma checkRoundEnd_events (players : list Player.t) (m : RoundManager.t) :
  existsb Game.isCentrifugeStart (snd (RoundManager.checkRoundEnd players m)) = false.
Proof.
  unfold RoundManager.checkRoundEnd. destruct (Nat.leb _ _); reflexivity.
Qed.

Lemma updatePlaying_events (dt now : R) (players : list Player.t) (m : RoundManager.t) :
  existsb Game.isCentrifugeStart (snd (RoundManager.updatePlaying dt now players m)) = false.
Proof.
  unfold RoundManager.updatePlaying.
  destruct (updateDamageMultiplier_eq
              (RoundManager.set_roundTime (RoundManager.roundTime m + dt) m)) as [d ->].
  destruct (negb _ && _); destruct (negb _ && _);
    destruct (RoundManager.finalCountdownActive _);
    try destruct (_ <=? _);
    repeat match goal with
      | |- context [RoundManager.forceRoundEnd ?n ?p ?x] =>
          pose proof (forceRoundEnd_events n p x);
          destruct (RoundManager.forceRoundEnd n p x) as [[? ?] ?]
      | |- context [RoundManager.checkRoundEnd ?p ?x] =>
          pose proof (checkRoundEnd_events p x);
          destruct (RoundManager.checkRoundEnd p x) as [[? ?] ?]
      end;
    cbn [snd] in *; rewrite ?existsb_app; cbn; assumption.
Qed.

Lemma updateRoundEnd_events (dt : R) (draw : RoundManager.Draw)
    (players : list Player.t) (m : RoundManager.t) :
  existsb Game.isCentrifugeStart (snd (RoundManager.updateRoundEnd dt draw players m)) = false.
Proof.
  unfold RoundManager.updateRoundEnd.
  destruct (_ <=? _); [|reflexivity].
  destruct (RoundManager.findMatchWinner players); reflexivity.
Qed.

(** The round manager never fires the centrifuge callback. *)
Lemma update_events (dt : R) (draw : RoundManager.Draw) (now : R)
    (players : list Player.t) (m : RoundManager.t) :
  existsb Game.isCentrifugeStart (snd (RoundManager.update dt draw now players m)) = false.
Proof.
  unfold RoundManager.update. destruct (RoundManager.state m).
  - reflexivity.
  - pose proof (updateCountdown_events dt m).
    destruct (RoundManager.updateCountdown dt m). assumption.
  - apply updatePlaying_events.
  - pose proof (updateRoundEnd_events dt draw players m).
    destruct (RoundManager.updateRoundEnd dt draw players m). assumption.
  - reflexivity.
Qed.

Lemma handle_centrifugeMode (g : Game.t) (e : RoundManager.Event) :
  Game.isCentrifugeStart e = false ->
  Arena.centrifugeMode (Game.arena (Game.handle g e)) = Arena.centrifugeMode (Game.arena g).
Proof.
  destruct e; cbn; try reflexivity; try discriminate. intros _.
  destruct modifier as [m|]; [|reflexivity].
  destruct (CONFIG.key m) as [[]|]; try reflexivity.
  - destruct (CONFIG.arenaScale m); reflexivity.
  - destruct (CONFIG.shrinkSpeed m); reflexivity.
Qed.

Lemma dispatch_centrifugeMode (events : list RoundManager.Event) :
  forall g : Game.t,
    existsb Game.isCentrifugeStart events = false ->
    Arena.centrifugeMode (Game.arena (Game.dispatch events g))
    = Arena.centrifugeMode (Game.arena g).
Proof.
  unfold Game.dispatch.
  induction events as [|e events IH]; intros g H; cbn in *; [reflexivity|].
  apply orb_false_iff in H as [He Hes].
  rewrite IH by exact Hes. now apply handle_centrifugeMode.
Qed.

Lemma checkBoundaries_centrifugeMode (now : R) (g : Game.t) :
  Arena.centrifugeMode (Game.arena (Game.checkBoundaries now g))
  = Arena.centrifugeMode (Game.arena g).
Proof.
  unfold Game.checkBoundaries. destruct (existsb _ _); reflexivity.
Qed.

Lemma fixedUpdate_centrifuge (dt : R) (env : Game.Env) (g : Game.t) :
  Arena.centrifugeMode (Game.arena g) = false ->
  Arena.centrifugeMode (Game.arena (fst (Game.fixedUpdate dt env g))) = false /\
  existsb Game.isCentrifugeStart (snd (Game.fixedUpdate dt env g)) = false.
Proof.
  intros Hg. unfold Game.fixedUpdate.
  pose proof (update_events dt (Game.draw env) (Game.now env) (Game.players g)
                (Game.roundManager g)) as Hev.
  destruct (RoundManager.update dt (Game.draw env) (Game.now env) (Game.players g)
              (Game.roundManager g)) as [[m ps] events].
  cbn [snd] in Hev.
  set (g1 := Game.dispatch events _).
  assert (H1 : Arena.centrifugeMode (Game.arena g1) = false).
  { subst g1. rewrite dispatch_centrifugeMode by exact Hev. exact Hg. }
  clearbody g1.
  set (g2 := Game.set_arena _ g1).
  assert (H2 : Arena.centrifugeMode (Game.arena g2) = false).
  { subst g2. cbn [Game.arena Game.set_arena]. now rewrite update_centrifugeMode. }
  clearbody g2.
  destruct (negb (RoundManager.isPlaying (Game.roundManager g2))).
  - destruct (_ && _); cbn [fst snd]; split; auto.
  - cbn [fst snd]. split; [|exact Hev].
    rewrite checkBoundaries_centrifugeMode.
    cbn [Game.arena Game.processCollisionsWithEffects Game.set_players Game.set_arena].
    now rewrite setAliveCount_centrifugeMode.
Qed.

Lemma step_centrifuge (s : Game.Step) (g : Game.t) :
  Arena.centrifugeMode (Game.arena g) = false ->
  Arena.centrifugeMode (Game.arena (fst (Game.step s g))) = false /\
  existsb Game.isCentrifugeStart (snd (Game.step s g)) = false.
Proof.
  intros Hg. destruct s as [dt env | draw | phases count]; cbn [Game.step].
  - now apply fixedUpdate_centrifuge.
  - destruct (_ || _); [|cbn; auto].
    unfold Game.startNewMatch. cbn. auto.
  - cbn. auto.
Qed.

Lemma run_centrifuge (steps : list Game.Step) :
  forall (g : Game.t) (log : list RoundManager.Event),
    Arena.centrifugeMode (Game.arena g) = false ->
    existsb Game.isCentrifugeStart log = false ->
    let r := fold_left
               (fun '(g, log) s => let '(g', events) := Game.step s g in (g', log ++ events))
               steps (g, log) in
    Arena.centrifugeMode (Game.arena (fst r)) = false /\
    existsb Game.isCentrifugeStart (snd r) = false.
Proof.
  induction steps as [|s steps IH]; intros g log Hg Hlog; cbn zeta; cbn [fold_left].
  - auto.
  - destruct (step_centrifuge s g Hg) as [Hg' Hev].
    destruct (Game.step s g) as [g' events]. cbn [fst snd] in *.
    apply IH; [exact Hg'|]. now rewrite existsb_app, Hlog, Hev.
Qed.

(** No execution of the game starts the centrifuge. *)
Lemma centrifuge_unreachable (phases : nat -> R) (steps : list Game.Step) :
  Arena.centrifugeMode (Game.arena (fst (Game.run steps (Game.new phases)))) = false /\
  existsb Game.isCentrifugeStart (snd (Game.run steps (Game.new phases))) = false.
Proof.
  unfold Game.run. apply run_centrifuge; reflexivity.
Qed.

(** The claim as stated fails: no reachable execution fires the centrifuge
    notification or leaves the arena in centrifuge mode. *)
Lemma no_centrifuge_activation :
  ~ exists (phases : nat -> R) (steps : list Game.Step),
      In RoundManager.CentrifugeStart (snd (Game.run steps (Game.new phases))) \/
      Arena.centrifugeMode (Game.arena (fst (Game.run steps (Game.new phases)))) = true.
Proof.
  intros (phases & steps & H).
  destruct (centrifuge_unreachable phases steps) as [Hmode Hlog].
  destruct H as [Hin | Hon]; [|congruence].
  assert (Hex : existsb Game.isCentrifugeStart (snd (Game.run steps (Game.new phases))) = true).
  { apply existsb_exists. exists RoundManager.CentrifugeStart. split; [exact Hin | reflexivity]. }
  congruence.
Qed.

(** C5 (amended).  In every execution of the game -- fixed steps, start
    requests and player-count changes in any order -- the round manager
    never fires the centrifuge notification, [Arena.centrifugeMode] stays
    false, and the boundary checks remain the rectangular ones; the handler
    the driver installs would switch the arena to the circle if the
    notification were ever fired. *)
Theorem centrifuge_never_activated (phases : nat -> R) (steps : list Game.Step) :
  let g := fst (Game.run steps (Game.new phases)) in
  let log := snd (Game.run steps (Game.new phases)) in
  ~ In RoundManager.CentrifugeStart log /\
  Arena.centrifugeMode (Game.arena g) = false /\
  (forall x y radius,
     Arena.isOutOfBounds x y radius (Game.arena g)
     = (x - radius <? Arena.left (Arena.bounds (Game.arena g)))
       || (x + radius >? Arena.right (Arena.bounds (Game.arena g)))
       || (y - radius <? Arena.top (Arena.bounds (Game.arena g)))
       || (y + radius >? Arena.bottom (Arena.bounds (Game.arena g))) /\
     Arena.isEliminated x y radius (Game.arena g)
     = (x + radius <? Arena.left (Arena.bounds (Game.arena g)))
       || (x - radius >? Arena.right (Arena.bounds (Game.arena g)))
       || (y + radius <? Arena.top (Arena.bounds (Game.arena g)))
       || (y - radius >? Arena.bottom (Arena.bounds (Game.arena g)))) /\
  Arena.centrifugeMode
    (Game.arena (Game.handle g RoundManager.CentrifugeStart)) = true.
Proof.
  cbn zeta. destruct (centrifuge_unreachable phases steps) as [Hmode Hlog].
  split; [|split; [exact Hmode|split]].
  - intros Hin.
    assert (Hex : existsb Game.isCentrifugeStart (snd (Game.run steps (Game.new phases))) = true).
    { apply existsb_exists. exists RoundManager.CentrifugeStart.
      split; [exact Hin | reflexivity]. }
    congruence.
  - intros x y radius. unfold Arena.isOutOfBounds, Arena.isEliminated.
    rewrite Hmode. split; reflexivity.
  - reflexivity.
Qed.

(** ** Dead players are frozen *)

Lemma keeps_refl (p : Player.t) : Frozen.keeps p p.
  Proof. split; [auto | congruence]. Qed.

Lemma keeps_trans (p q r : Player.t) :
  Frozen.keeps p q -> Frozen.keeps q r -> Frozen.keeps p r.
Proof.
  intros [Hd1 Ha1] [Hd2 Ha2]. split.
  - intros Hp. destruct (Hd1 Hp) as (Hq & Hv & Hx).
    destruct (Hd2 Hq) as (Hr & Hv' & Hx'). repeat split; congruence.
  - intros Hp Hr. destruct (Player.isAlive q) eqn:Hq.
    + now apply Ha2.
    + destruct (Hd2 eq_refl) as (_ & Hv & _). rewrite Hv. now apply Ha1.
Qed.

Lemma keeps_alive (p q : Player.t) :
    Player.isAlive p = true -> Player.isAlive q = true -> Frozen.keeps p q.
  Proof. intros Hp Hq. split; congruence. Qed.

Lemma keeps_eliminate (now : R) (p : Player.t) :
    Player.isAlive p = true -> Frozen.keeps p (Player.eliminate now p).
  Proof. intros Hp. split; [congruence | reflexivity]. Qed.

Lemma keeps_addWin (p : Player.t) : Frozen.keeps p (Player.addWin p).
  Proof. split; [auto | cbn; congruence]. Qed.

Lemma keeps_all_refl (players : list Player.t) : Forall2 Frozen.keeps players players.
  Proof. induction players; constructor; auto using keeps_refl. Qed.

Lemma keeps_all_trans (l1 : list Player.t) :
  forall l2 l3,
    Forall2 Frozen.keeps l1 l2 -> Forall2 Frozen.keeps l2 l3 -> Forall2 Frozen.keeps l1 l3.
Proof.
  induction l1 as [|p l1 IH]; intros l2 l3 H12 H23;
    inversion H12; subst; inversion H23; subst; constructor.
  - eapply keeps_trans; eassumption.
  - eapply IH; eassumption.
Qed.

Lemma keeps_all_map (f : Player.t -> Player.t) (players : list Player.t) :
    (forall p, Frozen.keeps p (f p)) -> Forall2 Frozen.keeps players (map f players).
  Proof. intros Hf. induction players; cbn; constructor; auto. Qed.

Lemma keeps_all_set (i : nat) (q : Player.t) (players : list Player.t) :
  (forall p, Players.get i players = Some p -> Frozen.keeps p q) ->
  Forall2 Frozen.keeps players (Players.set i q players).
Proof.
  revert i. induction players as [|p rest IH]; intros [|i] H; cbn; constructor.
  - apply H. reflexivity.
  - apply keeps_all_refl.
  - apply keeps_refl.
  - apply IH. exact H.
Qed.

Lemma keeps_all_modify (i : nat) (f : Player.t -> Player.t) (players : list Player.t) :
  (forall p, Players.get i players = Some p -> Frozen.keeps p (f p)) ->
  Forall2 Frozen.keeps players (Players.modify i f players).
Proof.
  intros H. unfold Players.modify.
  destruct (Players.get i players) as [p|] eqn:E; [|apply keeps_all_refl].
  apply keeps_all_set. intros p' Hp'. assert (p' = p) by congruence. subst. now apply H.
Qed.

Lemma keeps_all_of_get (players : list Player.t) :
  forall players',
    List.length players' = List.length players ->
    (forall i p p', Players.get i players = Some p -> Players.get i players' = Some p' ->
       Frozen.keeps p p') ->
    Forall2 Frozen.keeps players players'.
Proof.
  induction players as [|p rest IH]; intros [|p' rest'] Hlen H; cbn in Hlen;
    try discriminate; constructor.
  - apply (H 0%nat); reflexivity.
  - apply IH; [lia|]. intros i q q' Hq Hq'. apply (H (S i)); assumption.
Qed.

Lemma keeps_all_get (players players' : list Player.t) (i : nat) (p p' : Player.t) :
  Forall2 Frozen.keeps players players' ->
  Players.get i players = Some p -> Players.get i players' = Some p' ->
  Frozen.keeps p p'.
Proof.
  unfold Players.get. intros H. revert i.
  induction H as [|q q' l l' Hq _ IH]; intros [|i] Hp Hp'; cbn in *;
    try discriminate.
  - congruence.
  - eapply IH; eassumption.
Qed.

Lemma still_keeps (players players' : list Player.t) :
  Frozen.still players -> Forall2 Frozen.keeps players players' -> Frozen.still players'.
Proof.
  unfold Frozen.still. intros Hs H.
  induction H as [|p p' l l' [Hd Ha] _ IH]; [constructor|].
  inversion Hs as [|? ? Hp Hl]; subst. constructor; [|now apply IH].
  intros Hdead. destruct (Player.isAlive p) eqn:Hp'.
  - now apply Ha.
  - destruct (Hd eq_refl) as (_ & Hv & _). rewrite Hv. now apply Hp.
Qed.

Lemma still_alive (players : list Player.t) :
  Forall (fun p => Player.isAlive p = true) players -> Frozen.still players.
Proof.
  unfold Frozen.still. intros H. eapply Forall_impl; [|exact H]. cbn. congruence.
Qed.

Lemma handleInput_dead (input : Player.Input) (dt speedMultiplier : R) (p : Player.t) :
    Player.isAlive p = false ->
    Player.handleInput input dt speedMultiplier p = (p, Player.mkDashResult false None).
  Proof. intros H. unfold Player.handleInput. now rewrite H. Qed.

Lemma tickTimers_isAlive (dt : R) (p : Player.t) :
    Player.isAlive (Dash.tickTimers dt p) = Player.isAlive p.
  Proof. unfold Dash.tickTimers. split_ifs; reflexivity. Qed.

Lemma handleInput_isAlive (input : Player.Input) (dt speedMultiplier : R) (p : Player.t) :
  Player.isAlive (fst (Player.handleInput input dt speedMultiplier p)) = Player.isAlive p.
Proof.
  destruct (Player.isAlive p) eqn:H.
  - rewrite handleInput_alive by exact H. cbn zeta.
    pose proof (tickTimers_isAlive dt p) as Ht. rewrite H in Ht.
    destruct (_ && _); cbn [fst]; [exact Ht|].
    destruct (_ && _); exact Ht.
  - rewrite handleInput_dead by exact H. exact H.
Qed.

Lemma update_dead (dt : R) (arena : option Arena.t) (frictionMultiplier : R) (p : Player.t) :
    Player.isAlive p = false -> Player.update dt arena frictionMultiplier p = p.
  Proof. intros H. unfold Player.update. now rewrite H. Qed.

Lemma updateVisualEffects_isAlive (dt : R) (arena : option Arena.t) (p : Player.t) :
  Player.isAlive (Player.updateVisualEffects dt arena p) = Player.isAlive p.
Proof.
  unfold Player.updateVisualEffects. destruct arena; split_ifs; reflexivity.
Qed.

Lemma update_isAlive (dt : R) (arena : option Arena.t) (frictionMultiplier : R)
    (p : Player.t) :
  Player.isAlive (Player.update dt arena frictionMultiplier p) = Player.isAlive p.
Proof.
  unfold Player.update. destruct (Player.isAlive p) eqn:H; cbn [negb]; [|exact H].
  rewrite updateVisualEffects_isAlive. cbn [Player.isAlive Player.set_position Player.set_velocity].
  split_ifs; exact H.
Qed.

Lemma resolveCollision_dead (p1 p2 : Player.t) (damageMultiplier bounceMultiplier : R) :
  Player.isAlive p1 = false \/ Player.isAlive p2 = false ->
  Physics.resolveCollision p1 p2 damageMultiplier bounceMultiplier = (p1, p2).
Proof.
  intros H. unfold Physics.resolveCollision.
  destruct H as [-> | ->]; [reflexivity|]. now rewrite orb_true_r.
Qed.

Lemma resolveCollision_isAlive (p1 p2 : Player.t) (damageMultiplier bounceMultiplier : R) :
  Player.isAlive (fst (Physics.resolveCollision p1 p2 damageMultiplier bounceMultiplier))
  = Player.isAlive p1 /\
  Player.isAlive (snd (Physics.resolveCollision p1 p2 damageMultiplier bounceMultiplier))
  = Player.isAlive p2.
Proof.
  unfold Physics.resolveCollision.
  destruct (_ || _); [split; reflexivity|].
  destruct (_ || _); [split; reflexivity|].
  cbn zeta. destruct (_ >? 0); split; reflexivity.
Qed.

Lemma push_motion (force : Vector2.t) (p : Player.t) :
    Player.isAlive (Game.push force p) = Player.isAlive p /\
    Player.position (Game.push force p) = Player.position p.
  Proof. split; reflexivity. Qed.

Lemma playerStep_isAlive (dt : R) (env : Game.Env) (frictionMod speedMod : R)
    (arena : Arena.t) (m : RoundManager.t) (p : Player.t) :
  Player.isAlive (Game.playerStep dt env frictionMod speedMod arena m p) = Player.isAlive p.
Proof.
  unfold Game.playerStep.
  pose proof (handleInput_isAlive (Game.inputs env (Player.id p)) dt speedMod p) as Hh.
  destruct (Player.handleInput (Game.inputs env (Player.id p)) dt speedMod p) as [q res].
  cbn [fst] in Hh.
  pose proof (update_isAlive dt (Some arena) frictionMod q) as Hu.
  set (q1 := Player.update dt (Some arena) frictionMod q) in *.
  cbn zeta.
  repeat match goal with
         | |- context [if ?c then _ else _] => destruct c
         end; cbn; congruence.
Qed.

Lemma playerStep_dead (dt : R) (env : Game.Env) (frictionMod speedMod : R)
    (arena : Arena.t) (m : RoundManager.t) (p : Player.t) :
  Player.isAlive p = false ->
  Player.velocity (Game.playerStep dt env frictionMod speedMod arena m p) = Player.velocity p /\
  Player.position (Game.playerStep dt env frictionMod speedMod arena m p) = Player.position p.
Proof.
  intros H. unfold Game.playerStep.
  rewrite handleInput_dead by exact H. rewrite update_dead by exact H. cbv zeta.
  set (q := Player.set_distanceFromCenter _ p).
  assert (Hq : Player.isAlive q = false) by exact H.
  assert (Hv : Player.velocity q = Player.velocity p) by reflexivity.
  assert (Hx : Player.position q = Player.position p) by reflexivity.
  clearbody q.
  repeat (rewrite !Hq; cbn [andb]).
  rewrite andb_false_r. auto.
Qed.

Lemma playerStep_keeps (dt : R) (env : Game.Env) (frictionMod speedMod : R)
    (arena : Arena.t) (m : RoundManager.t) (p : Player.t) :
  Frozen.keeps p (Game.playerStep dt env frictionMod speedMod arena m p).
Proof.
  pose proof (playerStep_isAlive dt env frictionMod speedMod arena m p) as Ha.
  split.
  - intros H. destruct (playerStep_dead dt env frictionMod speedMod arena m p H).
    repeat split; congruence.
  - congruence.
Qed.

Lemma keeps_afterForcedEnd (now : R) (w i : nat) (p : Player.t) :
  Frozen.keeps p (Roster.afterForcedEnd now w i p).
Proof.
  unfold Roster.afterForcedEnd. destruct (Nat.eqb i w); [apply keeps_addWin|].
  destruct (Player.isAlive p) eqn:H; [now apply keeps_eliminate | apply keeps_refl].
Qed.

Lemma forceRoundEnd_keeps (now : R) (players : list Player.t) (m : RoundManager.t) :
  Forall2 Frozen.keeps players (snd (fst (RoundManager.forceRoundEnd now players m))).
Proof.
  destruct (Players.alive players) as [|a [|b rest]] eqn:E.
  - unfold RoundManager.forceRoundEnd. rewrite E. cbn. apply keeps_all_refl.
  - unfold RoundManager.forceRoundEnd. rewrite E. cbn.
    apply keeps_all_modify. intros p _. apply keeps_addWin.
  - assert (Hlen : (2 <= List.length (Players.alive players))%nat) by (rewrite E; cbn; lia).
    destruct (forceRoundEnd_many now players m Hlen)
      as (w & pw & _ & _ & _ & _ & players' & -> & Hlen' & Hafter).
    cbn [fst snd]. apply keeps_all_of_get; [exact Hlen'|].
    intros i p p' Hp Hp'. rewrite (Hafter i p Hp) in Hp'. injection Hp' as <-.
    apply keeps_afterForcedEnd.
Qed.

Lemma checkRoundEnd_keeps (players : list Player.t) (m : RoundManager.t) :
  Forall2 Frozen.keeps players (snd (fst (RoundManager.checkRoundEnd players m))).
Proof.
  unfold RoundManager.checkRoundEnd.
  destruct (Nat.leb _ _); [|apply keeps_all_refl].
  cbn [fst snd RoundManager.roundWinner RoundManager.set_roundWinner].
  destruct (if Nat.eqb _ _ then _ else _) as [w|]; [|apply keeps_all_refl].
  apply keeps_all_modify. intros p _. apply keeps_addWin.
Qed.

Lemma updatePlaying_keeps (dt now : R) (players : list Player.t) (m : RoundManager.t) :
  Forall2 Frozen.keeps players (snd (fst (RoundManager.updatePlaying dt now players m))).
Proof.
  unfold RoundManager.updatePlaying.
  destruct (updateDamageMultiplier_eq
              (RoundManager.set_roundTime (RoundManager.roundTime m + dt) m)) as [d ->].
  destruct (negb _ && _); destruct (negb _ && _);
    destruct (RoundManager.finalCountdownActive _);
    try destruct (_ <=? _);
    repeat match goal with
      | |- context [RoundManager.forceRoundEnd ?n ?p ?x] =>
          pose proof (forceRoundEnd_keeps n p x);
          destruct (RoundManager.forceRoundEnd n p x) as [[? ?] ?]
      | |- context [RoundManager.checkRoundEnd ?p ?x] =>
          pose proof (checkRoundEnd_keeps p x);
          destruct (RoundManager.checkRoundEnd p x) as [[? ?] ?]
      end;
    cbn [fst snd] in *; assumption.
Qed.

Lemma update_keeps (dt : R) (draw : RoundManager.Draw) (now : R)
    (players : list Player.t) (m : RoundManager.t) :
  Forall2 Frozen.keeps players (snd (fst (RoundManager.update dt draw now players m))).
Proof.
  unfold RoundManager.update. destruct (RoundManager.state m).
  - apply keeps_all_refl.
  - destruct (RoundManager.updateCountdown dt m). apply keeps_all_refl.
  - apply updatePlaying_keeps.
  - destruct (RoundManager.updateRoundEnd dt draw players m). apply keeps_all_refl.
  - apply keeps_all_refl.
Qed.

Lemma onHit_isAlive (intensity : R) (p : Player.t) :
    Player.isAlive (Player.onHit intensity p) = Player.isAlive p.
  Proof. reflexivity. Qed.

Lemma collidePair_keeps (damageMultiplier pushMod bounceMod : R)
    (players : list Player.t) (ij : nat * nat) :
  Forall2 Frozen.keeps players
    (Game.collidePair damageMultiplier pushMod bounceMod players ij).
Proof.
  unfold Game.collidePair. destruct ij as [i j]. cbn [fst snd].
  destruct (Players.get i players) as [p1|] eqn:E1; [|apply keeps_all_refl].
  destruct (Players.get j players) as [p2|] eqn:E2; [|apply keeps_all_refl].
  destruct (Player.isAlive p1) eqn:A1; [|apply keeps_all_refl].
  destruct (Player.isAlive p2) eqn:A2; [|apply keeps_all_refl].
  cbn [negb orb].
  destruct (Physics.checkCircleCollision p1 p2); [|apply keeps_all_refl].
  cbv zeta.
  set (hit := if _ >? 0.3 then _ else (p1, p2)).
  assert (Hhit : Player.isAlive (fst hit) = true /\ Player.isAlive (snd hit) = true).
  { subst hit. destruct (_ >? 0.3); cbn [fst snd]; auto. }
  destruct hit as [h1 h2]. cbn [fst snd] in Hhit. destruct Hhit as [Hh1 Hh2].
  destruct (resolveCollision_isAlive h1 h2 (damageMultiplier * pushMod) bounceMod)
    as [Hr1 Hr2].
  destruct (Physics.resolveCollision h1 h2 (damageMultiplier * pushMod) bounceMod)
    as [r1 r2].
  cbn [fst snd] in Hr1, Hr2.
  apply keeps_all_trans with (l2 := Players.set i r1 players).
  - apply keeps_all_set. intros p Hp. apply keeps_alive; congruence.
  - apply keeps_all_set. intros p Hp.
    destruct (Nat.eq_dec i j) as [<-|Hij].
    + rewrite get_set_same in Hp.
      * injection Hp as <-. apply keeps_alive; congruence.
      * apply nth_error_Some. unfold Players.get in E1. congruence.
    + rewrite get_set_other in Hp by exact Hij. apply keeps_alive; congruence.
Qed.

Lemma collisions_keeps (damageMultiplier pushMod bounceMod : R) (l : list (nat * nat)) :
  forall players : list Player.t,
    Forall2 Frozen.keeps players
      (fold_left (Game.collidePair damageMultiplier pushMod bounceMod) l players).
Proof.
  induction l as [|ij l IH]; intros players; cbn [fold_left].
  - apply keeps_all_refl.
  - eapply keeps_all_trans; [apply collidePair_keeps | apply IH].
Qed.

Lemma checkBoundaries_keeps (now : R) (g : Game.t) :
  Forall2 Frozen.keeps (Game.players g) (Game.players (Game.checkBoundaries now g)).
Proof.
  unfold Game.checkBoundaries.
  assert (Hmap : Forall2 Frozen.keeps (Game.players g)
                   (map (fun p => if Physics.checkArenaBoundary p (Game.arena g)
                                  then Player.eliminate now p else p)
                        (Game.players g))).
  { apply keeps_all_map. intros p.
    destruct (Physics.checkArenaBoundary p (Game.arena g)) eqn:E; [|apply keeps_refl].
    apply keeps_eliminate. unfold Physics.checkArenaBoundary in E.
    destruct (Player.isAlive p); [reflexivity | discriminate]. }
  destruct (existsb _ _); exact Hmap.
Qed.

Lemma dispatch_players (events : list RoundManager.Event) :
  forall g : Game.t, Game.players (Game.dispatch events g) = Game.players g.
Proof.
  unfold Game.dispatch. induction events as [|e events IH]; intros g; cbn; [reflexivity|].
  rewrite IH. destruct e; try reflexivity. cbn.
  destruct modifier as [m|]; [|reflexivity].
  destruct (CONFIG.key m) as [[]|]; try reflexivity.
  - destruct (CONFIG.arenaScale m); reflexivity.
  - destruct (CONFIG.shrinkSpeed m); reflexivity.
Qed.

Lemma respawn_alive (clearWins : bool) (spawnPositions : list Vector2.t)
    (players : list Player.t) :
  Forall (fun p => Player.isAlive p = true) (Game.respawn clearWins spawnPositions players).
Proof.
  unfold Game.respawn. apply Forall_forall. intros p Hp.
  apply in_map_iff in Hp as ([q spawn] & <- & _). reflexivity.
Qed.

Lemma makePlayers_alive (phases : nat -> R) (spawnPositions : list Vector2.t) :
  Forall (fun p => Player.isAlive p = true) (Game.makePlayers phases spawnPositions).
Proof.
  unfold Game.makePlayers. apply Forall_forall. intros p Hp.
  apply in_map_iff in Hp as ([i spawn] & <- & _). reflexivity.
Qed.

(** One fixed step either revives everybody (the reset at the start of a
    countdown) or treats every player as a step inside a round does. *)
Lemma fixedUpdate_players (dt : R) (env : Game.Env) (g : Game.t) :
  Forall (fun p => Player.isAlive p = true) (Game.players (fst (Game.fixedUpdate dt env g))) \/
  Forall2 Frozen.keeps (Game.players g) (Game.players (fst (Game.fixedUpdate dt env g))).
Proof.
  unfold Game.fixedUpdate.
  pose proof (update_keeps dt (Game.draw env) (Game.now env) (Game.players g)
                (Game.roundManager g)) as Hrm.
  destruct (RoundManager.update dt (Game.draw env) (Game.now env) (Game.players g)
              (Game.roundManager g)) as [[m ps] events].
  cbn [fst snd] in Hrm.
  set (g1 := Game.dispatch events _).
  assert (H1 : Game.players g1 = ps).
  { subst g1. now rewrite dispatch_players. }
  clearbody g1.
  set (g2 := Game.set_arena _ g1).
  assert (H2 : Game.players g2 = ps) by exact H1.
  clearbody g2.
  destruct (negb (RoundManager.isPlaying (Game.roundManager g2))).
  - destruct (_ && _); cbn [fst].
    + left. apply respawn_alive.
    + right. now rewrite H2.
  - right. cbn [fst].
    eapply keeps_all_trans; [exact Hrm|].
    eapply keeps_all_trans; [|apply checkBoundaries_keeps].
    cbn [Game.players Game.processCollisionsWithEffects Game.set_players Game.set_arena].
    eapply keeps_all_trans; [|apply collisions_keeps].
    rewrite H2. apply keeps_all_map. intros p. apply playerStep_keeps.
Qed.

Lemma step_still (s : Game.Step) (g : Game.t) :
  Frozen.still (Game.players g) -> Frozen.still (Game.players (fst (Game.step s g))).
Proof.
  intros Hg. destruct s as [dt env | draw | phases count]; cbn [Game.step].
  - destruct (fixedUpdate_players dt env g) as [Halive | Hkeeps].
    + now apply still_alive.
    + eapply still_keeps; eassumption.
  - destruct (_ || _); [|exact Hg].
    unfold Game.startNewMatch.
    destruct (RoundManager.startMatch _ _) as [m events]. cbn [fst].
    rewrite dispatch_players. cbn [Game.players Game.set_players Game.set_roundManager
                                   Game.set_roundResetDone].
    apply still_alive, respawn_alive.
  - cbn. apply still_alive, makePlayers_alive.
Qed.

Lemma run_still (steps : list Game.Step) :
  forall (g : Game.t) (log : list RoundManager.Event),
    Frozen.still (Game.players g) ->
    Frozen.still
      (Game.players
         (fst (fold_left
                 (fun '(g, log) s =>
                    let '(g', events) := Game.step s g in (g', log ++ events))
                 steps (g, log)))).
Proof.
  induction steps as [|s steps IH]; intros g log Hg; cbn [fold_left].
  - exact Hg.
  - pose proof (step_still s g Hg) as Hs.
    destruct (Game.step s g) as [g' events]. cbn [fst] in Hs. now apply IH.
Qed.

(** C9.  In every reachable game state a player that is not alive has
    velocity exactly [(0, 0)]: [eliminate] zeroes the velocity, and neither
    [handleInput], [update], collision resolution, the environmental forces
    of the player loop nor a whole fixed step changes the velocity or the
    position of a player that is and stays dead. *)
Theorem dead_players_are_frozen :
  (forall (phases : nat -> R) (steps : list Game.Step) (p : Player.t),
     In p (Game.players (fst (Game.run steps (Game.new phases)))) ->
     Player.isAlive p = false -> Player.velocity p = Vector2.zero) /\
  (forall (now : R) (p : Player.t),
     Player.isAlive (Player.eliminate now p) = false /\
     Player.velocity (Player.eliminate now p) = Vector2.zero) /\
  (forall (input : Player.Input) (dt speedMultiplier : R) (p : Player.t),
     Player.isAlive p = false ->
     fst (Player.handleInput input dt speedMultiplier p) = p) /\
  (forall (dt : R) (arena : option Arena.t) (frictionMultiplier : R) (p : Player.t),
     Player.isAlive p = false ->
     Player.update dt arena frictionMultiplier p = p) /\
  (forall (p1 p2 : Player.t) (damageMultiplier bounceMultiplier : R),
     Player.isAlive p1 = false \/ Player.isAlive p2 = false ->
     Physics.resolveCollision p1 p2 damageMultiplier bounceMultiplier = (p1, p2)) /\
  (forall (dt : R) (env : Game.Env) (frictionMod speedMod : R) (arena : Arena.t)
          (m : RoundManager.t) (p : Player.t),
     Player.isAlive p = false ->
     Player.velocity (Game.playerStep dt env frictionMod speedMod arena m p)
     = Player.velocity p /\
     Player.position (Game.playerStep dt env frictionMod speedMod arena m p)
     = Player.position p) /\
  (forall (dt : R) (env : Game.Env) (g : Game.t) (i : nat) (p p' : Player.t),
     Players.get i (Game.players g) = Some p ->
     Players.get i (Game.players (fst (Game.fixedUpdate dt env g))) = Some p' ->
     Player.isAlive p = false -> Player.isAlive p' = false ->
     Player.velocity p' = Player.velocity p /\ Player.position p' = Player.position p).
Proof.
  split; [|split; [|split; [|split; [|split; [|split]]]]].
  - intros phases steps p Hin Hdead.
    assert (Hstill : Frozen.still (Game.players (fst (Game.run steps (Game.new phases))))).
    { unfold Game.run. apply run_still. apply still_alive.
      unfold Game.new, Game.initializePlayers.
      cbn [Game.players Game.set_players Game.set_roundResetDone].
      apply makePlayers_alive. }
    unfold Frozen.still in Hstill. rewrite Forall_forall in Hstill. now apply Hstill.
  - intros now p. split; reflexivity.
  - intros input dt sm p H. now rewrite handleInput_dead.
  - intros dt arena fm p H. now apply update_dead.
  - intros p1 p2 dm bm H. now apply resolveCollision_dead.
  - intros dt env fm sm arena m p H. now apply playerStep_dead.
  - intros dt env g i p p' Hp Hp' Hdead Hdead'.
    destruct (fixedUpdate_players dt env g) as [Halive | Hkeeps].
    + rewrite Forall_forall in Halive. unfold Players.get in Hp'.
      apply nth_error_In in Hp'. apply Halive in Hp'. congruence.
    + destruct (keeps_all_get _ _ i p p' Hkeeps Hp Hp') as [Hd _].
      destruct (Hd Hdead) as (_ & Hv & Hx). auto.
Qed.

(** ** Driver: a round always ends *)

Lemma handle_roundManager (g : Game.t) (e : RoundManager.Event) :
  Game.roundManager (Game.handle g e) = Game.roundManager g.
Proof.
  destruct e; try reflexivity. cbn.
  destruct modifier as [m|]; [|reflexivity].
  destruct (CONFIG.key m) as [[]|]; try reflexivity.
  - destruct (CONFIG.arenaScale m); reflexivity.
  - destruct (CONFIG.shrinkSpeed m); reflexivity.
Qed.

Lemma dispatch_roundManager (events : list RoundManager.Event) :
  forall g : Game.t, Game.roundManager (Game.dispatch events g) = Game.roundManager g.
Proof.
  unfold Game.dispatch. induction events as [|e events IH]; intros g; cbn; [reflexivity|].
  rewrite IH. apply handle_roundManager.
Qed.

Lemma forceRoundEnd_state (now : R) (players : list Player.t) (m : RoundManager.t) :
  RoundManager.state (fst (fst (RoundManager.forceRoundEnd now players m)))
  = RoundManager.roundEnd.
Proof.
  unfold RoundManager.forceRoundEnd.
  destruct (Players.alive players) as [|a [|b rest]]; reflexivity.
Qed.

Lemma checkRoundEnd_state (players : list Player.t) (m : RoundManager.t) :
  RoundManager.state (fst (fst (RoundManager.checkRoundEnd players m)))
  = RoundManager.roundEnd \/
  RoundManager.state (fst (fst (RoundManager.checkRoundEnd players m)))
  = RoundManager.state m.
Proof.
  unfold RoundManager.checkRoundEnd. destruct (Nat.leb _ _); cbn; auto.
Qed.

Lemma updatePlaying_state (dt now : R) (players : list Player.t) (m : RoundManager.t) :
  RoundManager.state (fst (fst (RoundManager.updatePlaying dt now players m)))
  = RoundManager.roundEnd \/
  RoundManager.state (fst (fst (RoundManager.updatePlaying dt now players m)))
  = RoundManager.state m.
Proof.
  unfold RoundManager.updatePlaying.
  destruct (updateDamageMultiplier_eq
              (RoundManager.set_roundTime (RoundManager.roundTime m + dt) m)) as [d ->].
  destruct (negb _ && _); destruct (negb _ && _);
    destruct (RoundManager.finalCountdownActive _);
    try destruct (_ <=? _);
    repeat match goal with
      | |- context [RoundManager.forceRoundEnd ?n ?p ?x] =>
          pose proof (forceRoundEnd_state n p x);
          destruct (RoundManager.forceRoundEnd n p x) as [[? ?] ?]
      | |- context [RoundManager.checkRoundEnd ?p ?x] =>
          pose proof (checkRoundEnd_state p x);
          destruct (RoundManager.checkRoundEnd p x) as [[? ?] ?]
      end;
    cbn [fst snd] in *; rm_simpl; tauto.
Qed.

Lemma checkBoundaries_roundManager (now : R) (g : Game.t) :
    Game.roundManager (Game.checkBoundaries now g) = Game.roundManager g.
  Proof. unfold Game.checkBoundaries. destruct (existsb _ _); reflexivity. Qed.

Lemma fixedUpdate_unfold (dt : R) (env : Game.Env) (g : Game.t) :
  Game.fixedUpdate dt env g
  = let g2 := RoundRun.afterRoundManager dt env g in
    let events :=
      snd (RoundManager.update dt (Game.draw env) (Game.now env) (Game.players g)
             (Game.roundManager g)) in
    if negb (RoundManager.isPlaying (Game.roundManager g2)) then
      if RoundManager.State_eqb (RoundManager.state (Game.roundManager g2))
           RoundManager.countdown
         && negb (Game.roundResetDone g2)
      then (Game.set_roundResetDone true (Game.resetForRound g2), events)
      else (g2, events)
    else (RoundRun.playPhase dt env g2, events).
Proof.
  unfold Game.fixedUpdate, RoundRun.afterRoundManager.
  destruct (RoundManager.update dt (Game.draw env) (Game.now env) (Game.players g)
              (Game.roundManager g)) as [[m ps] events].
  reflexivity.
Qed.

Lemma afterRoundManager_fields (dt : R) (env : Game.Env) (g : Game.t) :
  Game.roundManager (RoundRun.afterRoundManager dt env g)
  = fst (fst (RoundManager.update dt (Game.draw env) (Game.now env) (Game.players g)
                (Game.roundManager g))) /\
  Game.players (RoundRun.afterRoundManager dt env g)
  = snd (fst (RoundManager.update dt (Game.draw env) (Game.now env) (Game.players g)
                (Game.roundManager g))).
Proof.
  unfold RoundRun.afterRoundManager.
  destruct (RoundManager.update dt (Game.draw env) (Game.now env) (Game.players g)
              (Game.roundManager g)) as [[m ps] events].
  cbn [fst snd Game.roundManager Game.players Game.set_arena].
  now rewrite dispatch_roundManager, dispatch_players.
Qed.

Lemma playPhase_roundManager (dt : R) (env : Game.Env) (g : Game.t) :
  Game.roundManager (RoundRun.playPhase dt env g) = Game.roundManager g.
Proof.
  unfold RoundRun.playPhase. cbv zeta. now rewrite checkBoundaries_roundManager.
Qed.

Lemma playerStep_distance (dt : R) (env : Game.Env) (frictionMod speedMod : R)
    (arena : Arena.t) (m : RoundManager.t) (p : Player.t) :
  let p' := Game.playerStep dt env frictionMod speedMod arena m p in
  Player.distanceFromCenter p'
  = Some (Vector2.distanceTo (Player.position p')
            (Vector2.mk (Arena.centerX arena) (Arena.centerY arena))).
Proof.
  cbv zeta. unfold Game.playerStep.
  destruct (Player.handleInput (Game.inputs env (Player.id p)) dt speedMod p) as [q res].
  set (q1 := Player.update dt (Some arena) frictionMod q).
  cbv zeta.
  set (q2 := Player.set_distanceFromCenter _ q1).
  assert (H2 : Player.distanceFromCenter q2
               = Some (Vector2.distanceTo (Player.position q2)
                         (Vector2.mk (Arena.centerX arena) (Arena.centerY arena))))
    by reflexivity.
  clearbody q2. clear q1.
  repeat match goal with
         | |- context [if ?c then _ else _] => destruct c
         end; exact H2.
Qed.

Lemma checkArenaBoundary_setAliveCount (count : nat) (p : Player.t) (a : Arena.t) :
  Physics.checkArenaBoundary p (Arena.setAliveCount count a)
  = Physics.checkArenaBoundary p a.
Proof.
  unfold Arena.setAliveCount. destruct (_ && _); reflexivity.
Qed.

Lemma boundaries_none (now : R) (arena : Arena.t) (players : list Player.t) :
  RoundRun.noElimination arena players ->
  map (fun p => if Physics.checkArenaBoundary p arena then Player.eliminate now p else p)
      players = players.
Proof.
  intros Hno. rewrite <- (map_id players) at 2. apply map_ext_in.
  intros p Hp. now rewrite (Hno p Hp).
Qed.

(** *** The driver's fixed step, phase by phase *)

Lemma run_steps (ticks : list RoundRun.Tick) (g : Game.t) :
  Game.run (RoundRun.steps ticks) g = RoundRun.run ticks (g, []).
Proof.
  unfold Game.run, RoundRun.run, RoundRun.steps. generalize (g, @nil RoundManager.Event).
  induction ticks as [|tick ticks IH]; intros st; cbn [map fold_left]; [reflexivity|].
  rewrite IH. f_equal. destruct st as [g0 log]. reflexivity.
Qed.

Lemma pairs_ordered (n : nat) (ij : nat * nat) :
  In ij (Players.pairs n) -> (fst ij < snd ij < n)%nat.
Proof.
  unfold Players.pairs. rewrite in_flat_map. intros (i & Hi & Hin).
  apply in_map_iff in Hin as (j & <- & Hj). apply in_seq in Hi, Hj. cbn. lia.
Qed.

Lemma collidePair_quiet (damageMultiplier pushMod bounceMod : R)
    (players : list Player.t) (ij : nat * nat) :
  RoundRun.noCollision players -> (fst ij < snd ij)%nat ->
  Game.collidePair damageMultiplier pushMod bounceMod players ij = players.
Proof.
  intros Hno Hij. unfold Game.collidePair.
  destruct (Players.get (fst ij) players) as [p1|] eqn:E1; [|reflexivity].
  destruct (Players.get (snd ij) players) as [p2|] eqn:E2; [|reflexivity].
  destruct (Player.isAlive p1) eqn:A1; [|reflexivity].
  destruct (Player.isAlive p2) eqn:A2; [|reflexivity].
  cbn [negb orb]. now rewrite (Hno _ _ _ _ Hij E1 E2 A1 A2).
Qed.

Lemma collisions_quiet (damageMultiplier pushMod bounceMod : R)
    (players : list Player.t) :
  RoundRun.noCollision players ->
  fold_left (Game.collidePair damageMultiplier pushMod bounceMod)
    (Players.pairs (List.length players)) players = players.
Proof.
  intros Hno.
  assert (H : forall l, Forall (fun ij => (fst ij < snd ij)%nat) l ->
                fold_left (Game.collidePair damageMultiplier pushMod bounceMod) l players
                = players).
  { induction 1 as [|ij l Hij _ IH]; cbn [fold_left]; [reflexivity|].
    now rewrite collidePair_quiet. }
  apply H. apply Forall_forall. intros ij Hin. apply pairs_ordered in Hin. lia.
Qed.

(** When the player loop of a step leaves no two living players overlapping
    and no living player wholly outside the arena, the rest of the step
    changes no player. *)
Lemma playPhase_quiet (dt : R) (env : Game.Env) (g : Game.t) :
  let loop := RoundRun.playerLoop dt env g in
  RoundRun.noCollision loop ->
  RoundRun.noElimination
    (Arena.setAliveCount (List.length (filter Player.isAlive loop)) (Game.arena g)) loop ->
  Game.players (RoundRun.playPhase dt env g) = loop.
Proof.
  cbv zeta. intros Hc He. unfold RoundRun.playPhase. cbv zeta.
  set (loop := RoundRun.playerLoop dt env g) in *. clearbody loop.
  unfold Game.checkBoundaries, Game.processCollisionsWithEffects.
  cbn [Game.players Game.set_players Game.set_arena Game.arena].
  rewrite collisions_quiet by exact Hc.
  assert (Hmap : map (fun p => if Physics.checkArenaBoundary p
                                    (Arena.setAliveCount
                                       (List.length (filter Player.isAlive loop))
                                       (Game.arena g))
                               then Player.eliminate (Game.now env) p else p) loop = loop).
  { apply boundaries_none. exact He. }
  destruct (existsb _ _); cbn [Game.players Game.set_players Game.set_arena]; exact Hmap.
Qed.

Lemma playerLoop_isAlive (dt : R) (env : Game.Env) (g : Game.t) :
  map Player.isAlive (RoundRun.playerLoop dt env g) = map Player.isAlive (Game.players g).
Proof.
  unfold RoundRun.playerLoop. rewrite map_map. apply map_ext.
  intros p. apply playerStep_isAlive.
Qed.

Lemma playerLoop_tracked (dt : R) (env : Game.Env) (g : Game.t) :
  RoundRun.tracked (RoundRun.center g) (RoundRun.playerLoop dt env g).
Proof.
  unfold RoundRun.playerLoop, RoundRun.tracked.
  intros p Hp. apply in_map_iff in Hp as (q & <- & _). apply playerStep_distance.
Qed.

(** The arena never moves its center. *)
Lemma update_center (dt : R) (playing : bool) (a : Arena.t) :
  Arena.centerX (Arena.update dt playing a) = Arena.centerX a /\
  Arena.centerY (Arena.update dt playing a) = Arena.centerY a.
Proof.
  unfold Arena.update.
  set (a1 := Arena.set_animation _ _ _ _ a).
  set (a2 := if Arena.centrifugeMode a1 && playing then _ else a1).
  assert (H2 : Arena.centerX a2 = Arena.centerX a /\ Arena.centerY a2 = Arena.centerY a).
  { subst a2 a1. destruct (_ && _); split; reflexivity. }
  clearbody a2. destruct playing; [|exact H2].
  destruct (_ >=? _); cbn; exact H2.
Qed.

Lemma handle_center (g : Game.t) (e : RoundManager.Event) :
  RoundRun.center (Game.handle g e) = RoundRun.center g.
Proof.
  destruct e; try reflexivity. cbn.
  destruct modifier as [m|]; [|reflexivity].
  destruct (CONFIG.key m) as [[]|]; try reflexivity.
  - destruct (CONFIG.arenaScale m); reflexivity.
  - destruct (CONFIG.shrinkSpeed m); reflexivity.
Qed.

Lemma dispatch_center (events : list RoundManager.Event) :
  forall g : Game.t, RoundRun.center (Game.dispatch events g) = RoundRun.center g.
Proof.
  unfold Game.dispatch. induction events as [|e events IH]; intros g; cbn; [reflexivity|].
  rewrite IH. apply handle_center.
Qed.

Lemma afterRoundManager_center (dt : R) (env : Game.Env) (g : Game.t) :
  RoundRun.center (RoundRun.afterRoundManager dt env g) = RoundRun.center g.
Proof.
  unfold RoundRun.afterRoundManager.
  destruct (RoundManager.update dt (Game.draw env) (Game.now env) (Game.players g)
              (Game.roundManager g)) as [[m ps] events].
  unfold RoundRun.center at 1. cbn [Game.arena Game.set_arena].
  destruct (update_center dt
              (RoundManager.isPlaying
                 (Game.roundManager
                    (Game.dispatch events (Game.set_players ps (Game.set_roundManager m g)))))
              (Game.arena
                 (Game.dispatch events (Game.set_players ps (Game.set_roundManager m g)))))
    as [-> ->].
  apply (dispatch_center events (Game.set_players ps (Game.set_roundManager m g))).
Qed.

Lemma playPhase_center (dt : R) (env : Game.Env) (g : Game.t) :
  RoundRun.center (RoundRun.playPhase dt env g) = RoundRun.center g.
Proof.
  unfold RoundRun.playPhase. cbv zeta.
  unfold Game.checkBoundaries, Game.processCollisionsWithEffects, RoundRun.center.
  cbn [Game.players Game.set_players Game.set_arena Game.arena].
  destruct (existsb _ _); cbn [Game.players Game.set_players Game.set_arena Game.arena];
    unfold Arena.setAliveCount; destruct (_ && _); reflexivity.
Qed.

(** A fixed step from a state in which the round is being played. *)
Lemma fixedUpdate_playing (dt : R) (env : Game.Env) (g : Game.t) :
  RoundManager.state (Game.roundManager g) = RoundManager.playing ->
  let out :=
    RoundManager.updatePlaying dt (Game.now env) (Game.players g) (Game.roundManager g) in
  let g2 := RoundRun.afterRoundManager dt env g in
  Game.roundManager g2 = fst (fst out) /\
  Game.players g2 = snd (fst out) /\
  Game.fixedUpdate dt env g
  = (if RoundManager.isPlaying (fst (fst out)) then RoundRun.playPhase dt env g2 else g2,
     snd out).
Proof.
  intros Hst. cbv zeta. rewrite fixedUpdate_unfold. cbv zeta.
  destruct (afterRoundManager_fields dt env g) as [Hm Hps].
  pose proof (updatePlaying_state dt (Game.now env) (Game.players g) (Game.roundManager g))
    as Hs.
  unfold RoundManager.update in *. rewrite Hst in *.
  set (g2 := RoundRun.afterRoundManager dt env g) in *. clearbody g2.
  destruct (RoundManager.updatePlaying dt (Game.now env) (Game.players g)
              (Game.roundManager g)) as [[m ps] events].
  cbn [fst snd] in *. rewrite Hm. split; [reflexivity|]. split; [exact Hps|].
  unfold RoundManager.isPlaying.
  destruct Hs as [He | He]; rewrite He; cbn [RoundManager.State_eqb negb andb]; reflexivity.
Qed.

(** A quiet step of a round that goes on: the round manager is the updated
    one, nobody's [isAlive] has changed, and the stored distances are the
    distances of the positions from the center. *)
Lemma quiet_tick (dt : R) (env : Game.Env) (g : Game.t) (m' : RoundManager.t)
    (events : list RoundManager.Event) :
  RoundManager.state (Game.roundManager g) = RoundManager.playing ->
  RoundManager.updatePlaying dt (Game.now env) (Game.players g) (Game.roundManager g)
  = (m', Game.players g, events) ->
  RoundManager.state m' = RoundManager.playing ->
  RoundRun.quietStep g (dt, env) ->
  exists g',
    Game.fixedUpdate dt env g = (g', events) /\
    Game.roundManager g' = m' /\
    Players.alive (Game.players g') = Players.alive (Game.players g) /\
    RoundRun.tracked (RoundRun.center g) (Game.players g') /\
    RoundRun.center g' = RoundRun.center g.
Proof.
  intros Hst Hup Hst' Hquiet.
  destruct (fixedUpdate_playing dt env g Hst) as (Hm & Hps & Hfix).
  rewrite Hup in Hm, Hps, Hfix. cbn [fst snd] in Hm, Hps, Hfix.
  unfold RoundRun.quietStep in Hquiet. cbn [fst snd] in Hquiet. cbv zeta in Hquiet.
  pose proof (afterRoundManager_center dt env g) as Hc.
  set (g2 := RoundRun.afterRoundManager dt env g) in *. clearbody g2.
  assert (Hplay : RoundManager.isPlaying m' = true).
  { unfold RoundManager.isPlaying. now rewrite Hst'. }
  rewrite Hplay in Hfix. rewrite Hm in Hquiet.
  destruct (Hquiet Hplay) as [Hnc Hne].
  exists (RoundRun.playPhase dt env g2).
  split; [exact Hfix|]. split; [now rewrite playPhase_roundManager|].
  rewrite (playPhase_quiet dt env g2 Hnc Hne). split; [|split].
  - apply alive_flags. rewrite playerLoop_isAlive. now rewrite Hps.
  - rewrite <- Hc. apply playerLoop_tracked.
  - now rewrite playPhase_center.
Qed.

(** The step in which the round manager ends the round. *)
Lemma ending_tick (dt : R) (env : Game.Env) (g : Game.t) (m' : RoundManager.t)
    (players' : list Player.t) (events : list RoundManager.Event) :
  RoundManager.state (Game.roundManager g) = RoundManager.playing ->
  RoundManager.updatePlaying dt (Game.now env) (Game.players g) (Game.roundManager g)
  = (m', players', events) ->
  RoundManager.state m' = RoundManager.roundEnd ->
  exists g',
    Game.fixedUpdate dt env g = (g', events) /\
    Game.roundManager g' = m' /\
    Game.players g' = players'.
Proof.
  intros Hst Hup Hst'.
  destruct (fixedUpdate_playing dt env g Hst) as (Hm & Hps & Hfix).
  rewrite Hup in Hm, Hps, Hfix. cbn [fst snd] in Hm, Hps, Hfix.
  assert (Hplay : RoundManager.isPlaying m' = false).
  { unfold RoundManager.isPlaying. now rewrite Hst'. }
  rewrite Hplay in Hfix. eauto.
Qed.

(** A step while the round manager waits to leave the round-end state. *)
Lemma waiting_tick (dt : R) (env : Game.Env) (g : Game.t) :
  RoundManager.state (Game.roundManager g) = RoundManager.roundEnd ->
  0 < RoundManager.roundEndTimer (Game.roundManager g) - dt ->
  exists g',
    Game.fixedUpdate dt env g = (g', []) /\
    Game.roundManager g'
    = RoundManager.set_roundEndTimer (RoundManager.roundEndTimer (Game.roundManager g) - dt)
        (Game.roundManager g) /\
    Game.players g' = Game.players g.
Proof.
  intros Hst Htimer. rewrite fixedUpdate_unfold. cbv zeta.
  destruct (afterRoundManager_fields dt env g) as [Hm Hps].
  unfold RoundManager.update in *. rewrite Hst in *.
  rewrite updateRoundEnd_waiting in * by exact Htimer. cbn [fst snd] in *.
  set (g2 := RoundRun.afterRoundManager dt env g) in *. clearbody g2.
  unfold RoundManager.isPlaying. rewrite Hm. rm_simpl. rewrite Hst.
  cbn [RoundManager.State_eqb negb andb]. eauto.
Qed.

(** While the round is being played the round manager fires no callback
    that touches the arena or installs a modifier. *)
Lemma forceRoundEnd_inRound (now : R) (players : list Player.t) (m : RoundManager.t) :
  forallb RoundRun.inRound (snd (RoundManager.forceRoundEnd now players m)) = true.
Proof.
  unfold RoundManager.forceRoundEnd.
  destruct (Players.alive players) as [|a [|b rest]]; reflexivity.
Qed.

Lemma checkRoundEnd_inRound (players : list Player.t) (m : RoundManager.t) :
  forallb RoundRun.inRound (snd (RoundManager.checkRoundEnd players m)) = true.
Proof.
  unfold RoundManager.checkRoundEnd. destruct (Nat.leb _ _); reflexivity.
Qed.

Lemma updatePlaying_inRound (dt now : R) (players : list Player.t) (m : RoundManager.t) :
  forallb RoundRun.inRound (snd (RoundManager.updatePlaying dt now players m)) = true.
Proof.
  unfold RoundManager.updatePlaying.
  destruct (updateDamageMultiplier_eq
              (RoundManager.set_roundTime (RoundManager.roundTime m + dt) m)) as [d ->].
  destruct (negb _ && _); destruct (negb _ && _);
    destruct (RoundManager.finalCountdownActive _);
    try destruct (_ <=? _);
    repeat match goal with
      | |- context [RoundManager.forceRoundEnd ?n ?p ?x] =>
          pose proof (forceRoundEnd_inRound n p x);
          destruct (RoundManager.forceRoundEnd n p x) as [[? ?] ?]
      | |- context [RoundManager.checkRoundEnd ?p ?x] =>
          pose proof (checkRoundEnd_inRound p x);
          destruct (RoundManager.checkRoundEnd p x) as [[? ?] ?]
      end;
    cbn [snd] in *; rewrite ?forallb_app; cbn; assumption.
Qed.

Lemma dispatch_inRound (events : list RoundManager.Event) :
  forall g : Game.t,
    forallb RoundRun.inRound events = true ->
    Game.arena (Game.dispatch events g) = Game.arena g /\
    (Game.activeModifier g = None -> Game.activeModifier (Game.dispatch events g) = None).
Proof.
  unfold Game.dispatch.
  induction events as [|e events IH]; intros g H; cbn in *; [auto|].
  apply andb_true_iff in H as [He Hes].
  destruct (IH (Game.handle g e) Hes) as [Ha Hm].
  destruct e; try discriminate; cbn in *; auto.
Qed.

Lemma afterRoundManager_inRound (dt : R) (env : Game.Env) (g : Game.t) :
  RoundManager.state (Game.roundManager g) = RoundManager.playing ->
  let g2 := RoundRun.afterRoundManager dt env g in
  Game.arena g2
  = Arena.update dt (RoundManager.isPlaying (Game.roundManager g2)) (Game.arena g) /\
  (Game.activeModifier g = None -> Game.activeModifier g2 = None).
Proof.
  intros Hst. cbv zeta. unfold RoundRun.afterRoundManager.
  pose proof (updatePlaying_inRound dt (Game.now env) (Game.players g)
                (Game.roundManager g)) as Hev.
  unfold RoundManager.update. rewrite Hst.
  destruct (RoundManager.updatePlaying dt (Game.now env) (Game.players g)
              (Game.roundManager g)) as [[m ps] events].
  cbn [snd] in Hev.
  destruct (dispatch_inRound events (Game.set_players ps (Game.set_roundManager m g)) Hev)
    as [Ha Hm].
  cbn [Game.arena Game.set_arena Game.roundManager Game.activeModifier] in *.
  rewrite Ha. split; [reflexivity | exact Hm].
Qed.

(** *** The state in which the driver starts a round *)

Lemma fixedUpdate_roundManager (dt : R) (env : Game.Env) (g : Game.t) :
  Game.roundManager (fst (Game.fixedUpdate dt env g))
  = fst (fst (RoundManager.update dt (Game.draw env) (Game.now env) (Game.players g)
                (Game.roundManager g))).
Proof.
  rewrite fixedUpdate_unfold. cbv zeta.
  destruct (afterRoundManager_fields dt env g) as [Hm _]. rewrite <- Hm.
  destruct (negb _); [destruct (_ && _)|]; cbn [fst].
  - reflexivity.
  - reflexivity.
  - apply playPhase_roundManager.
Qed.

Lemma fixedUpdate_events (dt : R) (env : Game.Env) (g : Game.t) :
  snd (Game.fixedUpdate dt env g)
  = snd (RoundManager.update dt (Game.draw env) (Game.now env) (Game.players g)
           (Game.roundManager g)).
Proof.
  rewrite fixedUpdate_unfold. cbv zeta.
  destruct (negb _); [destruct (_ && _)|]; reflexivity.
Qed.

Lemma startNewMatch_roundManager (draw : RoundManager.Draw) (g : Game.t) :
  Game.roundManager (fst (Game.startNewMatch draw g))
  = fst (RoundManager.startMatch draw (Game.roundManager g)).
Proof.
  unfold Game.startNewMatch.
  cbn [Game.roundManager Game.set_roundResetDone Game.set_players Game.set_arena].
  destruct (RoundManager.startMatch draw (Game.roundManager g)) as [m events].
  cbn [fst]. now rewrite dispatch_roundManager.
Qed.

Lemma startCountdown_rested (draw : RoundManager.Draw) (m : RoundManager.t) :
  RoundRun.rested (fst (RoundManager.startCountdown draw m)).
Proof.
  intros _. unfold RoundManager.startCountdown. cbv zeta.
  destruct (Nat.leb _ _); reflexivity.
Qed.

Lemma updateCountdown_finalCountdownActive (dt : R) (m : RoundManager.t) :
  RoundManager.finalCountdownActive (fst (RoundManager.updateCountdown dt m))
  = RoundManager.finalCountdownActive m.
Proof.
  unfold RoundManager.updateCountdown.
  destruct (_ <=? _); [destruct (_ <=? _)%Z|]; reflexivity.
Qed.

Lemma updateRoundEnd_rested (dt : R) (draw : RoundManager.Draw)
    (players : list Player.t) (m : RoundManager.t) :
  RoundManager.state m = RoundManager.roundEnd ->
  RoundRun.rested (fst (RoundManager.updateRoundEnd dt draw players m)).
Proof.
  intros Hst. unfold RoundManager.updateRoundEnd.
  destruct (_ <=? _).
  - destruct (RoundManager.findMatchWinner players).
    + intros [H | H]; discriminate H.
    + apply startCountdown_rested.
  - intros [H | H]; cbn in H; congruence.
Qed.

Lemma update_rested (dt : R) (draw : RoundManager.Draw) (now : R)
    (players : list Player.t) (m : RoundManager.t) :
  RoundRun.rested m -> RoundRun.rested (fst (fst (RoundManager.update dt draw now players m))).
Proof.
  intros Hm. unfold RoundManager.update. destruct (RoundManager.state m) eqn:Hst.
  - exact Hm.
  - pose proof (updateCountdown_finalCountdownActive dt m) as Hf.
    destruct (RoundManager.updateCountdown dt m) as [m1 ev]. cbn [fst] in *.
    intros _. rewrite Hf. apply Hm. now left.
  - pose proof (updatePlaying_state dt now players m) as Hs. rewrite Hst in Hs.
    intros [H | H]; destruct Hs as [Hs | Hs]; congruence.
  - pose proof (updateRoundEnd_rested dt draw players m Hst) as Hr.
    destruct (RoundManager.updateRoundEnd dt draw players m) as [m1 ev]. exact Hr.
  - exact Hm.
Qed.

Lemma step_rested (s : Game.Step) (g : Game.t) :
  RoundRun.rested (Game.roundManager g) ->
  RoundRun.rested (Game.roundManager (fst (Game.step s g))).
Proof.
  intros H. destruct s as [dt env | draw | phases count]; cbn [Game.step].
  - rewrite fixedUpdate_roundManager. now apply update_rested.
  - destruct (_ || _); [|exact H].
    rewrite startNewMatch_roundManager. apply startCountdown_rested.
  - exact H.
Qed.

Lemma run_rested (steps : list Game.Step) :
  forall (g : Game.t) (log : list RoundManager.Event),
    RoundRun.rested (Game.roundManager g) ->
    RoundRun.rested
      (Game.roundManager
         (fst (fold_left
                 (fun '(g, log) s =>
                    let '(g', events) := Game.step s g in (g', log ++ events))
                 steps (g, log)))).
Proof.
  induction steps as [|s steps IH]; intros g log Hg; cbn [fold_left].
  - exact Hg.
  - pose proof (step_rested s g Hg) as Hs.
    destruct (Game.step s g) as [g' events]. cbn [fst] in Hs. now apply IH.
Qed.

Lemma inRound_no_start (events : list RoundManager.Event) :
  forallb RoundRun.inRound events = true ->
  existsb RoundRun.isRoundStart events = false.
Proof.
  induction events as [|e events IH]; cbn; [reflexivity|].
  intros H. apply andb_true_iff in H as [He Hes]. rewrite (IH Hes).
  destruct e; try discriminate He; reflexivity.
Qed.

(** Every round the driver starts, in any execution of the game, begins
    fresh: the fixed step that fires the round-start callback leaves the
    round manager in the playing state at round time 0 with the final
    countdown not running. *)
Lemma round_starts_fresh (phases : nat -> R) (steps : list Game.Step)
    (dt : R) (env : Game.Env) :
  let g := fst (Game.run steps (Game.new phases)) in
  let m' := Game.roundManager (fst (Game.fixedUpdate dt env g)) in
  existsb RoundRun.isRoundStart (snd (Game.fixedUpdate dt env g)) = true ->
  RoundManager.state m' = RoundManager.playing /\
  RoundManager.roundTime m' = 0 /\
  RoundManager.finalCountdownActive m' = false.
Proof.
  cbv zeta. rewrite fixedUpdate_roundManager, fixedUpdate_events.
  assert (Hg : RoundRun.rested (Game.roundManager (fst (Game.run steps (Game.new phases))))).
  { unfold Game.run. apply run_rested. intros _. reflexivity. }
  set (g := fst (Game.run steps (Game.new phases))) in *. clearbody g.
  unfold RoundManager.update. destruct (RoundManager.state (Game.roundManager g)) eqn:Hst.
  - intros H. discriminate H.
  - unfold RoundManager.updateCountdown. rm_simpl.
    destruct (_ <=? _); [destruct (_ <=? _)%Z|]; cbn [fst snd].
    + intros _. rm_simpl. repeat split. apply Hg. now left.
    + intros H. discriminate H.
    + intros H. discriminate H.
  - rewrite (inRound_no_start _ (updatePlaying_inRound dt (Game.now env) (Game.players g)
                                  (Game.roundManager g))).
    intros H. discriminate H.
  - unfold RoundManager.updateRoundEnd. rm_simpl.
    destruct (_ <=? _); [destruct (RoundManager.findMatchWinner _)|]; cbn [snd];
      intros H; discriminate H.
  - intros H. discriminate H.
Qed.

(** *** The invariant of a quiet round *)

Section RoundTermination.

Variable g0 : Game.t.
Hypothesis Hmany : (2 <= List.length (Players.alive (Game.players g0)))%nat.

Lemma tick_beforeCountdown (T : R) (st : Game.t * list RoundManager.Event)
    (tick : RoundRun.Tick) :
  RoundRun.beforeCountdown g0 T st ->
  0 < fst tick < 1000 ->
  RoundRun.quietStep (fst st) tick ->
  RoundRun.inv g0 (T + fst tick) (RoundRun.step st tick).
Proof.
  destruct st as [g log]. destruct tick as [dt env].
  unfold RoundRun.beforeCountdown, RoundRun.common. cbn [fst snd RoundRun.step].
  intros ((Hst & Hround & Halive & Hlog & Hcenter) & Hfca & Hrt & HT & Htr) Hdt Hquiet.
  unfold CONFIG.ESCALATION.FINAL_COUNTDOWN_START in HT.
  assert (Hmany' : (2 <= List.length (Players.alive (Game.players g)))%nat)
    by now rewrite Halive.
  destruct (Rlt_dec (T + dt) CONFIG.ESCALATION.FINAL_COUNTDOWN_START) as [Hlt|Hge].
  - destruct (updatePlaying_before dt (Game.now env) (Game.players g) (Game.roundManager g)
                Hmany' Hfca)
      as (m' & ev & Heq & Hst' & Hround' & Hfca' & Hrt' & Hev); [now rewrite Hrt|].
    rewrite Hst in Hst'.
    destruct (quiet_tick dt env g m' ev Hst Heq Hst' Hquiet)
      as (g' & -> & Hm' & Halive' & Htracked & Hcenter').
    left. unfold RoundRun.beforeCountdown, RoundRun.common. cbn [fst snd]. rewrite Hm'.
    repeat split;
      first [ congruence
            | assumption
            | (right; now rewrite <- Hcenter)
            | (now apply existsb_isRoundEnd_app) ].
  - apply Rnot_lt_le in Hge.
    destruct (updatePlaying_latch dt (Game.now env) (Game.players g) (Game.roundManager g)
                Hmany' Hfca)
      as (m' & ev & Heq & Hst' & Hround' & Hfca' & Hrt' & Hfct' & Hev);
      [now rewrite Hrt | unfold CONFIG.ESCALATION.FINAL_COUNTDOWN_DURATION; lra |].
    rewrite Hst in Hst'.
    destruct (quiet_tick dt env g m' ev Hst Heq Hst' Hquiet)
      as (g' & -> & Hm' & Halive' & Htracked & Hcenter').
    right. left. unfold RoundRun.duringCountdown, RoundRun.common. cbn [fst snd]. rewrite Hm'.
    unfold CONFIG.ESCALATION.FINAL_COUNTDOWN_START in Hge.
    unfold CONFIG.ESCALATION.FINAL_COUNTDOWN_DURATION in Hfct'.
    repeat split;
      first [ congruence
            | assumption
            | (now rewrite <- Hcenter)
            | (now apply existsb_isRoundEnd_app)
            | (rewrite Hfct'; lra) ].
Qed.

Lemma tick_duringCountdown (T : R) (st : Game.t * list RoundManager.Event)
    (tick : RoundRun.Tick) :
  RoundRun.duringCountdown g0 T st ->
  0 < fst tick < 1000 ->
  RoundRun.quietStep (fst st) tick ->
  RoundRun.inv g0 (T + fst tick) (RoundRun.step st tick).
Proof.
  destruct st as [g log]. destruct tick as [dt env].
  unfold RoundRun.duringCountdown, RoundRun.common. cbn [fst snd RoundRun.step].
  intros ((Hst & Hround & Halive & Hlog & Hcenter) & Hfca & Hpos & Hsum & Htr) Hdt Hquiet.
  assert (Hmany' : (2 <= List.length (Players.alive (Game.players g)))%nat)
    by now rewrite Halive.
  destruct (Rlt_dec 0 (RoundManager.finalCountdownTime (Game.roundManager g) - dt))
    as [Hleft|Hout].
  - destruct (updatePlaying_counting dt (Game.now env) (Game.players g)
                (Game.roundManager g) Hmany' Hfca Hleft)
      as (m' & ev & Heq & Hst' & Hround' & Hfca' & Hrt' & Hfct' & Hev).
    rewrite Hst in Hst'.
    destruct (quiet_tick dt env g m' ev Hst Heq Hst' Hquiet)
      as (g' & -> & Hm' & Halive' & Htracked & Hcenter').
    right. left. unfold RoundRun.duringCountdown, RoundRun.common. cbn [fst snd]. rewrite Hm'.
    repeat split;
      first [ congruence
            | assumption
            | (now rewrite <- Hcenter)
            | (now apply existsb_isRoundEnd_app)
            | (rewrite Hfct'; lra) ].
  - apply Rnot_lt_le in Hout. clear Hquiet.
    destruct (updatePlaying_expired dt (Game.now env) (Game.players g)
                (Game.roundManager g) Hfca Hout)
      as (m1 & ev & Heq & Hround1 & Hev).
    destruct (forceRoundEnd_many (Game.now env) (Game.players g) m1 Hmany')
      as (w & pw & Hpw & Hwa & Hmin & Hstrict & players' & Hforce & Hlen' & Hafter).
    rewrite Hforce in Heq.
    match type of Heq with
    | _ = (?m, _, _) =>
        destruct (ending_tick dt env g m players' _ Hst Heq eq_refl)
          as (g' & -> & Hm' & Hps')
    end.
    right. right. unfold RoundRun.afterForcedEnd, RoundRun.timedOut. cbn [fst snd].
    rewrite Hm', Hps'. rm_simpl. unfold CONFIG.ROUNDS.ROUND_END_DELAY.
    split; [lra|]. split; [reflexivity|].
    exists w, (Roster.afterForcedEnd (Game.now env) w w pw).
    split; [now apply Hafter|]. split; [reflexivity|]. split; [|split; [|split; [|split]]].
    + exists (log ++ ev). split.
      * rewrite Hround1, Hround. now rewrite app_assoc.
      * now apply existsb_isRoundEnd_app.
    + rewrite <- Halive. apply alive_In. eauto.
    + unfold Roster.afterForcedEnd. rewrite Nat.eqb_refl. exact Hwa.
    + intros j pj' Hj' Hjw.
      destruct (get_defined j (Game.players g) players' pj' Hlen' Hj') as [pj Hj].
      rewrite (Hafter j pj Hj) in Hj'. injection Hj' as <-.
      unfold Roster.afterForcedEnd.
      destruct (Nat.eqb_spec j w); [contradiction|].
      now destruct (Player.isAlive pj) eqn:Ea.
    + intros j pj' Hj' Hin.
      destruct (get_defined j (Game.players g) players' pj' Hlen' Hj') as [pj Hj].
      rewrite (Hafter j pj Hj) in Hj'. injection Hj' as <-.
      rewrite !afterForcedEnd_position.
      rewrite <- Halive in Hin. apply alive_In in Hin as (q & Hq & Hqa).
      assert (q = pj) by congruence. subst q.
      rewrite <- (storedDistance_tracked (RoundRun.center g0) (Game.players g) w pw Htr Hpw).
      rewrite <- (storedDistance_tracked (RoundRun.center g0) (Game.players g) j pj Htr Hj).
      split; [now apply (Hmin j pj) | now apply (Hstrict j pj)].
Qed.

Lemma tick_afterForcedEnd (T : R) (st : Game.t * list RoundManager.Event)
    (tick : RoundRun.Tick) :
  RoundRun.afterForcedEnd g0 T st ->
  0 < fst tick ->
  T + fst tick <= 26000 ->
  RoundRun.inv g0 (T + fst tick) (RoundRun.step st tick).
Proof.
  destruct st as [g log]. destruct tick as [dt env].
  unfold RoundRun.afterForcedEnd, RoundRun.timedOut. cbn [fst snd RoundRun.step].
  intros (Htimer & Hst & Hfinal) Hdt Hbound.
  destruct (waiting_tick dt env g Hst ltac:(lra)) as (g' & -> & Hm' & Hps').
  right. right. unfold RoundRun.afterForcedEnd, RoundRun.timedOut. cbn [fst snd].
  rewrite Hm', Hps'. rm_simpl. rewrite app_nil_r.
  split; [lra|]. split; [exact Hst | exact Hfinal].
Qed.

Lemma tick_inv (T : R) (st : Game.t * list RoundManager.Event) (tick : RoundRun.Tick) :
  RoundRun.inv g0 T st ->
  0 < fst tick < 1000 ->
  RoundRun.quietStep (fst st) tick ->
  T + fst tick <= 26000 ->
  RoundRun.inv g0 (T + fst tick) (RoundRun.step st tick).
Proof.
  intros [HA | [HB | HC]] Hdt Hquiet Hbound.
  - now apply tick_beforeCountdown.
  - now apply tick_duringCountdown.
  - apply tick_afterForcedEnd; [exact HC | lra | exact Hbound].
Qed.

Lemma elapsed_nonneg (ticks : list RoundRun.Tick) :
  Forall (fun tick : RoundRun.Tick => 0 < fst tick < 1000) ticks ->
  0 <= RoundRun.elapsed ticks.
Proof.
  induction 1 as [|tick ticks Hdt _ IH]; [cbn; lra|].
  change (0 <= fst tick + RoundRun.elapsed ticks). lra.
Qed.

Lemma step_fst (st : Game.t * list RoundManager.Event) (tick : RoundRun.Tick) :
  fst (RoundRun.step st tick) = fst (Game.fixedUpdate (fst tick) (snd tick) (fst st)).
Proof.
  destruct st as [g log]. cbn [RoundRun.step fst].
  now destruct (Game.fixedUpdate (fst tick) (snd tick) g).
Qed.

Lemma run_inv (ticks : list RoundRun.Tick) :
  forall (T : R) (st : Game.t * list RoundManager.Event),
    RoundRun.inv g0 T st ->
    Forall (fun tick : RoundRun.Tick => 0 < fst tick < 1000) ticks ->
    RoundRun.quiet ticks (fst st) ->
    T + RoundRun.elapsed ticks <= 26000 ->
    RoundRun.inv g0 (T + RoundRun.elapsed ticks) (RoundRun.run ticks st).
Proof.
  induction ticks as [|tick ticks IH]; intros T st Hinv Hall Hquiet Hbound.
  - cbn. now rewrite Rplus_0_r.
  - inversion Hall as [|? ? Hdt Hrest]; subst.
    destruct Hquiet as [Hstep Hquiet].
    pose proof (elapsed_nonneg ticks Hrest) as Hpos.
    change (RoundRun.elapsed (tick :: ticks)) with (fst tick + RoundRun.elapsed ticks) in *.
    change (RoundRun.run (tick :: ticks) st) with (RoundRun.run ticks (RoundRun.step st tick)).
    replace (T + (fst tick + RoundRun.elapsed ticks))
      with ((T + fst tick) + RoundRun.elapsed ticks) by ring.
    apply IH; [|exact Hrest| |lra].
    + apply tick_inv; auto. lra.
    + now rewrite step_fst.
Qed.

End RoundTermination.

Lemma elapsed_app (l1 l2 : list RoundRun.Tick) :
  RoundRun.elapsed (l1 ++ l2) = RoundRun.elapsed l1 + RoundRun.elapsed l2.
Proof.
  unfold RoundRun.elapsed.
  induction l1 as [|tick l1 IH]; cbn [app fold_right]; [lra|].
  rewrite IH. ring.
Qed.

Lemma elapsed_last (ticks : list RoundRun.Tick) (bound : R) :
  Forall (fun tick : RoundRun.Tick => fst tick < bound) ticks ->
  0 < bound ->
  RoundRun.elapsed ticks < RoundRun.elapsed (removelast ticks) + bound.
Proof.
  intros Hall Hb. destruct ticks as [|t ts] using rev_ind; [cbn; lra|].
  rewrite removelast_last, elapsed_app.
  apply Forall_app in Hall as [_ Hlast]. inversion Hlast; subst.
  unfold RoundRun.elapsed at 2. cbn [fold_right]. lra.
Qed.

(** C1 (amended).  The driver's fixed step is run tick by tick from a game
    in which the round is being played, at round time 0 with the final
    countdown not yet running (the state in which every round starts,
    [round_starts_fresh]) and with at least two living actors; each tick is
    longer than 0 and shorter than a second (the driver's is 1000/60 ms);
    no tick has a collision or a boundary elimination; and the run stops
    with the first tick at which the cumulative time exceeds
    [FINAL_COUNTDOWN_START + FINAL_COUNTDOWN_DURATION].  Then the round has
    ended: the state is [roundEnd], the round-end callback has fired once,
    with reason [timeout], and of the living actors only the one nearest the
    arena center (the earliest in the players array among the equally near)
    survives; the others are eliminated. *)
Theorem round_always_ends (g0 : Game.t) (ticks : list RoundRun.Tick) :
  RoundManager.state (Game.roundManager g0) = RoundManager.playing ->
  RoundManager.roundTime (Game.roundManager g0) = 0 ->
  RoundManager.finalCountdownActive (Game.roundManager g0) = false ->
  (2 <= List.length (Players.alive (Game.players g0)))%nat ->
  Forall (fun tick : RoundRun.Tick => 0 < fst tick < 1000) ticks ->
  RoundRun.quiet ticks g0 ->
  RoundRun.elapsed (removelast ticks)
  <= CONFIG.ESCALATION.FINAL_COUNTDOWN_START + CONFIG.ESCALATION.FINAL_COUNTDOWN_DURATION ->
  CONFIG.ESCALATION.FINAL_COUNTDOWN_START + CONFIG.ESCALATION.FINAL_COUNTDOWN_DURATION
  < RoundRun.elapsed ticks ->
  RoundRun.timedOut g0 (Game.run (RoundRun.steps ticks) g0).
Proof.
  unfold CONFIG.ESCALATION.FINAL_COUNTDOWN_START, CONFIG.ESCALATION.FINAL_COUNTDOWN_DURATION.
  intros Hst Hrt Hfca Hmany Hall Hquiet Hprefix Htotal.
  assert (Hlast : RoundRun.elapsed ticks < RoundRun.elapsed (removelast ticks) + 1000).
  { apply elapsed_last; [|lra]. eapply Forall_impl; [|exact Hall]. cbn. intros t H. lra. }
  assert (Hinit : RoundRun.inv g0 0 (g0, [])).
  { left. unfold RoundRun.beforeCountdown, RoundRun.common. cbn [fst snd].
    unfold CONFIG.ESCALATION.FINAL_COUNTDOWN_START. repeat split; auto; lra. }
  pose proof (run_inv g0 Hmany ticks 0 _ Hinit Hall Hquiet) as Hinv.
  rewrite Rplus_0_l in Hinv. specialize (Hinv ltac:(lra)).
  rewrite run_steps.
  destruct (RoundRun.run ticks (g0, [])) as [g log].
  destruct Hinv as [HA | [HB | HC]].
  - unfold RoundRun.beforeCountdown, CONFIG.ESCALATION.FINAL_COUNTDOWN_START in HA.
    destruct HA as (_ & _ & _ & HT & _). lra.
  - unfold RoundRun.duringCountdown in HB.
    destruct HB as (_ & _ & Hpos & Hsum & _). lra.
  - exact (proj2 HC).
Qed.

(** *** A round in which the players hold their positions *)

Lemma magnitude_zero (v : Vector2.t) : Vector2.magnitude v <= 0 -> v = Vector2.zero.
Proof.
  destruct v as [a b]. unfold Vector2.magnitude, Vector2.zero. cbn [Vector2.x Vector2.y].
  pose proof (norm_sqr a b) as Hs. pose proof (norm_nonneg a b) as Hn. intros H.
  assert (a = 0 /\ b = 0) as [-> ->] by (split; nra). reflexivity.
Qed.

Lemma tickTimers_rest (dt : R) (p : Player.t) :
  Player.isDashing p = false -> Player.dashCooldown p = 0 -> Dash.tickTimers dt p = p.
Proof.
  intros Hd Hc. unfold Dash.tickTimers. rewrite Hc.
  assert (E : (0 >? 0) = false) by (apply gtb_false; lra).
  rewrite E, Hd. reflexivity.
Qed.

Lemma handleInput_against (dt : R) (p : Player.t) :
  Player.isAlive p = true -> Player.isDashing p = false -> Player.dashCooldown p = 0 ->
  let q := fst (Player.handleInput (Hold.against p) dt 1 p) in
  Player.velocity q = Vector2.zero /\ Player.position q = Player.position p /\
  Player.id q = Player.id p /\ Player.isAlive q = true /\
  Player.isDashing q = false /\ Player.dashCooldown q = 0 /\
  Player.radius q = Player.radius p.
Proof.
  intros Ha Hd Hc. cbv zeta.
  rewrite handleInput_alive by exact Ha. cbv zeta.
  rewrite tickTimers_rest by assumption.
  unfold Hold.against. cbn [Player.dash Player.movement andb]. rewrite Hd. cbn [negb andb].
  destruct (_ >? 0) eqn:E; cbn [fst].
  - cbn. rewrite Ha, Hd, Hc. repeat split; try reflexivity.
    unfold Vector2.add, Vector2.multiply, Vector2.zero, CONFIG.PLAYER.ACCELERATION.
    cbn [Vector2.x Vector2.y]. f_equal; field; lra.
  - apply gtb_false in E. apply magnitude_zero in E.
    unfold Vector2.multiply, Vector2.zero, CONFIG.PLAYER.ACCELERATION in E.
    injection E as Ex Ey.
    assert (Hv : Player.velocity p = Vector2.zero).
    { destruct (Player.velocity p) as [a b]. cbn [Vector2.x Vector2.y] in Ex, Ey.
      unfold Vector2.zero. f_equal; lra. }
    repeat split; assumption.
Qed.

Lemma updateVisualEffects_build (dt : R) (arena : option Arena.t) (p : Player.t) :
  let p' := Player.updateVisualEffects dt arena p in
  Player.id p' = Player.id p /\ Player.radius p' = Player.radius p /\
  Player.isDashing p' = Player.isDashing p /\
  Player.dashCooldown p' = Player.dashCooldown p.
Proof.
  cbv zeta. unfold Player.updateVisualEffects.
  destruct arena as [ar|];
    repeat match goal with
           | |- context [if ?c then _ else _] => destruct c
           end; repeat split; reflexivity.
Qed.

Lemma update_build (dt : R) (arena : option Arena.t) (fm : R) (p : Player.t) :
  let p' := Player.update dt arena fm p in
  Player.id p' = Player.id p /\ Player.radius p' = Player.radius p /\
  Player.isDashing p' = Player.isDashing p /\
  Player.dashCooldown p' = Player.dashCooldown p.
Proof.
  cbv zeta. unfold Player.update. destruct (negb (Player.isAlive p)); [repeat split|].
  match goal with
  | |- context [Player.updateVisualEffects ?d ?a ?q] =>
      destruct (updateVisualEffects_build d a q) as (-> & -> & -> & ->)
  end.
  repeat match goal with
         | |- context [if ?c then _ else _] =>
             lazymatch c with
             | Player.isDashing _ => fail
             | _ => destruct c
             end
         end; repeat split; reflexivity.
Qed.

Lemma update_position (dt : R) (arena : option Arena.t) (fm : R) (p : Player.t) :
  Player.isAlive p = true ->
  Player.position (Player.update dt arena fm p)
  = Vector2.add (Player.position p)
      (Vector2.limit (Vector2.multiply (Player.velocity p) (Player.clampedFriction fm p))
         (Player.maxSpeed p)).
Proof.
  intros Halive. unfold Player.update. rewrite Halive. cbn [negb].
  match goal with
  | |- context [Player.updateVisualEffects ?d ?a ?q] =>
      destruct (updateVisualEffects_motion d a q) as [_ ->]
  end.
  unfold Player.clampedFriction, Player.maxSpeed.
  repeat match goal with
         | |- context [if ?c then _ else _] =>
             lazymatch c with
             | Player.isDashing _ => fail
             | _ => destruct c
             end
         end; reflexivity.
Qed.

Lemma update_at_rest (dt : R) (arena : option Arena.t) (fm : R) (p : Player.t) :
  Player.isAlive p = true -> Player.velocity p = Vector2.zero ->
  Player.position (Player.update dt arena fm p) = Player.position p.
Proof.
  intros Ha Hv. rewrite update_position by exact Ha. rewrite Hv.
  unfold Vector2.limit, Vector2.magnitudeSquared, Vector2.multiply, Vector2.zero.
  cbn [Vector2.x Vector2.y].
  assert (E : (0 * Player.clampedFriction fm p * (0 * Player.clampedFriction fm p)
               + 0 * Player.clampedFriction fm p * (0 * Player.clampedFriction fm p)
               >? Player.maxSpeed p * Player.maxSpeed p) = false).
  { apply gtb_false. nra. }
  rewrite E. unfold Vector2.add. cbn [Vector2.x Vector2.y].
  destruct (Player.position p) as [x y]. cbn [Vector2.x Vector2.y]. f_equal; ring.
Qed.

Lemma push_shape (x0 : Player.t) (c : bool) (force : Vector2.t) (ov : option Vector2.t) :
  let x := match ov with Some v => Player.set_velocity v x0 | None => x0 end in
  exists ov' : option Vector2.t,
    (if c then Game.push force x else x)
    = match ov' with Some v => Player.set_velocity v x0 | None => x0 end.
Proof.
  cbv zeta. destruct c.
  - destruct ov; eexists (Some _); reflexivity.
  - exists ov. reflexivity.
Qed.

(** The player loop leaves a player as [handleInput] and [update] left it,
    but for the stored distance and the velocity the forces added to. *)
Lemma playerStep_shape (dt : R) (env : Game.Env) (frictionMod speedMod : R)
    (arena : Arena.t) (m : RoundManager.t) (p : Player.t) :
  exists (ov : option Vector2.t) (d : option R),
    Game.playerStep dt env frictionMod speedMod arena m p
    = let x0 :=
        Player.set_distanceFromCenter d
          (Player.update dt (Some arena) frictionMod
             (fst (Player.handleInput (Game.inputs env (Player.id p)) dt speedMod p))) in
      match ov with Some v => Player.set_velocity v x0 | None => x0 end.
Proof.
  unfold Game.playerStep.
  destruct (Player.handleInput (Game.inputs env (Player.id p)) dt speedMod p) as [q res].
  cbn [fst]. set (q1 := Player.update dt (Some arena) frictionMod q). clearbody q1.
  set (d := Some (sqrt _)). set (x0 := Player.set_distanceFromCenter d q1).
  set (y1 := if Player.isAlive x0 && Arena.centrifugeMode arena then _ else x0).
  assert (S1 : exists ov : option Vector2.t,
             y1 = match ov with Some v => Player.set_velocity v x0 | None => x0 end).
  { subst y1. apply (push_shape x0 _ _ None). }
  clearbody y1.
  set (y2 := if Player.isAlive y1 && Arena.suddenDeathActive arena && _ then _ else y1).
  assert (S2 : exists ov : option Vector2.t,
             y2 = match ov with Some v => Player.set_velocity v x0 | None => x0 end).
  { subst y2. destruct S1 as [ov1 ->]. apply (push_shape x0 _ _ ov1). }
  clearbody y2. clear S1 y1.
  set (y3 := if Player.isAlive y2 && RoundManager.instabilityActive m then _ else y2).
  assert (S3 : exists ov : option Vector2.t,
             y3 = match ov with Some v => Player.set_velocity v x0 | None => x0 end).
  { subst y3. destruct S2 as [ov2 ->]. apply (push_shape x0 _ _ ov2). }
  clearbody y3. clear S2 y2.
  destruct S3 as [ov3 E3].
  destruct (Player.isIdle y3 && Player.isAlive y3).
  - match goal with
    | |- context [if ?c then Game.push ?f y3 else y3] =>
        destruct (push_shape x0 c f ov3) as [ov4 E4]; cbv zeta in E4; rewrite <- E3 in E4;
        exists ov4, d; exact E4
    end.
  - exists ov3, d. exact E3.
Qed.

(** A player that steers against its velocity stays where it is. *)
Lemma playerStep_stands (dt : R) (env : Game.Env) (frictionMod : R)
    (arena : Arena.t) (m : RoundManager.t) (i : nat) (pos : Vector2.t) (p : Player.t) :
  Hold.stands i pos p ->
  Game.inputs env i = Hold.against p ->
  Hold.stands i pos (Game.playerStep dt env frictionMod 1 arena m p).
Proof.
  intros (Hid & Ha & Hd & Hc & Hr & Hp) Hin.
  destruct (playerStep_shape dt env frictionMod 1 arena m p) as (ov & d & ->).
  cbv zeta. rewrite Hid, Hin.
  destruct (handleInput_against dt p Ha Hd Hc) as (Qv & Qp & Qi & Qa & Qd & Qc & Qr).
  cbv zeta in *.
  set (q := fst (Player.handleInput (Hold.against p) dt 1 p)) in *. clearbody q.
  pose proof (update_at_rest dt (Some arena) frictionMod q Qa Qv) as Up.
  destruct (update_build dt (Some arena) frictionMod q) as (Ui & Ur & Ud & Uc).
  pose proof (update_isAlive dt (Some arena) frictionMod q) as Ua.
  cbv zeta in *.
  set (q' := Player.update dt (Some arena) frictionMod q) in *. clearbody q'.
  unfold Hold.stands.
  destruct ov; cbn; repeat split; congruence.
Qed.

(** The arena keeps room for the two players. *)
Lemma new_roomy : Hold.roomy (Arena.new CONFIG.CANVAS_WIDTH CONFIG.CANVAS_HEIGHT).
Proof.
  unfold Hold.roomy, Arena.new, CONFIG.CANVAS_WIDTH, CONFIG.CANVAS_HEIGHT, CONFIG.ARENA.PADDING.
  cbn. repeat split; try lra. f_equal; lra.
Qed.

Lemma update_roomy (dt : R) (playing : bool) (a : Arena.t) :
  Hold.roomy a -> Hold.roomy (Arena.update dt playing a).
Proof.
  intros (Hm & Hx & Hy & Hob & Hs & Hmin & Hl & Hr & Ht & Hb).
  unfold Arena.update.
  set (a1 := Arena.set_animation _ _ _ _ a).
  assert (R1 : Hold.roomy a1) by (subst a1; repeat split; assumption).
  clearbody a1. clear - R1.
  destruct R1 as (Hm & Hx & Hy & Hob & Hs & Hmin & Hl & Hr & Ht & Hb).
  rewrite Hm. cbn [andb].
  destruct playing; [|repeat split; assumption].
  set (a3 := Arena.set_roundTime _ a1).
  assert (R3 : Hold.roomy a3) by (subst a3; repeat split; assumption).
  clearbody a3. clear - R3.
  destruct R3 as (Hm & Hx & Hy & Hob & Hs & Hmin & Hl & Hr & Ht & Hb).
  destruct (_ >=? _); [|repeat split; assumption].
  set (a4 := Arena.set_isShrinking true a3).
  assert (R4 : Hold.roomy a4) by (subst a4; repeat split; assumption).
  clearbody a4. clear - R4.
  destruct R4 as (Hm & Hx & Hy & Hob & Hs & Hmin & Hl & Hr & Ht & Hb).
  match goal with
  | |- context [Rmin 1 ?e] =>
      pose proof (Rmin_l 1 e) as Hp; set (progress := Rmin 1 e) in *; clearbody progress
  end.
  unfold Hold.roomy. cbn. rewrite Hob, Hs, Hmin, Hx, Hy. cbn.
  repeat split; try assumption; lra.
Qed.

Lemma setAliveCount_roomy (count : nat) (a : Arena.t) :
  Hold.roomy a -> Hold.roomy (Arena.setAliveCount count a).
Proof.
  intros H. unfold Arena.setAliveCount. destruct (_ && _); [|exact H].
  destruct H as (Hm & Hx & Hy & Hob & Hs & Hmin & Hl & Hr & Ht & Hb).
  repeat split; assumption.
Qed.

Lemma playPhase_roomy (dt : R) (env : Game.Env) (g : Game.t) :
  Hold.roomy (Game.arena g) -> Hold.roomy (Game.arena (RoundRun.playPhase dt env g)).
Proof.
  intros H. unfold RoundRun.playPhase. cbv zeta.
  unfold Game.checkBoundaries, Game.processCollisionsWithEffects.
  cbn [Game.players Game.set_players Game.set_arena Game.arena].
  apply (setAliveCount_roomy
           (List.length (filter Player.isAlive (RoundRun.playerLoop dt env g)))) in H.
  destruct (existsb _ _); cbn [Game.players Game.set_players Game.set_arena Game.arena];
    [|exact H].
  destruct H as (Hm & Hx & Hy & Hob & Hs & Hmin & Hl & Hr & Ht & Hb).
  repeat split; assumption.
Qed.

Lemma playPhase_activeModifier (dt : R) (env : Game.Env) (g : Game.t) :
  Game.activeModifier (RoundRun.playPhase dt env g) = Game.activeModifier g.
Proof.
  unfold RoundRun.playPhase. cbv zeta.
  unfold Game.checkBoundaries, Game.processCollisionsWithEffects.
  destruct (existsb _ _); reflexivity.
Qed.

Lemma checkRoundEnd_goes_on (players : list Player.t) (m : RoundManager.t) :
  RoundManager.state (fst (fst (RoundManager.checkRoundEnd players m)))
  = RoundManager.roundEnd \/
  snd (fst (RoundManager.checkRoundEnd players m)) = players.
Proof.
  unfold RoundManager.checkRoundEnd. destruct (Nat.leb _ _); cbn; auto.
Qed.

(** Unless it ends the round, [updatePlaying] hands the players back as
    they are. *)
Lemma updatePlaying_goes_on (dt now : R) (players : list Player.t) (m : RoundManager.t) :
  RoundManager.state (fst (fst (RoundManager.updatePlaying dt now players m)))
  = RoundManager.playing ->
  snd (fst (RoundManager.updatePlaying dt now players m)) = players.
Proof.
  unfold RoundManager.updatePlaying.
  destruct (updateDamageMultiplier_eq
              (RoundManager.set_roundTime (RoundManager.roundTime m + dt) m)) as [d ->].
  destruct (negb _ && _); destruct (negb _ && _);
    destruct (RoundManager.finalCountdownActive _);
    try destruct (_ <=? _);
    repeat match goal with
      | |- context [RoundManager.forceRoundEnd ?n ?p ?x] =>
          pose proof (forceRoundEnd_state n p x);
          destruct (RoundManager.forceRoundEnd n p x) as [[? ?] ?]
      | |- context [RoundManager.checkRoundEnd ?p ?x] =>
          pose proof (checkRoundEnd_goes_on p x);
          destruct (RoundManager.checkRoundEnd p x) as [[? ?] ?]
      end;
    cbn [fst snd] in *; intros Hp;
    first [ congruence
          | match goal with H : _ \/ _ |- _ => destruct H; congruence end ].
Qed.

(** The round manager moves no player. *)
Lemma positions_set (i : nat) (p q : Player.t) (players : list Player.t) :
  Players.get i players = Some p -> Player.position q = Player.position p ->
  map Player.position (Players.set i q players) = map Player.position players.
Proof.
  unfold Players.get. revert i.
  induction players as [|r rest IH]; intros [|i] Hg Hq; cbn in *; try discriminate.
  - injection Hg as ->. now rewrite Hq.
  - f_equal. now apply IH.
Qed.

Lemma positions_modify (i : nat) (h : Player.t -> Player.t) (players : list Player.t) :
  (forall p, Player.position (h p) = Player.position p) ->
  map Player.position (Players.modify i h players) = map Player.position players.
Proof.
  intros Hh. unfold Players.modify.
  destruct (Players.get i players) as [p|] eqn:E; [|reflexivity].
  eapply positions_set; [exact E | apply Hh].
Qed.

Lemma positions_eliminateOthers (now : R) (c : option nat) (l : list nat) :
  forall players : list Player.t,
    map Player.position (RoundManager.eliminateOthers now c l players)
    = map Player.position players.
Proof.
  unfold RoundManager.eliminateOthers.
  induction l as [|i l IH]; intros players; cbn [fold_left]; [reflexivity|].
  rewrite IH. destruct c as [c|]; [destruct (Nat.eqb i c); [reflexivity|]|];
    apply positions_modify; reflexivity.
Qed.

Lemma positions_forceRoundEnd (now : R) (players : list Player.t) (m : RoundManager.t) :
  map Player.position (snd (fst (RoundManager.forceRoundEnd now players m)))
  = map Player.position players.
Proof.
  unfold RoundManager.forceRoundEnd.
  destruct (Players.alive players) as [|a [|b rest]];
    cbn [fst snd RoundManager.roundWinner RoundManager.set_roundWinner].
  - reflexivity.
  - now apply positions_modify.
  - destruct (RoundManager.closest players (a :: b :: rest)) as [w|].
    + rewrite positions_modify by reflexivity. apply positions_eliminateOthers.
    + apply positions_eliminateOthers.
Qed.

Lemma positions_checkRoundEnd (players : list Player.t) (m : RoundManager.t) :
  map Player.position (snd (fst (RoundManager.checkRoundEnd players m)))
  = map Player.position players.
Proof.
  unfold RoundManager.checkRoundEnd.
  destruct (Nat.leb _ _); [|reflexivity].
  cbn [fst snd RoundManager.roundWinner RoundManager.set_roundWinner].
  destruct (if Nat.eqb _ 1 then _ else None); [now apply positions_modify | reflexivity].
Qed.

Lemma positions_updatePlaying (dt now : R) (players : list Player.t) (m : RoundManager.t) :
  map Player.position (snd (fst (RoundManager.updatePlaying dt now players m)))
  = map Player.position players.
Proof.
  unfold RoundManager.updatePlaying.
  destruct (updateDamageMultiplier_eq
              (RoundManager.set_roundTime (RoundManager.roundTime m + dt) m)) as [d ->].
  destruct (negb _ && _); destruct (negb _ && _);
    destruct (RoundManager.finalCountdownActive _);
    try destruct (_ <=? _);
    repeat match goal with
      | |- context [RoundManager.forceRoundEnd ?n ?p ?x] =>
          pose proof (positions_forceRoundEnd n p x);
          destruct (RoundManager.forceRoundEnd n p x) as [[? ?] ?]
      | |- context [RoundManager.checkRoundEnd ?p ?x] =>
          pose proof (positions_checkRoundEnd p x);
          destruct (RoundManager.checkRoundEnd p x) as [[? ?] ?]
      end;
    cbn [fst snd] in *; assumption.
Qed.

Lemma held_inputs (g : Game.t) (p0 p1 : Player.t) :
  Game.players g = [p0; p1] -> Player.id p0 = 0%nat -> Player.id p1 = 1%nat ->
  Game.inputs (Hold.env g) 0%nat = Hold.against p0 /\
  Game.inputs (Hold.env g) 1%nat = Hold.against p1.
Proof.
  intros Hps H0 H1. unfold Hold.env, Hold.inputs. cbn [Game.inputs].
  rewrite Hps. cbn [find]. rewrite H0, H1. cbn. auto.
Qed.

Lemma stands_apart (q0 q1 : Player.t) :
  Hold.stands 0 (Vector2.mk 430 350) q0 -> Hold.stands 1 (Vector2.mk 540 350) q1 ->
  RoundRun.noCollision [q0; q1].
Proof.
  intros (_ & _ & _ & _ & R0 & P0) (_ & _ & _ & _ & R1 & P1) i j p1 p2 Hij Hi Hj _ _.
  unfold Players.get in Hi, Hj.
  destruct i as [|[|i]]; cbn in Hi; [|destruct j as [|[|j]]; cbn in Hj; try lia;
                                       destruct j; discriminate
                                     |destruct i; discriminate].
  destruct j as [|[|j]]; cbn in Hj; [lia| |destruct j; discriminate].
  injection Hi as <-. injection Hj as <-.
  unfold Physics.checkCircleCollision. rewrite P0, P1, R0, R1.
  cbn [Vector2.x Vector2.y]. unfold CONFIG.PLAYER.RADIUS.
  replace ((540 - 430) * (540 - 430) + (350 - 350) * (350 - 350))
    with (110 * 110 + 0 * 0) by ring.
  rewrite norm_axis_x by lra. apply ltb_false. lra.
Qed.

Lemma stands_inside (a : Arena.t) (i : nat) (pos : Vector2.t) (q : Player.t) :
  Hold.roomy a -> Hold.stands i pos q ->
  317.5 <= Vector2.x pos <= 682.5 -> 220 <= Vector2.y pos <= 480 ->
  Physics.checkArenaBoundary q a = false.
Proof.
  intros (Hm & _ & _ & _ & _ & _ & Hl & Hr & Ht & Hb) (_ & Ha & _ & _ & Rq & Pq) Hx Hy.
  unfold Physics.checkArenaBoundary, Arena.isEliminated.
  rewrite Ha, Hm, Pq, Rq. cbn [negb]. unfold CONFIG.PLAYER.RADIUS.
  rewrite !orb_false_iff, !ltb_false, !gtb_false. lra.
Qed.

(** One step of the round with the players holding their positions: it is
    quiet, nobody moves, and while the round goes on the game stays as
    described. *)
Lemma held_tick (dt : R) (g : Game.t) :
  RoundManager.state (Game.roundManager g) = RoundManager.playing ->
  Hold.held g ->
  let g' := fst (Game.fixedUpdate dt (Hold.env g) g) in
  RoundRun.quietStep g (dt, Hold.env g) /\
  Hold.placed g' /\
  (RoundManager.state (Game.roundManager g') = RoundManager.playing -> Hold.held g').
Proof.
  intros Hst (Hmod & Hroomy & p0 & p1 & Hps & S0 & S1). cbv zeta.
  destruct (fixedUpdate_playing dt (Hold.env g) g Hst) as (Hm & Hps2 & Hfix).
  destruct (afterRoundManager_inRound dt (Hold.env g) g Hst) as [Harena Hmod2].
  specialize (Hmod2 Hmod).
  pose proof (updatePlaying_goes_on dt (Game.now (Hold.env g)) (Game.players g)
                (Game.roundManager g)) as Hgo.
  pose proof (positions_updatePlaying dt (Game.now (Hold.env g)) (Game.players g)
                (Game.roundManager g)) as Hpos.
  pose proof (updatePlaying_state dt (Game.now (Hold.env g)) (Game.players g)
                (Game.roundManager g)) as Hs.
  rewrite Hst in Hs.
  destruct (held_inputs g p0 p1 Hps (proj1 S0) (proj1 S1)) as [I0 I1].
  unfold RoundRun.quietStep. cbn [fst snd]. cbv zeta.
  set (e := Hold.env g) in *. clearbody e.
  set (g2 := RoundRun.afterRoundManager dt e g) in *. clearbody g2.
  destruct (RoundManager.updatePlaying dt (Game.now e) (Game.players g)
              (Game.roundManager g)) as [[m' ps'] ev].
  cbn [fst snd] in *. rewrite Hfix. cbn [fst].
  assert (Hplaced : map Player.position ps'
                    = [Vector2.mk 430 350; Vector2.mk 540 350]).
  { rewrite Hpos, Hps. cbn [map].
    destruct S0 as (_ & _ & _ & _ & _ & ->). destruct S1 as (_ & _ & _ & _ & _ & ->).
    reflexivity. }
  unfold RoundManager.isPlaying. rewrite Hm.
  destruct Hs as [He | Hp]; [rewrite He | rewrite Hp]; cbn [RoundManager.State_eqb].
  - (* the round manager ended the round *)
    split; [intros H; discriminate H|]. split.
    + unfold Hold.placed. now rewrite Hps2.
    + rewrite Hm, He. intros H. discriminate H.
  - (* the round goes on *)
    specialize (Hgo Hp). subst ps'.
    assert (Hroomy2 : Hold.roomy (Game.arena g2)).
    { rewrite Harena. now apply update_roomy. }
    assert (Hloop : exists q0 q1,
               RoundRun.playerLoop dt e g2 = [q0; q1] /\
               Hold.stands 0 (Vector2.mk 430 350) q0 /\
               Hold.stands 1 (Vector2.mk 540 350) q1).
    { unfold RoundRun.playerLoop. rewrite Hgo, Hps. cbn [map].
      unfold Game.modifierEffect at 2 4. rewrite Hmod2.
      eexists. eexists. split; [reflexivity|]. split.
      - apply playerStep_stands; [exact S0 | exact I0].
      - apply playerStep_stands; [exact S1 | exact I1]. }
    destruct Hloop as (q0 & q1 & Hloop & Q0 & Q1).
    assert (Hnc : RoundRun.noCollision (RoundRun.playerLoop dt e g2)).
    { rewrite Hloop. now apply stands_apart. }
    assert (Hne : RoundRun.noElimination
                    (Arena.setAliveCount
                       (List.length (filter Player.isAlive (RoundRun.playerLoop dt e g2)))
                       (Game.arena g2))
                    (RoundRun.playerLoop dt e g2)).
    { intros q Hq. rewrite checkArenaBoundary_setAliveCount.
      rewrite Hloop in Hq. destruct Hq as [<-|[<-|[]]].
      - apply (stands_inside _ _ _ _ Hroomy2 Q0); cbn; lra.
      - apply (stands_inside _ _ _ _ Hroomy2 Q1); cbn; lra. }
    split; [intros _; split; assumption|].
    pose proof (playPhase_quiet dt e g2 Hnc Hne) as Hplayers.
    split.
    + unfold Hold.placed. rewrite Hplayers, Hloop. cbn [map].
      destruct Q0 as (_ & _ & _ & _ & _ & ->). destruct Q1 as (_ & _ & _ & _ & _ & ->).
      reflexivity.
    + intros _. split; [now rewrite playPhase_activeModifier|].
      split; [now apply playPhase_roomy|].
      exists q0, q1. rewrite Hplayers. auto.
Qed.

Lemma waiting_quiet (dt : R) (env : Game.Env) (g : Game.t) :
  RoundManager.state (Game.roundManager g) = RoundManager.roundEnd ->
  0 < RoundManager.roundEndTimer (Game.roundManager g) - dt ->
  RoundRun.quietStep g (dt, env).
Proof.
  intros Hst Htimer. unfold RoundRun.quietStep. cbn [fst snd]. cbv zeta.
  destruct (afterRoundManager_fields dt env g) as [Hm _].
  unfold RoundManager.update in Hm. rewrite Hst in Hm.
  rewrite updateRoundEnd_waiting in Hm by exact Htimer. cbn [fst] in Hm.
  rewrite Hm. unfold RoundManager.isPlaying. rm_simpl. rewrite Hst.
  intros H. discriminate H.
Qed.

(** The whole run is quiet, and nobody has moved at the end of it. *)
Lemma held_run (g0 : Game.t) (dt : R) :
  (2 <= List.length (Players.alive (Game.players g0)))%nat ->
  0 < dt < 1000 ->
  forall (n : nat) (T : R) (st : Game.t * list RoundManager.Event),
    RoundRun.inv g0 T st ->
    (RoundManager.state (Game.roundManager (fst st)) = RoundManager.playing ->
     Hold.held (fst st)) ->
    Hold.placed (fst st) ->
    T + INR n * dt <= 26000 ->
    RoundRun.quiet (Hold.ticks n dt (fst st)) (fst st) /\
    Hold.placed (fst (RoundRun.run (Hold.ticks n dt (fst st)) st)).
Proof.
  intros Hmany Hdt. induction n as [|n IH]; intros T st Hinv Hheld Hplaced Hbound.
  - cbn. auto.
  - rewrite S_INR in Hbound.
    assert (Hn : 0 <= INR n) by apply pos_INR.
    assert (Hstep : T + dt <= 26000) by nra.
    cbn [Hold.ticks RoundRun.quiet RoundRun.run fold_left fst snd].
    set (tick := (dt, Hold.env (fst st))).
    assert (Hnext : RoundRun.quietStep (fst st) tick /\
              Hold.placed (fst (Game.fixedUpdate dt (Hold.env (fst st)) (fst st))) /\
              (RoundManager.state
                 (Game.roundManager (fst (Game.fixedUpdate dt (Hold.env (fst st)) (fst st))))
               = RoundManager.playing ->
               Hold.held (fst (Game.fixedUpdate dt (Hold.env (fst st)) (fst st))))).
    { destruct Hinv as [HA | [HB | HC]].
      - apply held_tick; [|apply Hheld]; destruct st; apply HA.
      - apply held_tick; [|apply Hheld]; destruct st; apply HB.
      - destruct st as [g log]. destruct HC as (Htimer & Hst & _). cbn [fst] in *.
        assert (Hleft : 0 < RoundManager.roundEndTimer (Game.roundManager g) - dt) by lra.
        split; [now apply waiting_quiet|].
        destruct (waiting_tick dt (Hold.env g) g Hst Hleft) as (g' & -> & Hm' & Hps').
        cbn [fst]. split.
        + unfold Hold.placed. now rewrite Hps'.
        + rewrite Hm'. rm_simpl. rewrite Hst. intros H. discriminate H. }
    destruct Hnext as (Hquiet & Hplaced' & Hheld').
    pose proof (tick_inv g0 Hmany T st tick Hinv Hdt Hquiet Hstep) as Hinv'.
    pose proof (step_fst st tick) as Hfst. cbn [fst snd tick] in Hfst.
    rewrite <- Hfst in Hplaced', Hheld' |- *.
    destruct (IH (T + dt) (RoundRun.step st tick) Hinv' Hheld' Hplaced' ltac:(lra))
      as [Hq Hp].
    split; [split; [exact Hquiet | exact Hq] | exact Hp].
Qed.

Lemma ticks_elapsed (n : nat) (dt : R) :
  forall g : Game.t, RoundRun.elapsed (Hold.ticks n dt g) = INR n * dt.
Proof.
  induction n as [|n IH]; intros g.
  - cbn. lra.
  - rewrite S_INR. cbn [Hold.ticks].
    change (fst (dt, Hold.env g)
            + RoundRun.elapsed (Hold.ticks n dt (fst (Game.fixedUpdate dt (Hold.env g) g)))
            = (INR n + 1) * dt).
    rewrite IH. cbn [fst]. ring.
Qed.

Lemma ticks_removelast (n : nat) (dt : R) :
  forall g : Game.t, removelast (Hold.ticks (S n) dt g) = Hold.ticks n dt g.
Proof.
  induction n as [|n IH]; intros g; [reflexivity|].
  change (Hold.ticks (S (S n)) dt g)
    with ((dt, Hold.env g)
          :: Hold.ticks (S n) dt (fst (Game.fixedUpdate dt (Hold.env g) g))).
  cbn [removelast].
  change (Hold.ticks (S n) dt (fst (Game.fixedUpdate dt (Hold.env g) g)))
    with ((dt, Hold.env (fst (Game.fixedUpdate dt (Hold.env g) g)))
          :: Hold.ticks n dt
               (fst (Game.fixedUpdate dt
                       (Hold.env (fst (Game.fixedUpdate dt (Hold.env g) g)))
                       (fst (Game.fixedUpdate dt (Hold.env g) g))))) at 1.
  rewrite IH. reflexivity.
Qed.

Lemma ticks_sizes (n : nat) (dt : R) :
  forall g : Game.t, Forall (fun tick : RoundRun.Tick => fst tick = dt) (Hold.ticks n dt g).
Proof.
  induction n as [|n IH]; intros g; cbn [Hold.ticks]; constructor; [reflexivity | apply IH].
Qed.

Lemma start_held : Hold.held Hold.start.
Proof.
  unfold Hold.held, Hold.start. cbn [Game.activeModifier Game.arena Game.players].
  split; [reflexivity|]. split; [apply new_roomy|].
  eexists. eexists. split; [reflexivity|].
  unfold Hold.stands. cbn. auto 10.
Qed.

Lemma round_always_ends_witness :
  let ticks := Hold.ticks 1501 CONFIG.PHYSICS.FIXED_TIMESTEP Hold.start in
  RoundRun.timedOut Hold.start (Game.run (RoundRun.steps ticks) Hold.start) /\
  RoundManager.roundWinner
    (Game.roundManager (fst (Game.run (RoundRun.steps ticks) Hold.start))) = Some 1%nat.
Proof.
  intros ticks.
  assert (Hdt : 0 < CONFIG.PHYSICS.FIXED_TIMESTEP < 1000)
    by (unfold CONFIG.PHYSICS.FIXED_TIMESTEP; lra).
  assert (Hst : RoundManager.state (Game.roundManager Hold.start) = RoundManager.playing)
    by reflexivity.
  assert (Hrt : RoundManager.roundTime (Game.roundManager Hold.start) = 0) by reflexivity.
  assert (Hfca : RoundManager.finalCountdownActive (Game.roundManager Hold.start) = false)
    by reflexivity.
  assert (Halive : Players.alive (Game.players Hold.start) = [0; 1]%nat) by reflexivity.
  assert (Hmany : (2 <= List.length (Players.alive (Game.players Hold.start)))%nat)
    by (rewrite Halive; cbn; lia).
  assert (Hsizes : Forall (fun tick : RoundRun.Tick => 0 < fst tick < 1000) ticks).
  { eapply Forall_impl; [|apply ticks_sizes]. cbn. intros tick ->. exact Hdt. }
  assert (H1501 : INR 1501 = 1501) by (rewrite INR_IZR_INZ; reflexivity).
  assert (H1500 : INR 1500 = 1500) by (rewrite INR_IZR_INZ; reflexivity).
  assert (Hinit : RoundRun.inv Hold.start 0 (Hold.start, [])).
  { left. unfold RoundRun.beforeCountdown, RoundRun.common. cbn [fst snd].
    unfold CONFIG.ESCALATION.FINAL_COUNTDOWN_START. repeat split; auto; lra. }
  assert (Hplaced0 : Hold.placed Hold.start) by reflexivity.
  destruct (held_run Hold.start CONFIG.PHYSICS.FIXED_TIMESTEP Hmany Hdt 1501 0
              (Hold.start, []) Hinit (fun _ => start_held) Hplaced0)
    as [Hquiet Hplaced].
  { rewrite H1501. unfold CONFIG.PHYSICS.FIXED_TIMESTEP. lra. }
  cbn [fst] in Hquiet, Hplaced. fold ticks in Hquiet, Hplaced.
  assert (Hprefix : RoundRun.elapsed (removelast ticks)
                    <= CONFIG.ESCALATION.FINAL_COUNTDOWN_START
                       + CONFIG.ESCALATION.FINAL_COUNTDOWN_DURATION).
  { unfold ticks. rewrite ticks_removelast, ticks_elapsed, H1500.
    unfold CONFIG.PHYSICS.FIXED_TIMESTEP, CONFIG.ESCALATION.FINAL_COUNTDOWN_START,
      CONFIG.ESCALATION.FINAL_COUNTDOWN_DURATION. lra. }
  assert (Htotal : CONFIG.ESCALATION.FINAL_COUNTDOWN_START
                   + CONFIG.ESCALATION.FINAL_COUNTDOWN_DURATION < RoundRun.elapsed ticks).
  { unfold ticks. rewrite ticks_elapsed, H1501.
    unfold CONFIG.PHYSICS.FIXED_TIMESTEP, CONFIG.ESCALATION.FINAL_COUNTDOWN_START,
      CONFIG.ESCALATION.FINAL_COUNTDOWN_DURATION. lra. }
  pose proof (round_always_ends Hold.start ticks Hst Hrt Hfca Hmany Hsizes Hquiet
                Hprefix Htotal) as Hend.
  split; [exact Hend|].
  rewrite run_steps in Hend |- *.
  destruct (RoundRun.run ticks (Hold.start, [])) as [g log]. cbn [fst] in *.
  destruct Hend as (_ & w & pw & Hpw & Hwin & _ & Hin & _ & _ & Hnear).
  rewrite Hwin. f_equal.
  rewrite Halive in Hin. destruct Hin as [<-|[<-|[]]]; [exfalso | reflexivity].
  (* the first player is the farther one *)
  unfold Hold.placed in Hplaced.
  destruct (Game.players g) as [|q0 [|q1 rest]]; cbn in Hplaced; try discriminate.
  injection Hplaced as P0 P1 _. unfold Players.get in Hpw. cbn in Hpw. injection Hpw as <-.
  assert (H1 : In 1%nat (Players.alive (Game.players Hold.start)))
    by (rewrite Halive; cbn; auto).
  destruct (Hnear 1%nat q1 eq_refl H1) as [Hle _].
  rewrite P0, P1 in Hle. unfold RoundRun.center, Vector2.distanceTo, Hold.start in Hle.
  cbn in Hle. unfold CONFIG.ARENA.PADDING, CONFIG.CANVAS_WIDTH, CONFIG.CANVAS_HEIGHT in Hle.
  replace ((430 - (50 + (1000 - 50 - 50) / 2)) * (430 - (50 + (1000 - 50 - 50) / 2))
           + (350 - (50 + (700 - 50 - 50) / 2)) * (350 - (50 + (700 - 50 - 50) / 2)))
    with (70 * 70 + 0 * 0) in Hle by field.
  replace ((540 - (50 + (1000 - 50 - 50) / 2)) * (540 - (50 + (1000 - 50 - 50) / 2))
           + (350 - (50 + (700 - 50 - 50) / 2)) * (350 - (50 + (700 - 50 - 50) / 2)))
    with (40 * 40 + 0 * 0) in Hle by field.
  rewrite !norm_axis_x in Hle by lra. lra.
Defined.

(** *** The round manager on its own, in steps of a full second *)

Lemma managerRun_app (l1 l2 : list RoundRun.Tick)
    (st : RoundManager.t * list Player.t * list RoundManager.Event) :
  RoundRun.managerRun (l1 ++ l2) st = RoundRun.managerRun l2 (RoundRun.managerRun l1 st).
Proof. apply fold_left_app. Qed.

Lemma manager_before (players : list Player.t) (tick : RoundRun.Tick) :
  (2 <= List.length (Players.alive players))%nat ->
  0 <= fst tick ->
  forall (n : nat) (m : RoundManager.t) (log : list RoundManager.Event),
    RoundManager.state m = RoundManager.playing ->
    RoundManager.finalCountdownActive m = false ->
    RoundManager.roundTime m + INR n * fst tick < CONFIG.ESCALATION.FINAL_COUNTDOWN_START ->
    exists m' log',
      RoundRun.managerRun (repeat tick n) (m, players, log) = (m', players, log') /\
      RoundManager.state m' = RoundManager.playing /\
      RoundManager.currentRound m' = RoundManager.currentRound m /\
      RoundManager.finalCountdownActive m' = false /\
      RoundManager.roundTime m' = RoundManager.roundTime m + INR n * fst tick.
Proof.
  intros Hmany Hdt. induction n as [|n IH]; intros m log Hst Hfca Hlt.
  - exists m, log. cbn. repeat split; auto. lra.
  - rewrite S_INR in Hlt. pose proof (pos_INR n) as Hn.
    destruct (updatePlaying_before (fst tick) (Game.now (snd tick)) players m Hmany Hfca)
      as (m1 & ev & Heq & Hst1 & Hround1 & Hfca1 & Hrt1 & _); [nra|].
    destruct (IH m1 (log ++ ev)) as (m' & log' & Hrun & Hst' & Hround' & Hfca' & Hrt');
      [congruence | exact Hfca1 | rewrite Hrt1; nra |].
    exists m', log'. cbn [repeat RoundRun.managerRun fold_left RoundRun.managerStep].
    unfold RoundManager.update. rewrite Hst, Heq.
    split; [exact Hrun|]. rewrite S_INR.
    repeat split; try congruence. rewrite Hrt', Hrt1. ring.
Qed.

Lemma updateRoundEnd_expired (dt : R) (draw : RoundManager.Draw)
    (players : list Player.t) (m : RoundManager.t) :
  RoundManager.roundEndTimer m - dt <= 0 ->
  RoundManager.findMatchWinner players = None ->
  RoundManager.state (fst (RoundManager.updateRoundEnd dt draw players m))
  = RoundManager.countdown.
Proof.
  intros Htimer Hnone. unfold RoundManager.updateRoundEnd. rm_simpl.
  assert (E : (RoundManager.roundEndTimer m - dt <=? 0) = true) by (apply leb_true; lra).
  rewrite E, Hnone. unfold RoundManager.startCountdown. cbv zeta.
  destruct (Nat.leb _ _); reflexivity.
Qed.

(** C1 as stated does not bound the ticks and speaks of the round manager
    being advanced.  Advanced on its own in ticks of a full second,
    from the playing state at round time 0 with two living players, the
    round manager has left [roundEnd] again when the cumulative time first
    exceeds 25000 ms: the forced end comes at 24000 ms and the round-end
    delay of 2000 ms has run out at 26000 ms, so the state is [countdown].
    And with nothing but the round manager running, no distance is ever
    stored: the forced end kept the first living player, 70 pixels from the
    arena center, and eliminated the second, 40 pixels from it. *)
Theorem full_second_ticks_leave_round_end :
  let m0 := RoundManager.set_state RoundManager.playing RoundManager.new in
  let players0 := [Player.new 0 430 350 0; Player.new 1 540 350 0] in
  let ticks := repeat RoundRun.fullSecond 26 in
  let center := Vector2.mk 500 350 in
  (* the premises of the claim *)
  RoundManager.state m0 = RoundManager.playing /\
  RoundManager.roundTime m0 = 0 /\
  Players.alive players0 = [0; 1]%nat /\
  RoundRun.elapsed (removelast ticks)
  <= CONFIG.ESCALATION.FINAL_COUNTDOWN_START + CONFIG.ESCALATION.FINAL_COUNTDOWN_DURATION
  < RoundRun.elapsed ticks /\
  (* the second player is the nearer one *)
  map (fun p => Vector2.distanceTo (Player.position p) center) players0 = [70; 40] /\
  (* the outcome *)
  let '(m, players, log) := RoundRun.managerRun ticks (m0, players0, []) in
  RoundManager.state m = RoundManager.countdown /\
  In (RoundManager.RoundEnd (Some 0%nat) 0 RoundManager.timeout) log /\
  map Player.isAlive players = [true; false] /\
  map Player.position players = map Player.position players0.
Proof.
  intros m0 players0 ticks center.
  assert (Halive : Players.alive players0 = [0; 1]%nat) by reflexivity.
  assert (Hmany : (2 <= List.length (Players.alive players0))%nat)
    by (rewrite Halive; cbn; lia).
  split; [reflexivity|]. split; [reflexivity|]. split; [exact Halive|].
  split.
  { unfold ticks, RoundRun.elapsed, RoundRun.fullSecond,
      CONFIG.ESCALATION.FINAL_COUNTDOWN_START, CONFIG.ESCALATION.FINAL_COUNTDOWN_DURATION.
    cbn. lra. }
  split.
  { unfold players0, center, Vector2.distanceTo. cbn.
    replace ((430 - 500) * (430 - 500) + (350 - 350) * (350 - 350))
      with (70 * 70 + 0 * 0) by ring.
    replace ((540 - 500) * (540 - 500) + (350 - 350) * (350 - 350))
      with (40 * 40 + 0 * 0) by ring.
    rewrite !norm_axis_x by lra. reflexivity. }
  (* 19 seconds before the final countdown *)
  assert (H19 : INR 19 = 19) by (rewrite INR_IZR_INZ; reflexivity).
  change ticks with (repeat RoundRun.fullSecond 19 ++ repeat RoundRun.fullSecond 7).
  rewrite managerRun_app.
  destruct (manager_before players0 RoundRun.fullSecond Hmany ltac:(cbn; lra) 19 m0 []
              eq_refl eq_refl)
    as (m19 & log19 & -> & Hst & Hround19 & Hfca & Hrt).
  { rewrite H19. unfold CONFIG.ESCALATION.FINAL_COUNTDOWN_START. cbn. lra. }
  rewrite H19 in Hrt. cbn [fst RoundRun.fullSecond] in Hrt.
  change (RoundManager.roundTime m0) with 0 in Hrt.
  cbn [repeat RoundRun.managerRun fold_left].
  (* the countdown starts at 20000 ms *)
  unfold RoundRun.managerStep at 7. unfold RoundManager.update. rewrite Hst.
  destruct (updatePlaying_latch (fst RoundRun.fullSecond) (Game.now (snd RoundRun.fullSecond))
              players0 m19 Hmany Hfca)
    as (m20 & ev20 & -> & Hst20 & Hround20 & Hfca20 & _ & Hfct20 & _);
    [rewrite Hrt; unfold CONFIG.ESCALATION.FINAL_COUNTDOWN_START; cbn; lra
    |unfold CONFIG.ESCALATION.FINAL_COUNTDOWN_DURATION; cbn; lra|].
  rewrite Hst in Hst20.
  unfold CONFIG.ESCALATION.FINAL_COUNTDOWN_DURATION in Hfct20. cbn [fst RoundRun.fullSecond] in Hfct20.
  (* and runs for three more seconds *)
  unfold RoundRun.managerStep at 6. unfold RoundManager.update. rewrite Hst20.
  destruct (updatePlaying_counting (fst RoundRun.fullSecond) (Game.now (snd RoundRun.fullSecond))
              players0 m20 Hmany Hfca20)
    as (m21 & ev21 & -> & Hst21 & Hround21 & Hfca21 & _ & Hfct21 & _);
    [rewrite Hfct20; cbn; lra|].
  rewrite Hst20 in Hst21. rewrite Hfct20 in Hfct21. cbn [fst RoundRun.fullSecond] in Hfct21.
  unfold RoundRun.managerStep at 5. unfold RoundManager.update. rewrite Hst21.
  destruct (updatePlaying_counting (fst RoundRun.fullSecond) (Game.now (snd RoundRun.fullSecond))
              players0 m21 Hmany Hfca21)
    as (m22 & ev22 & -> & Hst22 & Hround22 & Hfca22 & _ & Hfct22 & _);
    [rewrite Hfct21; cbn; lra|].
  rewrite Hst21 in Hst22. rewrite Hfct21 in Hfct22. cbn [fst RoundRun.fullSecond] in Hfct22.
  unfold RoundRun.managerStep at 4. unfold RoundManager.update. rewrite Hst22.
  destruct (updatePlaying_counting (fst RoundRun.fullSecond) (Game.now (snd RoundRun.fullSecond))
              players0 m22 Hmany Hfca22)
    as (m23 & ev23 & -> & Hst23 & Hround23 & Hfca23 & _ & Hfct23 & _);
    [rewrite Hfct22; cbn; lra|].
  rewrite Hst22 in Hst23. rewrite Hfct22 in Hfct23. cbn [fst RoundRun.fullSecond] in Hfct23.
  (* at 24000 ms the round is forced to end *)
  unfold RoundRun.managerStep at 3. unfold RoundManager.update. rewrite Hst23.
  destruct (updatePlaying_expired (fst RoundRun.fullSecond) (Game.now (snd RoundRun.fullSecond))
              players0 m23 Hfca23)
    as (m1 & ev24 & -> & Hround1 & _);
    [rewrite Hfct23; cbn; lra|].
  destruct (forceRoundEnd_many (Game.now (snd RoundRun.fullSecond)) players0 m1 Hmany)
    as (w & pw & Hpw & _ & _ & Hstrict & players' & -> & Hlen' & Hafter).
  assert (Hw : w = 0%nat).
  { destruct w as [|w]; [reflexivity|]. exfalso.
    pose proof (Hstrict 0%nat (Player.new 0 430 350 0) eq_refl eq_refl ltac:(lia)) as H.
    unfold Players.get in Hpw. destruct w as [|w]; cbn in Hpw.
    - injection Hpw as <-. unfold RoundManager.storedDistance in H. cbn in H. lra.
    - destruct w; discriminate. }
  subst w.
  assert (Hplayers' : players'
            = [Roster.afterForcedEnd (Game.now (snd RoundRun.fullSecond)) 0 0
                 (Player.new 0 430 350 0);
               Roster.afterForcedEnd (Game.now (snd RoundRun.fullSecond)) 0 1
                 (Player.new 1 540 350 0)]).
  { pose proof (Hafter 0%nat _ eq_refl) as H0. pose proof (Hafter 1%nat _ eq_refl) as H1.
    destruct players' as [|a [|b [|c rest]]]; cbn in Hlen'; try lia.
    unfold Players.get in H0, H1. cbn [nth_error] in H0, H1.
    injection H0 as ->. injection H1 as ->. reflexivity. }
  subst players'.
  (* one second of the round-end delay *)
  unfold RoundRun.managerStep at 2. unfold RoundManager.update. rm_simpl.
  rewrite updateRoundEnd_waiting
    by (rm_simpl; unfold CONFIG.ROUNDS.ROUND_END_DELAY; cbn; lra).
  (* and the other: the next countdown begins *)
  unfold RoundRun.managerStep at 1. unfold RoundManager.update. rm_simpl.
  match goal with
  | |- context [RoundManager.updateRoundEnd ?dt ?draw ?ps ?m] =>
      pose proof (updateRoundEnd_expired dt draw ps m) as Hexp;
      destruct (RoundManager.updateRoundEnd dt draw ps m) as [m26 ev26]
  end.
  cbn [fst] in Hexp. split; [|split; [|split]].
  - apply Hexp; [rm_simpl; unfold CONFIG.ROUNDS.ROUND_END_DELAY; cbn; lra | reflexivity].
  - rewrite Hround1, Hround23, Hround22, Hround21, Hround20, Hround19.
    apply in_or_app. left. apply in_or_app. left.
    apply in_or_app. right. apply in_or_app. right. now left.
  - reflexivity.
  - reflexivity.
Qed.

(** ** The model on concrete inputs *)

Ltac decide_cmp :=
  unfold JS.gtb, JS.geb;
  repeat match goal with
         | |- context [JS.ltb ?a ?b] =>
             let H := fresh in
             first [ assert (H : JS.ltb a b = true) by (apply ltb_true; lra)
                   | assert (H : JS.ltb a b = false) by (apply ltb_false; lra) ];
             rewrite H; clear H
         | |- context [JS.leb ?a ?b] =>
             let H := fresh in
             first [ assert (H : JS.leb a b = true) by (apply leb_true; lra)
                   | assert (H : JS.leb a b = false) by (apply leb_false; lra) ];
             rewrite H; clear H
         | |- context [JS.eqb ?a ?b] =>
             let H := fresh in
             first [ assert (H : JS.eqb a b = true) by (apply eqb_true; lra)
                   | assert (H : JS.eqb a b = false) by (apply eqb_false; lra) ];
             rewrite H; clear H
         end.

(** An actor wholly past the left edge is eliminated; one only partly past
    it is out of bounds but not eliminated. *)
Example past_the_left_edge :
  let arena := Arena.new CONFIG.CANVAS_WIDTH CONFIG.CANVAS_HEIGHT in
  Arena.isEliminated 20 350 25 arena = true /\
  Arena.isOutOfBounds 60 350 25 arena = true /\
  Arena.isEliminated 60 350 25 arena = false /\
  Arena.isOutOfBounds 500 350 25 arena = false.
Proof.
  cbv zeta. unfold Arena.isEliminated, Arena.isOutOfBounds. cbn.
  unfold CONFIG.ARENA.PADDING, CONFIG.CANVAS_WIDTH, CONFIG.CANVAS_HEIGHT.
  repeat split; decide_cmp; reflexivity.
Qed.

(** C2 as stated has the two predicates differ only on the
    partial-overlap band.  Past a corner of the rectangle they differ off
    it: in the arena of the game (edges at 50 and 950, 50 and 650) an actor
    of radius 25 at (30, 30) has no point inside the arena (the corner is
    more than 28 away), so it is completely outside and not on the band,
    yet it is past no single edge line: [isOutOfBounds] is true and
    [isEliminated] is false. *)
Theorem outside_near_a_corner :
  let arena := Arena.new CONFIG.CANVAS_WIDTH CONFIG.CANVAS_HEIGHT in
  0 < 25 /\
  Arena.centrifugeMode arena = false /\
  Geometry.completely_outside arena 30 30 25 /\
  ~ Geometry.overlaps_boundary arena 30 30 25 /\
  Arena.isOutOfBounds 30 30 25 arena = true /\
  Arena.isEliminated 30 30 25 arena = false /\
  Arena.isOutOfBounds 30 30 25 arena <> Arena.isEliminated 30 30 25 arena.
Proof.
  cbv zeta.
  assert (Hout : Geometry.completely_outside
                   (Arena.new CONFIG.CANVAS_WIDTH CONFIG.CANVAS_HEIGHT) 30 30 25).
  { intros [px py]. unfold Geometry.in_disc, Vector2.distanceTo. cbn. intros Hd.
    pose proof (norm_sqr (px - 30) (py - 30)) as Hs.
    pose proof (norm_nonneg (px - 30) (py - 30)) as Hn.
    set (d := sqrt ((px - 30) * (px - 30) + (py - 30) * (py - 30))) in *.
    destruct (Rlt_dec px 50) as [Hx|Hx].
    - exists Geometry.LeftEdge. split; [now left|].
      cbn. unfold CONFIG.ARENA.PADDING. exact Hx.
    - exists Geometry.TopEdge. split; [cbn; tauto|].
      cbn. unfold CONFIG.ARENA.PADDING. nra. }
  assert (Ho : Arena.isOutOfBounds 30 30 25
                 (Arena.new CONFIG.CANVAS_WIDTH CONFIG.CANVAS_HEIGHT) = true).
  { unfold Arena.isOutOfBounds. cbn.
    unfold CONFIG.ARENA.PADDING, CONFIG.CANVAS_WIDTH, CONFIG.CANVAS_HEIGHT.
    decide_cmp. reflexivity. }
  assert (He : Arena.isEliminated 30 30 25
                 (Arena.new CONFIG.CANVAS_WIDTH CONFIG.CANVAS_HEIGHT) = false).
  { unfold Arena.isEliminated. cbn.
    unfold CONFIG.ARENA.PADDING, CONFIG.CANVAS_WIDTH, CONFIG.CANVAS_HEIGHT.
    decide_cmp. reflexivity. }
  repeat split; auto.
  - lra.
  - intros [_ Hnot]. now apply Hnot.
  - rewrite Ho, He. discriminate.
Qed.

(** Extreme multipliers are clamped; the plain friction is the configured
    one. *)
Example friction_values :
  let p := Player.new 0 130 350 0 in
  Player.clampedFriction (-1000) p = 0.85 /\
  Player.clampedFriction 1000 p = 0.995 /\
  Player.clampedFriction 1 p = 0.92 /\
  Player.clampedFriction 1 (Player.set_isDashing true p) = 0.98.
Proof.
  cbv zeta. unfold Player.clampedFriction. cbn. unfold CONFIG.PLAYER.FRICTION.
  unfold Rmin, Rmax. repeat split; repeat destruct Rle_dec; lra.
Qed.

(** Three living players, the second with no stored distance and the third
    at distance 0: the forced round end keeps the second. *)
Example forced_end_tie :
  let far := Player.set_distanceFromCenter (Some 120) (Player.new 0 130 350 0) in
  let unset := Player.new 1 870 350 0 in
  let zero := Player.set_distanceFromCenter (Some 0) (Player.new 2 500 350 0) in
  let '(m, players, events) :=
    RoundManager.forceRoundEnd 1000 [far; unset; zero]
      (RoundManager.set_state RoundManager.playing RoundManager.new) in
  RoundManager.roundWinner m = Some 1%nat /\
  map Player.isAlive players = [false; true; false] /\
  map Player.wins players = [0; 1; 0]%nat /\
  events = [RoundManager.RoundEnd (Some 1%nat) 0 RoundManager.timeout].
Proof.
  cbv zeta. unfold RoundManager.forceRoundEnd.
  change (Players.alive _) with [0; 1; 2]%nat.
  unfold RoundManager.closest. cbn [fold_left].
  unfold RoundManager.closerStep, RoundManager.storedDistance, JS.or_default.
  cbn [Players.get nth_error Player.distanceFromCenter Player.set_distanceFromCenter
       Player.new snd fst].
  decide_cmp. cbn [snd fst]. decide_cmp. cbn. auto.
Qed.

(** Sudden death switches on at two players past the start time and stays
    on when a larger count is reported. *)
Example sudden_death_stays :
  let arena := Arena.update 13000 true (Arena.new CONFIG.CANVAS_WIDTH CONFIG.CANVAS_HEIGHT) in
  Arena.suddenDeathActive (Arena.setAliveCount 3 arena) = false /\
  Arena.suddenDeathActive (Arena.setAliveCount 2 arena) = true /\
  Arena.suddenDeathActive (Arena.setAliveCount 4 (Arena.setAliveCount 2 arena)) = true.
Proof.
  cbv zeta. rewrite !setAliveCount_suddenDeathActive, !update_suddenDeathActive.
  assert (Hrt : Arena.roundTime
                  (Arena.update 13000 true (Arena.new CONFIG.CANVAS_WIDTH CONFIG.CANVAS_HEIGHT))
                = 0 + 13000).
  { unfold Arena.update. cbn. decide_cmp. reflexivity. }
  assert (Hst : Arena.suddenDeathStartTime
                  (Arena.update 13000 true (Arena.new CONFIG.CANVAS_WIDTH CONFIG.CANVAS_HEIGHT))
                = 12000).
  { unfold Arena.update. cbn. decide_cmp. reflexivity. }
  rewrite Hrt, Hst. cbn [Arena.suddenDeathActive Arena.new orb]. cbn [INR].
  repeat split; decide_cmp; reflexivity.
Qed.

(** ** Shrink floor in the running game *)

Lemma getRandomModifier_ok (draw : RoundManager.Draw) :
  ArenaTrace.modifier_ok (Some (RoundManager.getRandomModifier draw)).
Proof.
  unfold RoundManager.getRandomModifier, ArenaTrace.modifier_ok.
  destruct (_ <? 0.4); [exact I|].
  destruct (RoundManager.index _ _) as [[]|]; cbn; try exact I. lra.
Qed.

Lemma startCountdown_ok (draw : RoundManager.Draw) (m : RoundManager.t) :
  ArenaTrace.modifier_ok
    (RoundManager.currentModifier (fst (RoundManager.startCountdown draw m))) /\
  Forall ArenaTrace.event_ok (snd (RoundManager.startCountdown draw m)).
Proof.
  unfold RoundManager.startCountdown. cbv zeta. rm_simpl. split.
  - destruct (Nat.leb 1 _); rm_simpl; [apply getRandomModifier_ok | exact I].
  - repeat constructor.
Qed.

Lemma updateCountdown_ok (dt : R) (m : RoundManager.t) :
  ArenaTrace.modifier_ok (RoundManager.currentModifier m) ->
  ArenaTrace.modifier_ok
    (RoundManager.currentModifier (fst (RoundManager.updateCountdown dt m))) /\
  Forall ArenaTrace.event_ok (snd (RoundManager.updateCountdown dt m)).
Proof.
  intros Hm. unfold RoundManager.updateCountdown. cbv zeta. rm_simpl.
  destruct (_ <=? _); rm_simpl; [|split; [exact Hm | constructor]].
  destruct (_ <=? _)%Z; rm_simpl; [|split; [exact Hm | repeat constructor]].
  split; [exact Hm|].
  constructor; [exact Hm|]. apply Forall_app. split; [|repeat constructor].
  destruct (RoundManager.currentModifier m) as [modifier|]; [|constructor].
  destruct (CONFIG.name modifier) as [n|]; [destruct (String.eqb n _)|];
    repeat constructor.
Qed.

Lemma forceRoundEnd_ok (now : R) (players : list Player.t) (m : RoundManager.t) :
  RoundManager.currentModifier (fst (fst (RoundManager.forceRoundEnd now players m)))
  = RoundManager.currentModifier m /\
  Forall ArenaTrace.event_ok (snd (RoundManager.forceRoundEnd now players m)).
Proof.
  unfold RoundManager.forceRoundEnd.
  destruct (Players.alive players) as [|a [|b rest]]; cbn; split;
    try reflexivity; repeat constructor.
Qed.

Lemma checkRoundEnd_ok (players : list Player.t) (m : RoundManager.t) :
  RoundManager.currentModifier (fst (fst (RoundManager.checkRoundEnd players m)))
  = RoundManager.currentModifier m /\
  Forall ArenaTrace.event_ok (snd (RoundManager.checkRoundEnd players m)).
Proof.
  unfold RoundManager.checkRoundEnd. destruct (Nat.leb _ _); cbn; split;
    try reflexivity; repeat constructor.
Qed.

Lemma updatePlaying_ok (dt now : R) (players : list Player.t) (m : RoundManager.t) :
  RoundManager.currentModifier (fst (fst (RoundManager.updatePlaying dt now players m)))
  = RoundManager.currentModifier m /\
  Forall ArenaTrace.event_ok (snd (RoundManager.updatePlaying dt now players m)).
Proof.
  unfold RoundManager.updatePlaying.
  destruct (updateDamageMultiplier_eq
              (RoundManager.set_roundTime (RoundManager.roundTime m + dt) m)) as [d ->].
  destruct (negb _ && _); destruct (negb _ && _);
    destruct (RoundManager.finalCountdownActive _);
    try destruct (_ <=? _);
    repeat match goal with
      | |- context [RoundManager.forceRoundEnd ?n ?p ?x] =>
          destruct (forceRoundEnd_ok n p x) as [? ?];
          destruct (RoundManager.forceRoundEnd n p x) as [[? ?] ?]
      | |- context [RoundManager.checkRoundEnd ?p ?x] =>
          destruct (checkRoundEnd_ok p x) as [? ?];
          destruct (RoundManager.checkRoundEnd p x) as [[? ?] ?]
      end;
    cbn [fst snd] in *; rm_simpl; (split; [assumption|]);
    repeat (apply Forall_cons; [exact I|]); assumption.
Qed.

Lemma updateRoundEnd_ok (dt : R) (draw : RoundManager.Draw) (players : list Player.t)
    (m : RoundManager.t) :
  ArenaTrace.modifier_ok (RoundManager.currentModifier m) ->
  ArenaTrace.modifier_ok
    (RoundManager.currentModifier (fst (RoundManager.updateRoundEnd dt draw players m))) /\
  Forall ArenaTrace.event_ok (snd (RoundManager.updateRoundEnd dt draw players m)).
Proof.
  intros Hm. unfold RoundManager.updateRoundEnd. cbv zeta. rm_simpl.
  destruct (_ <=? _); [|split; [exact Hm | constructor]].
  destruct (RoundManager.findMatchWinner players).
  - rm_simpl. split; [exact Hm | repeat constructor].
  - apply startCountdown_ok.
Qed.

Lemma update_ok (dt : R) (draw : RoundManager.Draw) (now : R)
    (players : list Player.t) (m : RoundManager.t) :
  ArenaTrace.modifier_ok (RoundManager.currentModifier m) ->
  ArenaTrace.modifier_ok
    (RoundManager.currentModifier
       (fst (fst (RoundManager.update dt draw now players m)))) /\
  Forall ArenaTrace.event_ok (snd (RoundManager.update dt draw now players m)).
Proof.
  intros Hm. unfold RoundManager.update. destruct (RoundManager.state m).
  - split; [exact Hm | constructor].
  - destruct (updateCountdown_ok dt m Hm) as [H1 H2].
    destruct (RoundManager.updateCountdown dt m). split; assumption.
  - destruct (updatePlaying_ok dt now players m) as [H1 H2]. rewrite H1. split; assumption.
  - destruct (updateRoundEnd_ok dt draw players m Hm) as [H1 H2].
    destruct (RoundManager.updateRoundEnd dt draw players m). split; assumption.
  - split; [exact Hm | constructor].
Qed.

Lemma handle_floor_inv (g : Game.t) (e : RoundManager.Event) :
  ArenaTrace.event_ok e ->
  ArenaTrace.floor_inv (Game.arena g) ->
  ArenaTrace.floor_inv (Game.arena (Game.handle g e)).
Proof.
  intros He Hg. destruct e; cbn [Game.handle]; try exact Hg.
  cbn in He. destruct modifier as [m|]; [|exact Hg].
  destruct (CONFIG.key m) as [[]|]; try exact Hg.
  - unfold ArenaTrace.modifier_ok in He.
    destruct (CONFIG.arenaScale m) as [scale|]; [|exact Hg].
    apply (apply_floor_inv (ArenaTrace.SetScale scale)); [exact He | exact Hg].
  - destruct (CONFIG.shrinkSpeed m) as [speed|]; exact Hg.
Qed.

Lemma dispatch_floor_inv (events : list RoundManager.Event) :
  forall g : Game.t,
    Forall ArenaTrace.event_ok events ->
    ArenaTrace.floor_inv (Game.arena g) ->
    ArenaTrace.floor_inv (Game.arena (Game.dispatch events g)).
Proof.
  unfold Game.dispatch.
  induction events as [|e events IH]; intros g Hev Hg; cbn [fold_left]; [exact Hg|].
  inversion Hev; subst. apply IH; [assumption|]. now apply handle_floor_inv.
Qed.

(** The floor invariant of the running game: the arena is above its floor
    and the round manager holds no modifier with a negative scale. *)
Lemma fixedUpdate_floor (dt : R) (env : Game.Env) (g : Game.t) :
  ArenaTrace.floor_inv (Game.arena g) ->
  ArenaTrace.modifier_ok (RoundManager.currentModifier (Game.roundManager g)) ->
  ArenaTrace.floor_inv (Game.arena (fst (Game.fixedUpdate dt env g))) /\
  ArenaTrace.modifier_ok
    (RoundManager.currentModifier (Game.roundManager (fst (Game.fixedUpdate dt env g)))).
Proof.
  intros Hg Hm. rewrite fixedUpdate_unfold. cbv zeta.
  assert (H2 : ArenaTrace.floor_inv (Game.arena (RoundRun.afterRoundManager dt env g)) /\
               ArenaTrace.modifier_ok
                 (RoundManager.currentModifier
                    (Game.roundManager (RoundRun.afterRoundManager dt env g)))).
  { unfold RoundRun.afterRoundManager.
    destruct (update_ok dt (Game.draw env) (Game.now env) (Game.players g)
                (Game.roundManager g) Hm) as [Hm' Hev].
    destruct (RoundManager.update dt (Game.draw env) (Game.now env) (Game.players g)
                (Game.roundManager g)) as [[m ps] events].
    cbn [fst snd] in Hm', Hev.
    cbn [Game.arena Game.roundManager Game.set_arena]. rewrite dispatch_roundManager.
    split; [|exact Hm'].
    apply update_floor_inv. now apply dispatch_floor_inv. }
  set (g2 := RoundRun.afterRoundManager dt env g) in *. clearbody g2.
  destruct H2 as [Hg2 Hm2].
  destruct (negb _).
  - destruct (_ && _); cbn [fst]; [|auto].
    split; [|exact Hm2].
    apply (apply_floor_inv ArenaTrace.Reset); [exact I | exact Hg2].
  - cbn [fst]. rewrite playPhase_roundManager. split; [|exact Hm2].
    unfold RoundRun.playPhase. cbv zeta. unfold Game.checkBoundaries.
    destruct (existsb _ _);
      cbn [Game.arena Game.set_arena Game.set_players Game.processCollisionsWithEffects].
    + apply (apply_floor_inv ArenaTrace.TriggerBorderGlow); [exact I|].
      apply (apply_floor_inv (ArenaTrace.SetAliveCount _)); [exact I | exact Hg2].
    + apply (apply_floor_inv (ArenaTrace.SetAliveCount _)); [exact I | exact Hg2].
Qed.

Lemma step_floor (s : Game.Step) (g : Game.t) :
  ArenaTrace.floor_inv (Game.arena g) ->
  ArenaTrace.modifier_ok (RoundManager.currentModifier (Game.roundManager g)) ->
  ArenaTrace.floor_inv (Game.arena (fst (Game.step s g))) /\
  ArenaTrace.modifier_ok
    (RoundManager.currentModifier (Game.roundManager (fst (Game.step s g)))).
Proof.
  intros Hg Hm. destruct s as [dt env | draw | phases count]; cbn [Game.step].
  - now apply fixedUpdate_floor.
  - destruct (_ || _); [|auto].
    unfold Game.startNewMatch. cbv zeta.
    unfold RoundManager.startMatch. cbv zeta.
    match goal with
    | |- context [RoundManager.startCountdown ?d ?x] =>
        destruct (startCountdown_ok d x) as [Hm' Hev];
        destruct (RoundManager.startCountdown d x) as [m events]
    end.
    cbn [fst snd] in *. rewrite dispatch_roundManager.
    cbn [Game.roundManager Game.set_roundManager]. split; [|exact Hm'].
    apply dispatch_floor_inv; [exact Hev|].
    cbn [Game.arena Game.set_roundManager Game.set_roundResetDone Game.set_players
         Game.set_arena].
    apply (apply_floor_inv ArenaTrace.Reset); [exact I | exact Hg].
  - cbn. split; [|exact Hm].
    apply (apply_floor_inv ArenaTrace.Reset); [exact I | exact Hg].
Qed.

Lemma run_floor (steps : list Game.Step) :
  forall (g : Game.t) (log : list RoundManager.Event),
    ArenaTrace.floor_inv (Game.arena g) ->
    ArenaTrace.modifier_ok (RoundManager.currentModifier (Game.roundManager g)) ->
    ArenaTrace.floor_inv
      (Game.arena
         (fst (fold_left
                 (fun '(g, log) s =>
                    let '(g', events) := Game.step s g in (g', log ++ events))
                 steps (g, log)))).
Proof.
  induction steps as [|s steps IH]; intros g log Hg Hm; cbn [fold_left].
  - exact Hg.
  - destruct (step_floor s g Hg Hm) as [Hg' Hm'].
    destruct (Game.step s g) as [g' events]. cbn [fst] in *. now apply IH.
Qed.

(** C8.  The shrink has a hard floor.  For the arena on its own: from
    construction on, after any sequence of updates (at any round time),
    scale and shrink-speed settings and the other calls, width and height
    are at least [minSizePercent * arenaScale * original extent], for a
    canvas that contains the padding and scale settings that are not
    negative.  For the game: in every reachable state the arena is above
    that floor. *)
Theorem shrink_floor :
  (forall (canvasWidth canvasHeight : R) (ops : list ArenaTrace.Op),
     2 * CONFIG.ARENA.PADDING <= canvasWidth ->
     2 * CONFIG.ARENA.PADDING <= canvasHeight ->
     Forall ArenaTrace.scale_nonneg ops ->
     ArenaTrace.above_floor (ArenaTrace.run ops (Arena.new canvasWidth canvasHeight))) /\
  (forall (phases : nat -> R) (steps : list Game.Step),
     ArenaTrace.above_floor (Game.arena (fst (Game.run steps (Game.new phases))))).
Proof.
  split.
  - intros canvasWidth canvasHeight ops Hw Hh Hops.
    apply (run_floor_inv ops); [exact Hops|]. now apply new_floor_inv.
  - intros phases steps. unfold Game.run.
    apply run_floor; [|exact I].
    unfold Game.new, Game.initializePlayers.
    cbn [Game.arena Game.set_players Game.set_roundResetDone].
    apply new_floor_inv;
      unfold CONFIG.ARENA.PADDING, CONFIG.CANVAS_WIDTH, CONFIG.CANVAS_HEIGHT; lra.
Qed.

Lemma shrink_floor_witness :
  ArenaTrace.above_floor
    (ArenaTrace.run
       [ArenaTrace.SetScale 0.7; ArenaTrace.Update 9000 true;
        ArenaTrace.SetAliveCount 2; ArenaTrace.Update 9000 true]
       (Arena.new CONFIG.CANVAS_WIDTH CONFIG.CANVAS_HEIGHT)).
Proof.
  apply (proj1 shrink_floor).
  - unfold CONFIG.ARENA.PADDING, CONFIG.CANVAS_WIDTH. lra.
  - unfold CONFIG.ARENA.PADDING, CONFIG.CANVAS_HEIGHT. lra.
  - repeat constructor. unfold ArenaTrace.scale_nonneg. cbn. lra.
Defined.
